(** * WebScrape: the two news scrapers, embedded and verified

    The repository holds two scripts that drive a headless browser:

    - [web.py] (variant B, class [NewsScraperSetopati]): a two-phase
      collect-then-extract scraper with bounded retries and session restarts;
    - [test.py] (variant A): a listing scrape that follows each teaser link.

    The browser, the HTML parser and the retry library are outside the
    repository.  They are modelled as an environment: every remote call asks
    an oracle what happens (a value, or an exception), and every call,
    sleep, log entry and print is appended to a chronological trace.  The
    Python code itself is translated function by function on top of a
    state-and-exception monad over that environment. *)

From Stdlib Require Import String Ascii List Bool Arith ZArith Lia Permutation.
Import ListNotations.
Open Scope string_scope.
Open Scope list_scope.

Set Implicit Arguments.
Set Warnings "-register-all".

(* ================================================================== *)
(** ** Python preliminaries                                            *)
(* ================================================================== *)

Module Py.

(** The exception classes the two scripts can observe.  In Selenium
    [TimeoutException] is a subclass of [WebDriverException]; every class
    below derives from [Exception]. *)
Inductive exn : Type :=
| TimeoutException
| WebDriverException
| RetryError
| KeyError
| TypeError
| AttributeError
| Exception_ (msg : string).

Definition is_TimeoutException (e : exn) : bool :=
  match e with TimeoutException => true | _ => false end.

Definition is_WebDriverException (e : exn) : bool :=
  match e with TimeoutException | WebDriverException => true | _ => false end.

(** The result of evaluating a Python expression: a value or a raised
    exception. *)
Inductive outcome (A : Type) : Type :=
| Ok (a : A)
| Raise (e : exn).
Arguments Ok {A} a.
Arguments Raise {A} e.

(** A Python [str] is modelled by the [string] that holds its UTF-8
    encoding, which is what a string literal of this file denotes: the
    characters of a [string] are bytes.  Equality, concatenation, prefix and
    substring tests on the encodings are those on the strs.

    The white-space characters of Python (those [str.isspace] accepts and
    [str.strip] removes), by the length of their encoding.  One byte:
    U+0009..U+000D, U+001C..U+001F and U+0020.  Two bytes: U+0085 (C2 85)
    and U+00A0 (C2 A0).  Three bytes: U+1680 (E1 9A 80), U+2000..U+200A
    (E2 80 80 .. E2 80 8A), U+2028 and U+2029 (E2 80 A8, E2 80 A9), U+202F
    (E2 80 AF), U+205F (E2 81 9F) and U+3000 (E3 80 80). *)
Definition space1 (a : ascii) : bool :=
  let x := nat_of_ascii a in
  (((9 <=? x) && (x <=? 13)) || ((28 <=? x) && (x <=? 32)))%nat.

Definition space2 (a b : ascii) : bool :=
  let x := nat_of_ascii a in
  let y := nat_of_ascii b in
  ((x =? 194) && ((y =? 133) || (y =? 160)))%nat.

Definition space3 (a b c : ascii) : bool :=
  let x := nat_of_ascii a in
  let y := nat_of_ascii b in
  let z := nat_of_ascii c in
  (((x =? 225) && (y =? 154) && (z =? 128)) ||
   ((x =? 226) && (y =? 128) &&
    (((128 <=? z) && (z <=? 138)) || (z =? 168) || (z =? 169) || (z =? 175))) ||
   ((x =? 226) && (y =? 129) && (z =? 159)) ||
   ((x =? 227) && (y =? 128) && (z =? 128)))%nat.

(** The bytes a white-space character can start with. *)
Definition lead (a : ascii) : bool :=
  let x := nat_of_ascii a in
  space1 a || (x =? 194)%nat || (x =? 225)%nat || (x =? 226)%nat || (x =? 227)%nat.

(** What follows the white-space character a string starts with, if it
    starts with one. *)
Definition after_space (s : string) : option string :=
  match s with
  | EmptyString => None
  | String a r1 =>
      if space1 a then Some r1
      else match r1 with
           | EmptyString => None
           | String b r2 =>
               if space2 a b then Some r2
               else match r2 with
                    | EmptyString => None
                    | String c r3 => if space3 a b c then Some r3 else None
                    end
           end
  end.

(** There is nothing but white space in [s] (as [s.isspace()], but true
    of the empty string). *)
Fixpoint blank (s : string) : bool :=
  match s with
  | EmptyString => true
  | String a r1 =>
      if space1 a then blank r1
      else match r1 with
           | EmptyString => false
           | String b r2 =>
               if space2 a b then blank r2
               else match r2 with
                    | EmptyString => false
                    | String c r3 => space3 a b c && blank r3
                    end
           end
  end.

(** [s.lstrip()]: white-space characters are dropped from the front
    until the string starts with something else. *)
Fixpoint lstrip (s : string) : string :=
  match s with
  | EmptyString => EmptyString
  | String a r1 =>
      if space1 a then lstrip r1
      else match r1 with
           | EmptyString => s
           | String b r2 =>
               if space2 a b then lstrip r2
               else match r2 with
                    | EmptyString => s
                    | String c r3 => if space3 a b c then lstrip r3 else s
                    end
           end
  end.

(** [s.rstrip()]: the longest suffix of white space is dropped. *)
Fixpoint rstrip (s : string) : string :=
  match s with
  | EmptyString => EmptyString
  | String a rest => if blank s then EmptyString else String a (rstrip rest)
  end.

(** [s.strip()] *)
Definition strip (s : string) : string := rstrip (lstrip s).

(** [s.startswith(p)] *)
Fixpoint startswith (p s : string) : bool :=
  match p, s with
  | EmptyString, _ => true
  | String a p', String b s' => Ascii.eqb a b && startswith p' s'
  | String _ _, EmptyString => false
  end.

(** [sub in s] for strings: [sub] occurs somewhere in [s]. *)
Fixpoint contains (sub s : string) : bool :=
  startswith sub s ||
  match s with
  | EmptyString => false
  | String _ s' => contains sub s'
  end.

(** [sep.join(parts)] *)
Fixpoint join (sep : string) (parts : list string) : string :=
  match parts with
  | [] => EmptyString
  | [p] => p
  | p :: rest => p ++ sep ++ join sep rest
  end.

(** Truthiness of an optional string, as in [if href and ...]:
    [None] and the empty string are false. *)
Definition truthy (o : option string) : bool :=
  match o with
  | None => false
  | Some EmptyString => false
  | Some _ => true
  end.

(** [l[:n]] with Python's reading of a negative bound (count from the
    end). *)
Definition slice_to {A} (n : Z) (l : list A) : list A :=
  if (n <? 0)%Z
  then firstn (length l - Z.to_nat (- n)) l
  else firstn (Z.to_nat n) l.

(** A Python [set] of strings.  What the program can observe of it is its
    membership, its size and, through [list(s)], an enumeration whose order
    the language leaves to the hash table (string hashes are salted per
    process).  The contents are kept in first-insertion order; the order of
    enumeration is a parameter of the run, any rearrangement of the
    contents. *)
Definition pyset := list string.

Definition set_empty : pyset := [].

Definition set_mem (x : string) (s : pyset) : bool :=
  existsb (String.eqb x) s.

Definition set_add (x : string) (s : pyset) : pyset :=
  if set_mem x s then s else s ++ [x].

Definition set_len (s : pyset) : nat := length s.

Record SetOrder : Type := {
  iter_order :> list string -> list string;
  iter_order_perm : forall l, Permutation l (iter_order l)
}.

(** [list(s)] *)
Definition list_of_set (ord : SetOrder) (s : pyset) : list string := ord s.

Definition insertion_order : SetOrder :=
  {| iter_order := fun l => l; iter_order_perm := @Permutation_refl string |}.

Definition reversed_order : SetOrder :=
  {| iter_order := @rev string; iter_order_perm := @Permutation_rev string |}.

End Py.
Import Py.

(* ================================================================== *)
(** ** Documents and elements                                          *)
(* ================================================================== *)

Module Dom.

(** The parser library (beautifulsoup4 with [html.parser]) is given as
    its releases 4.10 to 4.12 behave; the repository pins none. *)

(** The classes of string objects, other than plain [NavigableString],
    that the parser library puts in a tree: those that come from the markup
    (comments, CDATA sections, processing instructions, declarations, the
    doctype) and those it gives to the text inside [script], [style],
    [template], [rt] and [rp] tags. *)
Inductive string_class : Type :=
| Comment
| CData
| ProcessingInstruction
| Declaration
| Doctype
| Script
| Stylesheet
| TemplateString
| RubyTextString
| RubyParenthesisString.

Definition string_class_eqb (c1 c2 : string_class) : bool :=
  match c1, c2 with
  | Comment, Comment | CData, CData
  | ProcessingInstruction, ProcessingInstruction
  | Declaration, Declaration | Doctype, Doctype
  | Script, Script | Stylesheet, Stylesheet
  | TemplateString, TemplateString
  | RubyTextString, RubyTextString
  | RubyParenthesisString, RubyParenthesisString => true
  | _, _ => false
  end.

(** A document: plain text, strings of another class, and tags.  The
    parser splits the [class] attribute into its tokens; the other
    attributes are kept as name/value pairs. *)
Inductive node : Type :=
| NText (s : string)
| NString (c : string_class) (s : string)
| NTag (name : string) (classes : list string)
       (attrs : list (string * string)) (children : list node).

(** [builder.string_containers] of the HTML tree builders: the tags whose
    text gets a class of its own. *)
Definition string_container (name : string) : option string_class :=
  if String.eqb name "script" then Some Script
  else if String.eqb name "style" then Some Stylesheet
  else if String.eqb name "template" then Some TemplateString
  else if String.eqb name "rt" then Some RubyTextString
  else if String.eqb name "rp" then Some RubyParenthesisString
  else None.

(** What the parser does to the strings of the document the markup
    describes: text gets the class of the innermost container tag around
    it, if there is one; comments and the like keep their class. *)
Fixpoint classify (container : option string_class) (n : node) : node :=
  match n with
  | NText s =>
      match container with
      | Some c => NString c s
      | None => NText s
      end
  | NString c s => NString c s
  | NTag name classes attrs cs =>
      let inner :=
        match string_container name with
        | Some c => Some c
        | None => container
        end in
      NTag name classes attrs (map (classify inner) cs)
  end.

(** [BeautifulSoup(markup, 'html.parser')] *)
Definition BeautifulSoup (markup : node) : node := classify None markup.

(** [tag.descendants]: the nodes below a node, parents before children. *)
Fixpoint descendants (n : node) : list node :=
  match n with
  | NText _ => []
  | NString _ _ => []
  | NTag _ _ _ cs =>
      (fix go (l : list node) : list node :=
         match l with
         | [] => []
         | c :: r => c :: descendants c ++ go r
         end) cs
  end.

(** The strings [.text] collects for a tag named [name]
    ([interesting_string_types]): plain text and CDATA sections, or, for a
    container tag, the strings of its own class.  Comments and the text of
    [script], [style] and [template] tags inside a paragraph are left
    out. *)
Definition interesting (name : string) (n : node) : bool :=
  match string_container name, n with
  | None, NText _ => true
  | None, NString CData _ => true
  | Some c, NString c' _ => string_class_eqb c c'
  | _, _ => false
  end.

Definition string_of (n : node) : string :=
  match n with
  | NText s => s
  | NString _ s => s
  | NTag _ _ _ _ => EmptyString
  end.

(** [tag.text]: the interesting strings below the tag, in document
    order, concatenated.  (The scripts read [.text] of tags only; for a
    string it is the string itself if plain text or CDATA.) *)
Definition get_text (n : node) : string :=
  match n with
  | NTag name _ _ _ =>
      fold_right append EmptyString
        (map string_of (filter (interesting name) (descendants n)))
  | NText s => s
  | NString CData s => s
  | NString _ _ => EmptyString
  end.

(** How the parser library matches [class_='...']: one of the node's
    class tokens is the given string, or the tokens joined by single spaces
    are. *)
Definition class_matches (cls : string) (classes : list string) : bool :=
  existsb (String.eqb cls) classes || String.eqb (join " " classes) cls.

Definition tag_matches (name : string) (cls : option string) (n : node) : bool :=
  match n with
  | NText _ => false
  | NString _ _ => false
  | NTag nm classes _ _ =>
      String.eqb nm name &&
      match cls with
      | None => true
      | Some c => class_matches c classes
      end
  end.

(** [root.find_all(name, class_=cls, limit=limit)]; a limit of [0] is no
    limit. *)
Definition find_all (name : string) (cls : option string) (limit : nat)
    (root : node) : list node :=
  let found := filter (tag_matches name cls) (descendants root) in
  if (limit =? 0)%nat then found else firstn limit found.

(** [root.find(name, class_=cls)]: the first match, or [None]. *)
Definition find (name : string) (cls : option string) (root : node) : option node :=
  match filter (tag_matches name cls) (descendants root) with
  | [] => None
  | n :: _ => Some n
  end.

(** [tag[key]] for an attribute other than [class]: the value, or
    [KeyError]. *)
Definition getitem (key : string) (n : node) : outcome string :=
  match n with
  | NText _ => Raise TypeError
  | NString _ _ => Raise TypeError
  | NTag _ _ attrs _ =>
      match List.find (fun kv => String.eqb (fst kv) key) attrs with
      | Some kv => Ok (snd kv)
      | None => Raise KeyError
      end
  end.

(** An element handle of the browser driver: what [.text] and
    [.get_attribute('href')] answer for it (either read can raise, for a
    stale element say), and the part of the document it refers to. *)
Record WebElement : Type := {
  text : outcome string;
  href : outcome (option string);
  dom : node
}.

End Dom.
Import Dom.

(* ================================================================== *)
(** ** The environment: browser, file system, clock and log            *)
(* ================================================================== *)

Module Env.

Inductive locator : Type :=
| ByClassName (c : string)
| ByCssSelector (s : string).

(** The calls that leave the program. *)
Inductive call : Type :=
| CChrome                                   (* install the driver binary, start Chrome *)
| CSetPageLoadTimeout (secs : nat)          (* driver.set_page_load_timeout *)
| CGet (url : string)                       (* driver.get *)
| CExecuteScript (js : string)              (* driver.execute_script *)
| CWaitCountAbove (css : string) (n : nat)  (* wait.until(len(find_elements(css)) > n) *)
| CFindElements (css : string)              (* driver.find_elements *)
| CWaitPresence (loc : locator)             (* wait.until(presence_of_element_located) *)
| CPageSource                               (* driver.page_source *)
| CQuit (session : nat)                     (* driver.quit *)
| CToCsv (rows : nat).                      (* df.to_csv *)

(** What a call answers: an exception, or the value the caller reads
    (each caller reads the field of its call).  A page source is given as
    the document its markup describes. *)
Record response : Type := {
  r_raise : option exn;
  r_element : WebElement;
  r_elements : list WebElement;
  r_source : node
}.

(** The soup made of a page source. *)
Definition r_page (r : response) : node := BeautifulSoup (r_source r).

Inductive level : Type := INFO | WARNING | ERROR.

(** The log and print sites of the two scripts, with the values they
    interpolate. *)
Inductive message : Type :=
| MsgInitAttemptFailed (attempt : nat) (e : exn)     (* web.py 70 *)
| MsgScrollTimeout (scroll : nat)                    (* web.py 106 *)
| MsgCollected (n : nat)                             (* web.py 109 *)
| MsgLinksWebDriverError (e : exn)                   (* web.py 113 *)
| MsgLinksUnexpected (e : exn)                       (* web.py 117 *)
| MsgScraped (url : string)                          (* web.py 164 *)
| MsgArticleTimeout (url : string) (e : exn)         (* web.py 168 *)
| MsgArticleWebDriverError (url : string) (e : exn)  (* web.py 171 *)
| MsgArticleUnexpected (url : string) (e : exn)      (* web.py 175 *)
| MsgNoLinks                                         (* web.py 187 *)
| MsgArticleFailed (url : string) (e : exn)          (* web.py 199 *)
| MsgSaved (n : nat)                                 (* web.py 210 *)
| MsgCsvError (e : exn)                              (* web.py 212 *)
| MsgMainError (e : exn)                             (* web.py 217 *)
| MsgScrapedCount (n : nat)                          (* web.py 234 *)
| MsgScrapingFailed (e : exn)                        (* web.py 236 *)
| MsgLink (link : string)                            (* test.py 40 *)
| MsgErrorScraping (e : exn)                         (* test.py 50 *)
| MsgErrorLoading (e : exn).                         (* test.py 82 *)

Inductive event : Type :=
| EvCall (c : call) (raised : option exn)
| EvSleep (secs : nat)
| EvLog (lvl : level) (m : message)
| EvPrint (m : message).

(** The state a run threads: the oracle answering the [clock]-th call,
    the trace so far, the enumeration order of sets in this process, the
    number of browser sessions started, and the [self.driver] attribute of
    variant B (sessions are numbered from 1; 0 is no session). *)
Record world : Type := {
  oracle : nat -> call -> response;
  clock : nat;
  trace : list event;
  hash_order : SetOrder;
  sessions : nat;
  self_driver : nat
}.

Definition M (A : Type) : Type := world -> outcome A * world.

Definition ret {A} (a : A) : M A := fun w => (Ok a, w).

Definition raise {A} (e : exn) : M A := fun w => (Raise e, w).

Definition bind {A B} (m : M A) (k : A -> M B) : M B :=
  fun w =>
    match m w with
    | (Ok a, w') => k a w'
    | (Raise e, w') => (Raise e, w')
    end.

(** Run [m] and hand its outcome over as a value: the start of every
    [try]. *)
Definition tried {A} (m : M A) : M (outcome A) :=
  fun w => let '(r, w') := m w in (Ok r, w').

(** [try: m  except Exception as e: handler e] *)
Definition try_except {A} (m : M A) (handler : exn -> M A) : M A :=
  fun w =>
    match m w with
    | (Ok a, w') => (Ok a, w')
    | (Raise e, w') => handler e w'
    end.

(** [try: m  finally: fin]: [fin] runs on every exit of [m]; an
    exception of [fin] replaces the outcome of [m]. *)
Definition try_finally {A} (m : M A) (fin : M unit) : M A :=
  fun w =>
    let '(r, w') := m w in
    match fin w' with
    | (Ok _, w'') => (r, w'')
    | (Raise e, w'') => (Raise e, w'')
    end.

Definition lift {A} (o : outcome A) : M A := fun w => (o, w).

Definition append_event (e : event) (w : world) : world :=
  {| oracle := oracle w; clock := clock w;
     trace := trace w ++ [e]; hash_order := hash_order w;
     sessions := sessions w; self_driver := self_driver w |}.

Definition tick (w : world) : world :=
  {| oracle := oracle w; clock := S (clock w);
     trace := trace w; hash_order := hash_order w;
     sessions := sessions w; self_driver := self_driver w |}.

Definition emit (e : event) : M unit :=
  fun w => (Ok tt, append_event e w).

(** One call to the outside: the oracle answers, the clock advances, the
    call and whether it raised are recorded. *)
Definition env_call (c : call) : M response :=
  fun w =>
    let r := oracle w (clock w) c in
    let w' := tick (append_event (EvCall c (r_raise r)) w) in
    match r_raise r with
    | Some e => (Raise e, w')
    | None => (Ok r, w')
    end.

(** A browser session was started: it gets the next number. *)
Definition new_session : M nat :=
  fun w => (Ok (S (sessions w)),
            {| oracle := oracle w; clock := clock w; trace := trace w;
               hash_order := hash_order w;
               sessions := S (sessions w); self_driver := self_driver w |}).

Definition set_self_driver (d : nat) : M unit :=
  fun w => (Ok tt, {| oracle := oracle w; clock := clock w; trace := trace w;
                      hash_order := hash_order w;
                      sessions := sessions w; self_driver := d |}).

Definition get_self_driver : M nat := fun w => (Ok (self_driver w), w).

Definition get_hash_order : M SetOrder := fun w => (Ok (hash_order w), w).

Definition sleep (secs : nat) : M unit := emit (EvSleep secs).
Definition logging_info (m : message) : M unit := emit (EvLog INFO m).
Definition logging_warning (m : message) : M unit := emit (EvLog WARNING m).
Definition logging_error (m : message) : M unit := emit (EvLog ERROR m).
Definition print (m : message) : M unit := emit (EvPrint m).

(** The events a computation adds to the trace. *)
Definition new_events (w w' : world) : list event :=
  skipn (length (trace w)) (trace w').

End Env.
Import Env.

Declare Scope monad_scope.
Delimit Scope monad_scope with monad.
Notation "x <- m ;; k" := (bind m (fun x => k))
  (at level 61, m at next level, right associativity) : monad_scope.
Notation "' pat <- m ;; k" := (bind m (fun x => match x with pat => k end))
  (at level 61, pat pattern, m at next level, right associativity) : monad_scope.
Notation "m ;;; k" := (bind m (fun _ => k))
  (at level 61, right associativity) : monad_scope.
Open Scope monad_scope.

(* ================================================================== *)
(** ** The retry decorator                                             *)
(* ================================================================== *)

(** [web.py] decorates two methods with the [retry] of the tenacity
    library; the decorator is given here as that library documents it. *)
Module Tenacity.

(** [stop_after_attempt(n)]: stop once the attempt just made is the
    [n]-th. *)
Definition stop_after_attempt (n attempt_number : nat) : bool :=
  (n <=? attempt_number)%nat.

(** [wait_exponential(multiplier, min, max)]: the seconds to sleep after
    the attempt numbered [attempt_number] failed. *)
Definition wait_exponential (multiplier min max attempt_number : nat) : nat :=
  Nat.max min (Nat.min (multiplier * 2 ^ (attempt_number - 1)) max).

(** [@retry(stop=stop_after_attempt(3),
            wait=wait_exponential(multiplier=1, min=4, max=10))]:
    call again after any exception, sleeping in between; when the stop
    condition holds after a failure, raise [RetryError].  [fuel] bounds the
    calls; three are enough (lemma [retry_loop_fuel]). *)
Fixpoint retry_loop {A} (fuel attempt_number : nat) (f : M A) : M A :=
  match fuel with
  | O => raise RetryError
  | S fuel' =>
      r <- tried f ;;
      match r with
      | Ok a => ret a
      | Raise _ =>
          if stop_after_attempt 3 attempt_number
          then raise RetryError
          else sleep (wait_exponential 1 4 10 attempt_number) ;;;
               retry_loop fuel' (S attempt_number) f
      end
  end.

Definition retry {A} (f : M A) : M A := retry_loop 3 1 f.

End Tenacity.
Import Tenacity.

(* ================================================================== *)
(** ** Variant B: web.py, class NewsScraperSetopati                    *)
(* ================================================================== *)

Module VariantB.

(** The body of the [try] of [setup_driver] (lines 60-66). *)
Definition setup_driver_try : M unit :=
  env_call CChrome ;;;
  d <- new_session ;;
  set_self_driver d ;;;
  env_call (CSetPageLoadTimeout 300) ;;;
  ret tt.

(** The [while attempt < max_attempts] loop of [setup_driver].  [fuel]
    is the number of iterations allowed; [max_attempts - attempt] are
    enough since every iteration that does not leave the loop adds one to
    [attempt]. *)
Fixpoint setup_driver_while (fuel max_attempts attempt : nat) : M unit :=
  match fuel with
  | O => ret tt
  | S fuel' =>
      if (attempt <? max_attempts)%nat then
        r <- tried setup_driver_try ;;
        match r with
        | Ok _ => ret tt                                   (* break *)
        | Raise e =>
            let attempt := attempt + 1 in
            logging_error (MsgInitAttemptFailed attempt e) ;;;
            if (attempt =? max_attempts)%nat
            then raise (Exception_ "Failed to initialize WebDriver after multiple attempts")
            else sleep 5 ;;;
                 setup_driver_while fuel' max_attempts attempt
        end
      else ret tt
  end.

Definition setup_driver : M unit :=
  let max_attempts := 3 in
  let attempt := 0 in
  setup_driver_while (max_attempts - attempt) max_attempts attempt.

(** [self.driver.quit()] *)
Definition driver_quit : M unit :=
  d <- get_self_driver ;;
  env_call (CQuit d) ;;;
  ret tt.

(** [try: self.driver.quit()  except: pass] *)
Definition quit_quietly : M unit :=
  tried driver_quit ;;;
  ret tt.

Definition restart_driver : M unit :=
  quit_quietly ;;;
  setup_driver.

(** The [for link in links] loop of [get_article_links] (lines 98-101).
    The set is mutated in place, so what was added before an exception
    stays added: the set is returned next to the outcome. *)
Fixpoint add_links (links : list WebElement) (article_links : pyset)
    : outcome unit * pyset :=
  match links with
  | [] => (Ok tt, article_links)
  | link :: rest =>
      match href link with
      | Raise e => (Raise e, article_links)
      | Ok None => add_links rest article_links
      | Ok (Some h) =>
          if truthy (Some h) && contains "setopati.com" h
          then add_links rest (set_add h article_links)
          else add_links rest article_links
      end
  end.

(** The body of the inner [try] (lines 87-103), one scroll. *)
Definition scroll_try (article_links : pyset) : M (outcome unit * pyset) :=
  r1 <- tried (env_call (CExecuteScript "window.scrollTo(0, document.body.scrollHeight);")) ;;
  match r1 with
  | Raise e => ret (Raise e, article_links)
  | Ok _ =>
  r2 <- tried (env_call (CWaitCountAbove "a.title" (set_len article_links))) ;;
  match r2 with
  | Raise e => ret (Raise e, article_links)
  | Ok _ =>
  r3 <- tried (env_call (CFindElements "a.title")) ;;
  match r3 with
  | Raise e => ret (Raise e, article_links)
  | Ok links =>
      match add_links (r_elements links) article_links with
      | (Raise e, article_links) => ret (Raise e, article_links)
      | (Ok _, article_links) => sleep 2 ;;; ret (Ok tt, article_links)
      end
  end end end.

(** [for scroll in range(max_scrolls)] with its [except TimeoutException:
    ... continue]; any other exception leaves the loop. *)
Fixpoint scroll_for (scrolls : list nat) (article_links : pyset)
    : M (outcome unit * pyset) :=
  match scrolls with
  | [] => ret (Ok tt, article_links)
  | scroll :: rest =>
      ' (r, article_links) <- scroll_try article_links ;;
      match r with
      | Ok _ => scroll_for rest article_links
      | Raise e =>
          if is_TimeoutException e
          then logging_warning (MsgScrollTimeout (scroll + 1)) ;;;
               scroll_for rest article_links
          else ret (Raise e, article_links)
      end
  end.

(** The body of the outer [try] of [get_article_links] (lines 82-110). *)
Definition get_article_links_try (url : string) (max_scrolls : nat) : M (list string) :=
  let article_links := set_empty in
  env_call (CGet url) ;;;
  ' (r, article_links) <- scroll_for (seq 0 max_scrolls) article_links ;;
  match r with
  | Raise e => raise e
  | Ok _ =>
      logging_info (MsgCollected (set_len article_links)) ;;;
      ord <- get_hash_order ;;
      ret (list_of_set ord article_links)
  end.

(** Its [except] clauses (lines 112-118). *)
Definition get_article_links_except (e : exn) : M (list string) :=
  if is_WebDriverException e
  then logging_error (MsgLinksWebDriverError e) ;;;
       restart_driver ;;;
       raise e
  else logging_error (MsgLinksUnexpected e) ;;;
       raise e.

(** The undecorated body of [get_article_links]. *)
Definition get_article_links_body (url : string) (max_scrolls : nat) : M (list string) :=
  try_except (get_article_links_try url max_scrolls) get_article_links_except.

Definition get_article_links (url : string) (max_scrolls : nat) : M (list string) :=
  retry (get_article_links_body url max_scrolls).

(** The dictionary [scrape_article] builds. *)
Record article_data : Type := {
  url : string;
  title : string;
  date : string;
  content : string;
  category : string;
  author : string
}.

Definition wait_presence (loc : locator) : M WebElement :=
  r <- env_call (CWaitPresence loc) ;;
  ret (r_element r).

(** The body of the [try] of [scrape_article] (lines 134-165).  The
    values of the dictionary are evaluated in the order they are written:
    the content is read after the date and before the category. *)
Definition scrape_article_try (url : string) : M article_data :=
  env_call (CGet url) ;;;
  content_element <- wait_presence (ByClassName "news-content") ;;
  title_el <- wait_presence (ByCssSelector "h1.news-big-title") ;;
  title <- lift (text title_el) ;;
  date_el <- wait_presence (ByCssSelector "span.news-time") ;;
  date <- lift (text date_el) ;;
  content <- lift (text content_element) ;;
  category_el <- wait_presence (ByCssSelector "div.breadcrumb") ;;
  category <- lift (text category_el) ;;
  author <- try_except
              (author_el <- wait_presence (ByCssSelector "div.author-name") ;;
               lift (text author_el))
              (fun e => if is_TimeoutException e then ret "Unknown" else raise e) ;;
  logging_info (MsgScraped url) ;;;
  ret {| url := url; title := title; date := date; content := content;
         category := category; author := author |}.

(** The [except] clauses of [scrape_article] (lines 167-176), tried in
    order. *)
Definition scrape_article_except (url : string) (e : exn) : M article_data :=
  if is_TimeoutException e
  then logging_error (MsgArticleTimeout url e) ;;;
       raise e
  else if is_WebDriverException e
  then logging_error (MsgArticleWebDriverError url e) ;;;
       restart_driver ;;;
       raise e
  else logging_error (MsgArticleUnexpected url e) ;;;
       raise e.

(** The undecorated body of [scrape_article]. *)
Definition scrape_article_body (url : string) : M article_data :=
  try_except (scrape_article_try url) (scrape_article_except url).

Definition scrape_article (url : string) : M article_data :=
  retry (scrape_article_body url).

(** A [pandas.DataFrame] built from a list of dictionaries: its rows. *)
Definition DataFrame : Type := list article_data.

Definition df_empty (df : DataFrame) : bool :=
  match df with [] => true | _ => false end.

(** The [for url in article_links] loop of [scrape_website] (lines
    192-200).  The dictionary returned by [scrape_article] is never empty, so
    [if article_data:] always appends. *)
Fixpoint scrape_for (article_links : list string) (articles_data : list article_data)
    : M (list article_data) :=
  match article_links with
  | [] => ret articles_data
  | url :: rest =>
      r <- tried (scrape_article url) ;;
      match r with
      | Ok article_data =>
          sleep 2 ;;;
          scrape_for rest (articles_data ++ [article_data])
      | Raise e =>
          logging_error (MsgArticleFailed url e) ;;;
          scrape_for rest articles_data
      end
  end.

(** Line 184: [self.get_article_links(base_url)[:max_articles]]. *)
Definition collect_article_links (base_url : string) (max_articles : Z) : M (list string) :=
  links <- get_article_links base_url 5 ;;
  ret (slice_to max_articles links).

(** Lines 205-212: save when the frame is not empty; a failure to save is
    logged and nothing more. *)
Definition save_csv (df : DataFrame) : M unit :=
  if negb (df_empty df)
  then try_except
         (env_call (CToCsv (length df)) ;;;
          logging_info (MsgSaved (length df)))
         (fun e => logging_error (MsgCsvError e))
  else ret tt.

Definition scrape_website (base_url : string) (max_articles : Z) : M DataFrame :=
  try_finally
    (try_except
       (article_links <- collect_article_links base_url max_articles ;;
        match article_links with
        | [] =>
            logging_error MsgNoLinks ;;;
            ret []
        | _ =>
            articles_data <- scrape_for article_links [] ;;
            let df : DataFrame := articles_data in
            save_csv df ;;;
            ret df
        end)
       (fun e =>
          logging_error (MsgMainError e) ;;;
          ret []))
    quit_quietly.

(** [NewsScraperSetopati(headless)]: logging and options are set up, then
    the session is acquired. *)
Definition init (headless : bool) : M unit := setup_driver.

(** The [__main__] block. *)
Definition main : M unit :=
  try_except
    (init true ;;;
     df <- scrape_website "https://www.setopati.com" 20 ;;
     print (MsgScrapedCount (length df)))
    (fun e => print (MsgScrapingFailed e)).

End VariantB.

(* ================================================================== *)
(** ** Variant A: test.py                                              *)
(* ================================================================== *)

Module VariantA.

(** [setup_driver()]: start Chrome and return the driver. *)
Definition setup_driver : M nat :=
  env_call CChrome ;;;
  new_session.

(** [scrape_article_content(driver, url)]: [driver.get] is outside the
    [try]; whatever the [try] raises is printed and turned into [None]. *)
Definition scrape_article_content (driver : nat) (url : string) : M (option string) :=
  env_call (CGet url) ;;;
  try_except
    (sleep 2 ;;;
     page <- env_call CPageSource ;;
     let soup := BeautifulSoup (r_source page) in
     let article_section :=
       find "div" (Some "description current-news-block portrait") soup in
     match article_section with
     | None => ret None
     | Some article_section =>
         let paragraphs := find_all "p" None 0 article_section in
         let full_content := join " " (map (fun p => strip (get_text p)) paragraphs) in
         ret (Some full_content)
     end)
    (fun e =>
       print (MsgErrorLoading e) ;;;
       ret None).

(** The dictionary appended for a teaser. *)
Record teaser_data : Type := {
  title : string;
  teaser : string;
  link : string;
  content : option string
}.

(** Lines 34-36: the title tag, the teaser text and the href of one
    teaser block; [find] answers [None] when there is no such tag, and
    reading [.text] or [['href']] of [None] raises. *)
Definition teaser_fields (article : node) : outcome (node * string * string) :=
  let title_tag := find "a" None article in
  match find "p" None article with
  | None => Raise AttributeError
  | Some p =>
      let teaser := strip (get_text p) in
      match title_tag with
      | None => Raise TypeError
      | Some title_tag =>
          match getitem "href" title_tag with
          | Raise e => Raise e
          | Ok link => Ok (title_tag, teaser, link)
          end
      end
  end.

(** The body of the [try] of the loop over the teasers (lines 34-48); a
    link that starts with a slash gets the base URL in front and is
    printed, any other link is used as it is. *)
Definition scrape_teaser (base_url : string) (driver : nat) (article : node)
    : M teaser_data :=
  ' (title_tag, teaser, link) <- lift (teaser_fields article) ;;
  link <- (if startswith "/" link
           then let link := (base_url ++ link)%string in
                print (MsgLink link) ;;; ret link
           else ret link) ;;
  full_content <- scrape_article_content driver link ;;
  ret {| title := strip (get_text title_tag); teaser := teaser;
         link := link; content := full_content |}.

(** [for article in articles] with its [except Exception]. *)
Fixpoint articles_for (base_url : string) (driver : nat) (articles : list node)
    (all_articles : list teaser_data) : M (list teaser_data) :=
  match articles with
  | [] => ret all_articles
  | article :: rest =>
      r <- tried (scrape_teaser base_url driver article) ;;
      match r with
      | Ok d => articles_for base_url driver rest (all_articles ++ [d])
      | Raise e =>
          print (MsgErrorScraping e) ;;;
          articles_for base_url driver rest all_articles
      end
  end.

(** [scrape_articles(base_url, news_url, max_articles)]: the session is
    started and the listing is requested before the [try]; the [finally]
    quits the driver. *)
Definition scrape_articles (base_url news_url : string) (max_articles : nat)
    : M (list teaser_data) :=
  driver <- setup_driver ;;
  env_call (CGet news_url) ;;;
  let all_articles := [] in
  try_finally
    (sleep 2 ;;;
     page <- env_call CPageSource ;;
     let soup := BeautifulSoup (r_source page) in
     let articles := find_all "div" (Some "teaser offset") max_articles soup in
     articles_for base_url driver articles all_articles)
    (env_call (CQuit driver) ;;; ret tt).

End VariantA.

(* ================================================================== *)
(** ** Reading traces                                                  *)
(* ================================================================== *)

Module Reading.

Definition is_quit (e : event) : bool :=
  match e with EvCall (CQuit _) _ => true | _ => false end.

(** A session restart is announced by the WebDriver-error log entry of
    the function that restarts (web.py 113 and 171). *)
Definition is_restart_log (e : event) : bool :=
  match e with
  | EvLog ERROR (MsgLinksWebDriverError _) => true
  | EvLog ERROR (MsgArticleWebDriverError _ _) => true
  | _ => false
  end.

Definition count (p : event -> bool) (d : list event) : nat :=
  length (filter p d).

(** The URLs handed to [driver.get], in order. *)
Definition requested (d : list event) : list string :=
  flat_map (fun e => match e with EvCall (CGet u) _ => [u] | _ => [] end) d.

(** The four waits of [scrape_article] whose element must be there. *)
Definition required (loc : locator) : Prop :=
  loc = ByClassName "news-content" \/
  loc = ByCssSelector "h1.news-big-title" \/
  loc = ByCssSelector "span.news-time" \/
  loc = ByCssSelector "div.breadcrumb".

(** The wait for [loc] ran out of time. *)
Definition timed_out (loc : locator) : event :=
  EvCall (CWaitPresence loc) (Some TimeoutException).

(** Answers to build oracles from: nothing special, an exception, an
    element with its text and document node, links with the given [href]
    attributes ([None]: no attribute), a page. *)
Definition no_node : node := NText "".
Definition no_element : WebElement :=
  {| text := Ok ""; href := Ok None; dom := no_node |}.
Definition quiet : response :=
  {| r_raise := None; r_element := no_element; r_elements := []; r_source := no_node |}.
Definition raises (e : exn) : response :=
  {| r_raise := Some e; r_element := no_element; r_elements := []; r_source := no_node |}.
Definition element (t : string) (n : node) : response :=
  {| r_raise := None;
     r_element := {| text := Ok t; href := Ok None; dom := n |};
     r_elements := []; r_source := no_node |}.
Definition links_with (hrefs : list (option string)) : response :=
  {| r_raise := None; r_element := no_element;
     r_elements := map (fun h => {| text := Ok ""; href := Ok h; dom := no_node |}) hrefs;
     r_source := no_node |}.
Definition page (n : node) : response :=
  {| r_raise := None; r_element := no_element; r_elements := []; r_source := n |}.

Definition start (o : nat -> call -> response) (ord : SetOrder) : world :=
  {| oracle := o; clock := 0; trace := []; hash_order := ord;
     sessions := 0; self_driver := 0 |}.

(** A property of trace segments that the empty segment has and that
    concatenation keeps. *)
Class Additive (P : list event -> Prop) : Prop := {
  additive_nil : P [];
  additive_app : forall d1 d2, P d1 -> P d2 -> P (d1 ++ d2)
}.

(** From [w] to [w']: the oracle and the set order are the same, and the
    trace has grown by a segment satisfying [P]. *)
Definition evolves (P : list event -> Prop) (w w' : world) : Prop :=
  oracle w' = oracle w /\
  hash_order w' = hash_order w /\
  exists d, trace w' = trace w ++ d /\ P d.

(** Every run of [m] evolves the world that way. *)
Definition respects {A} (P : list event -> Prop) (m : M A) : Prop :=
  forall w, evolves P w (snd (m w)).

(** Segments made of events satisfying [p] only. *)
Definition only (p : event -> bool) (d : list event) : Prop :=
  Forall (fun e => p e = true) d.

(** Segments in which every [driver.quit] belongs to a restart. *)
Definition quits_are_restarts (d : list event) : Prop :=
  count is_quit d = count is_restart_log d.

(** No constraint on the segment. *)
Definition anything (d : list event) : Prop := True.

(** The events of [setup_driver]. *)
Definition is_startup (e : event) : bool :=
  match e with
  | EvCall CChrome _ => true
  | EvCall (CSetPageLoadTimeout _) _ => true
  | EvLog ERROR (MsgInitAttemptFailed _ _) => true
  | EvSleep _ => true
  | _ => false
  end.

(** The events of [restart_driver]. *)
Definition is_restart (e : event) : bool := is_quit e || is_startup e.

Definition not_quit (e : event) : bool := negb (is_quit e).

(** The test of web.py line 100 on a link that is there. *)
Definition on_domain (u : string) : Prop := contains "setopati.com" u = true.

(** What is kept of a set of links: no link twice, every link passing
    the test. *)
Definition links_ok (s : list string) : Prop :=
  NoDup s /\ Forall on_domain s.

(** Variant A: the URL that is fetched for a teaser whose link is
    [href], and the world once the link has been printed (only a link that
    was completed is printed). *)
Definition target (base_url href : string) : string :=
  if startswith "/" href then (base_url ++ href)%string else href.

Definition announced (base_url href : string) (w : world) : world :=
  if startswith "/" href
  then append_event (EvPrint (MsgLink (base_url ++ href)%string)) w
  else w.

(** Variant A: the links of the teaser blocks whose three fields can be
    read, in order. *)
Definition readable_hrefs (articles : list node) : list string :=
  flat_map (fun article =>
              match VariantA.teaser_fields article with
              | Ok (_, _, href) => [href]
              | Raise _ => []
              end) articles.

(** The words of the specification of the body text, on their own:
    the paragraph-level nodes inside a container, a string trimmed of
    leading and trailing whitespace, and strings joined by single spaces. *)
Definition is_paragraph (n : node) : bool :=
  match n with
  | NTag name _ _ _ => String.eqb name "p"
  | NText _ => false
  | NString _ _ => false
  end.

Definition paragraphs_inside (container : node) : list node :=
  filter is_paragraph (descendants container).

(** A single white-space character. *)
Definition space_char (c : string) : Prop := after_space c = Some EmptyString.

(** White-space characters one after the other. *)
Inductive all_space : string -> Prop :=
| all_space_nil : all_space EmptyString
| all_space_app c l : space_char c -> all_space l -> all_space (c ++ l)%string.

(** [t] neither starts nor ends with a white-space character. *)
Definition clean_ends (t : string) : Prop :=
  forall c, space_char c ->
    (forall rest, t <> (c ++ rest)%string) /\
    (forall front, t <> (front ++ c)%string).

(** [t] is [s] without its leading and trailing whitespace. *)
Definition is_trim_of (s t : string) : Prop :=
  exists l r, s = (l ++ t ++ r)%string /\
              all_space l /\ all_space r /\ clean_ends t.

Definition joined_by_single_spaces (parts : list string) : string :=
  match parts with
  | [] => EmptyString
  | p :: rest => fold_left (fun acc q => (acc ++ " " ++ q)%string) rest p
  end.

(** Variant A: the designated content container of an article page. *)
Definition article_section (soup : node) : option node :=
  find "div" (Some "description current-news-block portrait") soup.

(** "Teardown is invoked exactly once" read on the trace of a run. *)
Definition torn_down_exactly_once (d : list event) : Prop :=
  count is_quit d = 1.

(** The shapes of the trace of [setup_driver]: a pass through its [try]
    that fails with [e], a pass that succeeds, and what follows a failed
    pass that is not the last. *)
Inductive failed_start : exn -> list event -> Prop :=
| chrome_failed e : failed_start e [EvCall CChrome (Some e)]
| page_load_timeout_failed e :
    failed_start e [EvCall CChrome None; EvCall (CSetPageLoadTimeout 300) (Some e)].

Definition started : list event :=
  [EvCall CChrome None; EvCall (CSetPageLoadTimeout 300) None].

Definition backoff (n : nat) (e : exn) : list event :=
  [EvLog ERROR (MsgInitAttemptFailed n e); EvSleep 5].

Definition init_failure : exn :=
  Exception_ "Failed to initialize WebDriver after multiple attempts".

End Reading.
Import Reading.

(* ================================================================== *)
(** ** Concrete runs                                                   *)
(* ================================================================== *)

Module Scenario.

(** Variant B, one link on the listing; the first [driver.get] of the
    article (the 19th call of the run) fails with a WebDriver error, and
    everything else answers normally. *)
Definition one_crash : nat -> call -> response :=
  fun t c =>
    match c with
    | CFindElements _ => links_with [Some "https://www.setopati.com/politics/1"]
    | CGet _ => if (t =? 18)%nat then raises WebDriverException else quiet
    | _ => quiet
    end.

(** The session starts and no page can be loaded: every [driver.get]
    fails (the listing, in either variant). *)
Definition listing_down : nat -> call -> response :=
  fun t c =>
    match c with
    | CGet _ => raises WebDriverException
    | _ => quiet
    end.

(** Variant A, an empty listing page that loads. *)
Definition empty_listing : nat -> call -> response := fun _ _ => quiet.

(** Variant B, a listing that shows one article after the first scroll and
    a second one from the second scroll on, next to a link without href, an
    empty href, a link to another site and a repeated link. *)
Definition growing_listing : nat -> call -> response :=
  fun t c =>
    match c with
    | CFindElements _ =>
        if (t <? 4)%nat
        then links_with [Some "https://www.setopati.com/politics/1"; None;
                         Some "https://www.setopati.com/politics/1"]
        else links_with [Some "https://www.setopati.com/politics/1"; Some "";
                         Some "https://example.org/ad";
                         Some "https://www.setopati.com/social/2"]
    | _ => quiet
    end.

(** A teaser block of the listing of variant A. *)
Definition teaser_block (link headline summary : string) : node :=
  NTag "div" ["teaser"; "offset"] []
    [NTag "h2" [] [] [NTag "a" [] [("href", link)] [NText headline]];
     NTag "p" [] [] [NText summary]].

Definition listing_of (blocks : list node) : node :=
  NTag "html" [] [] [NTag "body" [] [] blocks].

(** Variant A, a listing whose two teasers link to the same page of
    another site; the listing is the third call of the run. *)
Definition same_story_twice : nat -> call -> response :=
  fun t c =>
    match c with
    | CPageSource =>
        if (t =? 2)%nat
        then page (listing_of
                     [teaser_block "https://other.example/story" "Story" " first ";
                      teaser_block "https://other.example/story" "Story" "again"])
        else quiet
    | _ => quiet
    end.

(** Variant B, an article page on which the element named by [missing]
    never appears; the other elements are there, with some text. *)
Definition article_without (missing : locator) : nat -> call -> response :=
  fun t c =>
    match c with
    | CWaitPresence loc =>
        match loc, missing with
        | ByClassName a, ByClassName b
        | ByCssSelector a, ByCssSelector b =>
            if String.eqb a b then raises TimeoutException
            else element "text" no_node
        | _, _ => element "text" no_node
        end
    | _ => quiet
    end.

(** Variant A, a listing with one teaser whose link is relative; the
    article is reached but reading its page fails (the fifth call of the
    run). *)
Definition unreadable_article : nat -> call -> response :=
  fun t c =>
    match c with
    | CPageSource =>
        if (t =? 2)%nat
        then page (listing_of [teaser_block "/news/1" "Story" "Summary"])
        else raises WebDriverException
    | _ => quiet
    end.

(** Variant A, the same listing; the article cannot be reached. *)
Definition unreachable_article : nat -> call -> response :=
  fun t c =>
    match c with
    | CPageSource => page (listing_of [teaser_block "/news/1" "Story" "Summary"])
    | CGet _ => if (t =? 1)%nat then quiet else raises WebDriverException
    | _ => quiet
    end.

(** Variant B, an article whose content container holds its text
    directly, with no paragraph inside; the browser reports that text for
    the container. *)
Definition plain_container : node :=
  NTag "div" ["news-content"] [] [NText "Breaking news"].

Definition plain_article : nat -> call -> response :=
  fun t c =>
    match c with
    | CWaitPresence (ByClassName _) => element "Breaking news" plain_container
    | CWaitPresence (ByCssSelector _) => element "text" no_node
    | _ => quiet
    end.

(** Variant A, an article page with two paragraphs in its container, and
    an article page without container; both are read by the second call. *)
Definition two_paragraphs : node :=
  listing_of
    [NTag "div" ["description"; "current-news-block"; "portrait"] []
       [NTag "p" [] [] [NText "  First paragraph. "];
        NTag "span" [] [] [NText "not a paragraph"];
        NTag "p" [] [] [NText "Second "; NTag "b" [] [] [NText "one"]; NText "."]]].

Definition article_page (n : node) : nat -> call -> response :=
  fun t c =>
    match c with
    | CPageSource => page n
    | _ => quiet
    end.

(** Variant A, an article page in which the container is missing. *)
Definition no_container : node :=
  listing_of [NTag "div" ["sidebar"] [] [NTag "p" [] [] [NText "Elsewhere"]]].

End Scenario.

(* ================================================================== *)
(** ** Pages and further readings of the trace                         *)
(* ================================================================== *)

Module Observed.




(** The test of web.py line 100 on what [get_attribute] returned. *)
Definition qualifies (el : WebElement) (h : string) : Prop :=
  href el = Ok (Some h) /\ h <> EmptyString /\ contains "setopati.com" h = true.

Definition is_failure_log (e : event) : bool :=
  match e with
  | EvLog ERROR (MsgArticleFailed _ _) => true
  | _ => false
  end.

Definition is_print (e : event) : bool :=
  match e with EvPrint _ => true | _ => false end.

(** Session start, restart and the sleeps of the retry decorator. *)
Definition is_lifecycle (e : event) : bool :=
  match e with
  | EvCall CChrome _ => true
  | EvCall (CSetPageLoadTimeout _) _ => true
  | EvCall (CQuit _) _ => true
  | EvLog ERROR (MsgInitAttemptFailed _ _) => true
  | EvSleep _ => true
  | _ => false
  end.

(** Everything a call of [scrape_article url] can add to the trace. *)
Definition of_scrape_article (url : string) (e : event) : bool :=
  is_lifecycle e ||
  match e with
  | EvCall (CGet u) _ => String.eqb u url
  | EvCall (CWaitPresence _) _ => true
  | EvLog INFO (MsgScraped u) => String.eqb u url
  | EvLog ERROR (MsgArticleTimeout u _) => String.eqb u url
  | EvLog ERROR (MsgArticleWebDriverError u _) => String.eqb u url
  | EvLog ERROR (MsgArticleUnexpected u _) => String.eqb u url
  | _ => false
  end.

(** Everything a call of [get_article_links url] can add to the trace. *)
Definition of_get_article_links (url : string) (e : event) : bool :=
  is_lifecycle e ||
  match e with
  | EvCall (CGet u) _ => String.eqb u url
  | EvCall (CExecuteScript _) _ => true
  | EvCall (CWaitCountAbove css _) _ => String.eqb css "a.title"
  | EvCall (CFindElements css) _ => String.eqb css "a.title"
  | EvLog WARNING (MsgScrollTimeout _) => true
  | EvLog INFO (MsgCollected _) => true
  | EvLog ERROR (MsgLinksWebDriverError _) => true
  | EvLog ERROR (MsgLinksUnexpected _) => true
  | _ => false
  end.

Definition is_get (e : event) : bool :=
  match e with EvCall (CGet _) _ => true | _ => false end.

Definition not_get (e : event) : bool := negb (is_get e).

Definition not_print (e : event) : bool := negb (is_print e).

(** [l1] is [l2] with some entries left out. *)
Inductive subsequence {A : Type} : list A -> list A -> Prop :=
| subsequence_nil : subsequence [] []
| subsequence_skip x l1 l2 : subsequence l1 l2 -> subsequence l1 (x :: l2)
| subsequence_keep x l1 l2 : subsequence l1 l2 -> subsequence (x :: l1) (x :: l2).

(** The world in which the [try] of [scrape_articles] starts, once the
    session is started and the listing requested. *)
Definition listing_requested (news_url : string) (w : world) : world :=
  tick (append_event (EvCall (CGet news_url) None)
    (snd (new_session (tick (append_event (EvCall CChrome None) w))))).

(** The [try] block of [scrape_articles] (lines 25-59). *)
Definition listing_try (base_url : string) (max_articles : nat) (driver : nat)
    : M (list VariantA.teaser_data) :=
  sleep 2 ;;;
  page <- env_call CPageSource ;;
  VariantA.articles_for base_url driver
    (find_all "div" (Some "teaser offset") max_articles (r_page page)) [].

(** Variant A: the line printed for a teaser that is given up
    (test.py 50). *)
Definition is_skip_print (e : event) : bool :=
  match e with EvPrint (MsgErrorScraping _) => true | _ => false end.

Definition not_skip_print (e : event) : bool := negb (is_skip_print e).

(** The links of the records of an outcome. *)
Definition fmap_links (r : outcome (list VariantA.teaser_data)) : outcome (list string) :=
  match r with
  | Ok records => Ok (map VariantA.link records)
  | Raise e => Raise e
  end.

(** The worlds in which the decorated function [f] is called when
    [retry f] runs from [w]: [w] itself, then, after each of the first two
    calls that fails, the world that call left, four seconds later. *)
Definition attempt_starts {A} (f : M A) (w : world) : list world :=
  w :: match f w with
       | (Ok _, _) => []
       | (Raise _, w1) =>
           append_event (EvSleep 4) w1 ::
           match f (append_event (EvSleep 4) w1) with
           | (Ok _, _) => []
           | (Raise _, w2) => [append_event (EvSleep 4) w2]
           end
       end.

(** The run was reported as failed: the main block of web.py printed
    its "Scraping failed" line. *)
Definition reported_failure (d : list event) : Prop :=
  exists e, In (EvPrint (MsgScrapingFailed e)) d.

Definition is_call (e : event) : bool :=
  match e with EvCall _ _ => true | _ => false end.

(** From [w] to [w']: the oracle is the same, the trace has grown, and
    the clock has advanced by one for every call added to the trace. *)
Definition in_time (w w' : world) : Prop :=
  oracle w' = oracle w /\
  exists d, trace w' = trace w ++ d /\ clock w' = clock w + count is_call d.

Definition keeps_time {A} (m : M A) : Prop :=
  forall w, in_time w (snd (m w)).

(** The calls of a trace segment that starts at time [t], each with what
    the oracle answered to it. *)
Fixpoint answers (o : nat -> call -> response) (t : nat) (d : list event)
    : list (call * response) :=
  match d with
  | [] => []
  | EvCall c _ :: d' => (c, o t c) :: answers o (S t) d'
  | _ :: d' => answers o t d'
  end.

(** [el] is one of the elements that a [find_elements(css)] call made
    between [w] and [w'] returned. *)
Definition listed (css : string) (w w' : world) (el : WebElement) : Prop :=
  exists r,
    In (CFindElements css, r) (answers (oracle w) (clock w) (new_events w w')) /\
    r_raise r = None /\
    In el (r_elements r).

End Observed.
Import Observed.

(* ================================================================== *)
(** ** Further concrete runs                                           *)
(* ================================================================== *)

Module Case.

(** Variant B, the listing loads and the browser crashes on the first
    script. *)
Definition crash_while_scrolling : nat -> call -> response :=
  fun t c =>
    match c with
    | CExecuteScript _ => raises WebDriverException
    | _ => quiet
    end.

(** Variant B, the listing loads and never grows: every wait for more
    links times out. *)
Definition listing_never_grows : nat -> call -> response :=
  fun t c =>
    match c with
    | CWaitCountAbove _ _ => raises TimeoutException
    | _ => quiet
    end.

(** Variant B, the first session starts but its page-load timeout cannot
    be set (the second call of the run); the second start goes through. *)
Definition timeout_setting_fails_once : nat -> call -> response :=
  fun t c =>
    match c with
    | CSetPageLoadTimeout _ =>
        if (t =? 1)%nat then raises WebDriverException else quiet
    | _ => quiet
    end.

(** A browser that answers every [quit] with an exception. *)
Definition quit_fails : nat -> call -> response :=
  fun t c =>
    match c with
    | CQuit _ => raises WebDriverException
    | _ => quiet
    end.


(** Variant B, five articles of which the third cannot be loaded: every
    load of it times out. *)
Definition five_links : list string :=
  ["https://www.setopati.com/a/1"; "https://www.setopati.com/a/2";
   "https://www.setopati.com/a/3"; "https://www.setopati.com/a/4";
   "https://www.setopati.com/a/5"].

Definition third_article_down : nat -> call -> response :=
  fun t c =>
    match c with
    | CGet u =>
        if String.eqb u "https://www.setopati.com/a/3"
        then raises TimeoutException else quiet
    | CFindElements _ => links_with (map Some five_links)
    | _ => quiet
    end.

(** Variant B, a run in which the file cannot be written. *)
Definition disk_full : nat -> call -> response :=
  fun t c =>
    match c with
    | CToCsv _ => raises (Exception_ "No space left on device")
    | CFindElements _ => links_with [Some "https://www.setopati.com/a/1"]
    | _ => quiet
    end.

(** Variant A, teaser blocks with a part missing: no paragraph, no link
    tag, a link tag without href. *)
Definition block_without_paragraph : node :=
  NTag "div" ["teaser"; "offset"] []
    [NTag "h2" [] [] [NTag "a" [] [("href", "/news/1")] [NText "Story"]]].

Definition block_without_link : node :=
  NTag "div" ["teaser"; "offset"] [] [NTag "p" [] [] [NText "Summary"]].

Definition block_without_href : node :=
  NTag "div" ["teaser"; "offset"] []
    [NTag "a" [] [("title", "Story")] [NText "Story"];
     NTag "p" [] [] [NText "Summary"]].

(** Variant A, a listing of three teasers: one complete, one without
    paragraph, one complete whose page cannot be requested (the third
    [get] of the run is the sixth call). *)
Definition mixed_listing : nat -> call -> response :=
  fun t c =>
    match c with
    | CPageSource =>
        if (t =? 2)%nat
        then page (Scenario.listing_of
                     [Scenario.teaser_block "/news/1" "One" "First";
                      block_without_paragraph;
                      Scenario.teaser_block "/news/3" "Three" "Third"])
        else quiet
    | CGet u =>
        if String.eqb u "https://ekantipur.com/news/3"
        then raises WebDriverException else quiet
    | _ => quiet
    end.

(** Variant A, a listing page that is reached but whose source cannot
    be read. *)
Definition listing_unreadable : nat -> call -> response :=
  fun t c =>
    match c with
    | CPageSource => raises WebDriverException
    | _ => quiet
    end.

(** Variant A, an article page whose container holds text but no
    paragraph. *)
Definition bare_container : node :=
  NTag "div" ["description"; "current-news-block"; "portrait"] []
    [NTag "span" [] [] [NText "Text outside any paragraph"]].

Definition bare_container_page : node := Scenario.listing_of [bare_container].

(** Variant B, a browser that cannot be started again: the session of
    the constructor starts (the first call of the run) and every later start
    fails.  The listing shows one article; the first request of that article
    (the nineteenth call) meets a WebDriver error, later requests go
    through. *)
Definition browser_gone : nat -> call -> response :=
  fun t c =>
    match c with
    | CChrome => if (t =? 0)%nat then quiet else raises WebDriverException
    | CFindElements _ => links_with [Some "https://www.setopati.com/a/1"]
    | CGet _ => if (t =? 18)%nat then raises WebDriverException else quiet
    | CWaitPresence _ => element "text" no_node
    | _ => quiet
    end.

(** Variant B, a listing of two articles; the date of the first one
    never appears. *)
Definition first_article_undated : nat -> call -> response :=
  fun t c =>
    match c with
    | CFindElements _ =>
        links_with [Some "https://www.setopati.com/a/1";
                    Some "https://www.setopati.com/a/2"]
    | CWaitPresence (ByCssSelector "span.news-time") =>
        if (t <? 30)%nat then raises TimeoutException
        else element "text" no_node
    | CWaitPresence _ => element "text" no_node
    | _ => quiet
    end.

(** Variant A, an article page whose paragraphs are padded with
    no-break spaces (U+00A0) and an ideographic space (U+3000) and hold a
    script, a style sheet and a comment next to their text. *)
Definition no_break_space : string :=
  String (ascii_of_nat 194) (String (ascii_of_nat 160) EmptyString).

Definition ideographic_space : string :=
  String (ascii_of_nat 227)
    (String (ascii_of_nat 128) (String (ascii_of_nat 128) EmptyString)).

Definition padded_paragraphs : node :=
  Scenario.listing_of
    [NTag "div" ["description"; "current-news-block"; "portrait"] []
       [NTag "p" [] []
          [NText (no_break_space ++ " First" ++ ideographic_space)%string;
           NTag "script" [] [] [NText "track();"];
           NString Comment "advertisement"];
        NTag "p" [] []
          [NTag "style" [] [] [NText "p { margin: 0 }"];
           NText ("second." ++ no_break_space)%string]]].

End Case.

(* ================================================================== *)
(** ** Facts about the environment monad                               *)
(* ================================================================== *)

Lemma new_events_app (w w' : world) (d : list event) :
  trace w' = trace w ++ d -> new_events w w' = d.
Proof.
  unfold new_events. intros ->.
  rewrite skipn_app, skipn_all, Nat.sub_diag. reflexivity.
Qed.

Lemma count_app (p : event -> bool) (d1 d2 : list event) :
  count p (d1 ++ d2) = count p d1 + count p d2.
Proof. unfold count. now rewrite filter_app, length_app. Qed.

Lemma requested_app (d1 d2 : list event) :
  requested (d1 ++ d2) = requested d1 ++ requested d2.
Proof. unfold requested. apply flat_map_app. Qed.

Lemma bind_run A B (m : M A) (k : A -> M B) (w : world) :
  bind m k w =
  match m w with
  | (Ok a, w') => k a w'
  | (Raise e, w') => (Raise e, w')
  end.
Proof. reflexivity. Qed.

Lemma env_call_ok (c : call) (w : world) :
  r_raise (oracle w (clock w) c) = None ->
  env_call c w = (Ok (oracle w (clock w) c), tick (append_event (EvCall c None) w)).
Proof. intros H. unfold env_call. rewrite H. reflexivity. Qed.

Lemma env_call_raise (c : call) (w : world) (e : exn) :
  r_raise (oracle w (clock w) c) = Some e ->
  env_call c w = (Raise e, tick (append_event (EvCall c (Some e)) w)).
Proof. intros H. unfold env_call. rewrite H. reflexivity. Qed.

#[export] Instance only_additive (p : event -> bool) : Additive (only p).
Proof.
  split.
  - constructor.
  - intros d1 d2 H1 H2. apply Forall_app. now split.
Qed.

#[export] Instance quits_are_restarts_additive : Additive quits_are_restarts.
Proof.
  split.
  - reflexivity.
  - unfold quits_are_restarts. intros d1 d2 H1 H2.
    rewrite !count_app. lia.
Qed.

Lemma evolves_refl P `{Additive P} (w : world) : evolves P w w.
Proof.
  repeat split. exists []. rewrite app_nil_r. split; [reflexivity | apply additive_nil].
Qed.

Lemma evolves_trans P `{Additive P} (w1 w2 w3 : world) :
  evolves P w1 w2 -> evolves P w2 w3 -> evolves P w1 w3.
Proof.
  intros (Ho1 & Hh1 & d1 & Ht1 & Hp1) (Ho2 & Hh2 & d2 & Ht2 & Hp2).
  repeat split; try congruence.
  exists (d1 ++ d2). split.
  - rewrite Ht2, Ht1, app_assoc. reflexivity.
  - now apply additive_app.
Qed.

Lemma evolves_weaken (P Q : list event -> Prop) (w w' : world) :
  (forall d, P d -> Q d) -> evolves P w w' -> evolves Q w w'.
Proof.
  intros HPQ (Ho & Hh & d & Ht & Hp). repeat split; auto.
  exists d. auto.
Qed.

Section Respects.

Context (P : list event -> Prop) `{HP : Additive P}.

Lemma respects_ret A (a : A) : respects P (ret a).
Proof. intros w. apply evolves_refl; auto. Qed.

Lemma respects_raise A (e : exn) : respects P (@raise A e).
Proof. intros w. apply evolves_refl; auto. Qed.

Lemma respects_lift A (o : outcome A) : respects P (lift o).
Proof. intros w. apply evolves_refl; auto. Qed.

Lemma respects_get_self_driver : respects P get_self_driver.
Proof. intros w. apply evolves_refl; auto. Qed.

Lemma respects_get_hash_order : respects P get_hash_order.
Proof. intros w. apply evolves_refl; auto. Qed.

Lemma respects_new_session : respects P new_session.
Proof.
  intros w. cbn. repeat split. exists []. rewrite app_nil_r.
  split; [reflexivity | apply additive_nil].
Qed.

Lemma respects_set_self_driver (d : nat) : respects P (set_self_driver d).
Proof.
  intros w. cbn. repeat split. exists []. rewrite app_nil_r.
  split; [reflexivity | apply additive_nil].
Qed.

Lemma respects_emit (e : event) : P [e] -> respects P (emit e).
Proof. intros He w. cbn. repeat split. exists [e]. auto. Qed.

Lemma respects_env_call (c : call) :
  (forall q, P [EvCall c q]) -> respects P (env_call c).
Proof.
  intros Hc w. unfold env_call.
  destruct (r_raise (oracle w (clock w) c)) eqn:E; cbn;
    repeat split; eexists; (split; [reflexivity | apply Hc]).
Qed.

Lemma respects_bind A B (m : M A) (k : A -> M B) :
  respects P m -> (forall a, respects P (k a)) -> respects P (bind m k).
Proof.
  intros Hm Hk w. unfold bind. specialize (Hm w).
  destruct (m w) as [[a | e] w1]; cbn in *; auto.
  eapply evolves_trans; eauto. apply Hk.
Qed.

Lemma respects_tried A (m : M A) : respects P m -> respects P (tried m).
Proof.
  intros Hm w. unfold tried. specialize (Hm w).
  destruct (m w) as [r w1]; cbn in *; auto.
Qed.

Lemma respects_try_except A (m : M A) (h : exn -> M A) :
  respects P m -> (forall e, respects P (h e)) -> respects P (try_except m h).
Proof.
  intros Hm Hh w. unfold try_except. specialize (Hm w).
  destruct (m w) as [[a | e] w1]; cbn in *; auto.
  eapply evolves_trans; eauto. apply Hh.
Qed.

Lemma respects_try_finally A (m : M A) (fin : M unit) :
  respects P m -> respects P fin -> respects P (try_finally m fin).
Proof.
  intros Hm Hf w. unfold try_finally. specialize (Hm w).
  destruct (m w) as [r w1]; cbn in *.
  specialize (Hf w1). destruct (fin w1) as [[u | e] w2]; cbn in *;
    eapply evolves_trans; eauto.
Qed.

End Respects.

Lemma respects_weaken A (P Q : list event -> Prop) (m : M A) :
  (forall d, P d -> Q d) -> respects P m -> respects Q m.
Proof. intros HPQ Hm w. eapply evolves_weaken; eauto. Qed.

(** Decompose a goal [respects P m] along the structure of [m]; what is
    left are the events emitted and the calls made. *)
Ltac respects_step :=
  match goal with
  | |- Additive _ => exact _
  | |- forall _, _ => intros ?
  | |- respects _ _ =>
      first
        [ assumption
        | match goal with H : forall _, respects _ _ |- _ => apply H end
        | apply respects_ret
        | apply respects_raise
        | apply respects_lift
        | apply respects_get_self_driver
        | apply respects_get_hash_order
        | apply respects_new_session
        | apply respects_set_self_driver
        | apply respects_bind
        | apply respects_tried
        | apply respects_try_except
        | apply respects_try_finally
        | apply respects_emit
        | apply respects_env_call
        | match goal with
          | |- respects _ (match ?x with _ => _ end) => destruct x
          end ]
  end.

Ltac respects_go :=
  unfold sleep, logging_info, logging_warning, logging_error, print;
  repeat respects_step.

#[export] Instance anything_additive : Additive anything.
Proof. split; intros; exact I. Qed.

Lemma only_weaken (p q : event -> bool) (d : list event) :
  (forall e, p e = true -> q e = true) -> only p d -> only q d.
Proof. intros H. apply Forall_impl. exact H. Qed.

Lemma only_count_zero (p q : event -> bool) (d : list event) :
  (forall e, p e = true -> q e = false) -> only p d -> count q d = 0.
Proof.
  intros H Hd. unfold count. induction Hd as [| e d He _ IH]; [reflexivity|].
  cbn. rewrite (H e He). exact IH.
Qed.

Lemma only_not_in (p : event -> bool) (d : list event) (e : event) :
  p e = false -> only p d -> ~ In e d.
Proof.
  intros He Hd Hin. unfold only in Hd. rewrite Forall_forall in Hd.
  specialize (Hd e Hin). congruence.
Qed.

Ltac only_leaf := constructor; [reflexivity | constructor].

(* ------------------------------------------------------------------ *)
(** *** Session start and restart                                      *)
(* ------------------------------------------------------------------ *)

Ltac oracle_step :=
  match goal with
  | |- context [r_raise (oracle ?w ?t ?c)] =>
      let E := fresh "E" in destruct (r_raise (oracle w t c)) eqn:E; cbn
  end.

Lemma setup_driver_try_spec (w : world) :
  exists r w' a,
    VariantB.setup_driver_try w = (r, w') /\
    trace w' = trace w ++ a /\
    ((r = Ok tt /\ a = started) \/ (exists e, r = Raise e /\ failed_start e a)).
Proof.
  unfold VariantB.setup_driver_try, bind, env_call, new_session, set_self_driver, ret.
  cbn. repeat oracle_step.
  all: do 3 eexists; (split; [reflexivity|]); cbn; rewrite <- ?app_assoc; cbn;
    (split; [reflexivity|]);
    first [ left; split; reflexivity
          | right; eexists; split; [reflexivity | constructor] ].
Qed.

Lemma setup_driver_while_step (fuel max_attempts attempt : nat) (w : world) :
  (attempt <? max_attempts)%nat = true ->
  VariantB.setup_driver_while (S fuel) max_attempts attempt w =
  match VariantB.setup_driver_try w with
  | (Ok _, w1) => (Ok tt, w1)
  | (Raise e, w1) =>
      let w2 := snd (logging_error (MsgInitAttemptFailed (attempt + 1) e) w1) in
      if (attempt + 1 =? max_attempts)%nat
      then (Raise init_failure, w2)
      else VariantB.setup_driver_while fuel max_attempts (attempt + 1) (snd (sleep 5 w2))
  end.
Proof.
  intros H. cbn [VariantB.setup_driver_while]. rewrite H.
  unfold bind, tried. destruct (VariantB.setup_driver_try w) as [[u | e] w1]; [reflexivity|].
  cbn. destruct (attempt + 1 =? max_attempts)%nat; reflexivity.
Qed.

(** More fuel than [max_attempts - attempt] changes nothing: the loop of
    [setup_driver] is run to its end. *)
Lemma setup_driver_while_fuel (max_attempts : nat) :
  forall fuel attempt extra w,
    max_attempts - attempt <= fuel ->
    VariantB.setup_driver_while (fuel + extra) max_attempts attempt w =
    VariantB.setup_driver_while fuel max_attempts attempt w.
Proof.
  induction fuel as [| fuel IH]; intros attempt extra w Hle.
  - assert (Hge : (attempt <? max_attempts)%nat = false) by (apply Nat.ltb_ge; lia).
    destruct extra; cbn [Nat.add VariantB.setup_driver_while]; [reflexivity|].
    rewrite Hge. reflexivity.
  - cbn [Nat.add].
    destruct (attempt <? max_attempts)%nat eqn:Hlt.
    + rewrite !setup_driver_while_step by assumption.
      destruct (VariantB.setup_driver_try w) as [[u | e] w1]; [reflexivity|].
      cbv zeta. destruct (attempt + 1 =? max_attempts)%nat; [reflexivity|].
      apply IH. apply Nat.ltb_lt in Hlt. lia.
    + cbn [VariantB.setup_driver_while]. rewrite Hlt. reflexivity.
Qed.

Lemma quit_quietly_run (w : world) :
  VariantB.quit_quietly w =
  (Ok tt,
   tick (append_event
           (EvCall (CQuit (self_driver w))
              (r_raise (oracle w (clock w) (CQuit (self_driver w))))) w)).
Proof.
  unfold VariantB.quit_quietly, VariantB.driver_quit, bind, tried,
    get_self_driver, env_call, ret.
  destruct (r_raise (oracle w (clock w) (CQuit (self_driver w)))); reflexivity.
Qed.

Lemma setup_driver_try_startup : respects (only is_startup) VariantB.setup_driver_try.
Proof. unfold VariantB.setup_driver_try. respects_go; only_leaf. Qed.

Lemma setup_driver_while_startup (fuel max_attempts attempt : nat) :
  respects (only is_startup) (VariantB.setup_driver_while fuel max_attempts attempt).
Proof.
  revert attempt. induction fuel as [| fuel IH]; intros attempt; cbn.
  - respects_go.
  - pose proof setup_driver_try_startup.
    respects_go; only_leaf.
Qed.

Lemma setup_driver_startup : respects (only is_startup) VariantB.setup_driver.
Proof. apply setup_driver_while_startup. Qed.

Lemma quit_quietly_restart : respects (only is_restart) VariantB.quit_quietly.
Proof.
  unfold VariantB.quit_quietly, VariantB.driver_quit. respects_go; only_leaf.
Qed.

Lemma restart_driver_restart : respects (only is_restart) VariantB.restart_driver.
Proof.
  unfold VariantB.restart_driver.
  pose proof quit_quietly_restart.
  respects_go; only_leaf.
Qed.

(** A restart is one [quit] followed by the events of a session start. *)
Lemma restart_driver_shape (w : world) :
  exists q d,
    trace (snd (VariantB.restart_driver w)) =
      trace w ++ EvCall (CQuit (self_driver w)) q :: d /\
    only is_startup d /\
    oracle (snd (VariantB.restart_driver w)) = oracle w /\
    hash_order (snd (VariantB.restart_driver w)) = hash_order w.
Proof.
  unfold VariantB.restart_driver. rewrite bind_run, quit_quietly_run.
  match goal with |- context [VariantB.setup_driver ?w0] =>
    destruct (setup_driver_startup w0) as (Ho & Hh & d & Ht & Hd)
  end.
  exists (r_raise (oracle w (clock w) (CQuit (self_driver w)))), d.
  cbn in *. rewrite Ht, <- app_assoc. auto.
Qed.

(* ------------------------------------------------------------------ *)
(** *** The retry decorator                                            *)
(* ------------------------------------------------------------------ *)

Lemma retry_loop_respects A (P : list event -> Prop) `{Additive P} (f : M A) :
  respects P f -> (forall s, P [EvSleep s]) ->
  forall fuel n, respects P (retry_loop fuel n f).
Proof.
  intros Hf Hs. induction fuel as [| fuel IH]; intros n; cbn.
  - respects_go.
  - respects_go. apply Hs.
Qed.

Lemma retry_respects A (P : list event -> Prop) `{Additive P} (f : M A) :
  respects P f -> (forall s, P [EvSleep s]) -> respects P (retry f).
Proof. intros. now apply retry_loop_respects. Qed.

(** The decorated function raises nothing but [RetryError]. *)
Lemma retry_loop_raises A (f : M A) :
  forall fuel n w e, fst (retry_loop fuel n f w) = Raise e -> e = RetryError.
Proof.
  induction fuel as [| fuel IH]; intros n w e; cbn [retry_loop].
  - unfold raise. cbn. intros Hx; inversion Hx; reflexivity.
  - unfold bind, tried. destruct (f w) as [[a | e0] w1]; cbn [fst]; [discriminate|].
    destruct (stop_after_attempt 3 n).
    + unfold raise. cbn. intros Hx; inversion Hx; reflexivity.
    + unfold sleep, emit. apply IH.
Qed.

Lemma retry_raises A (f : M A) (w : world) (e : exn) :
  fst (retry f w) = Raise e -> e = RetryError.
Proof. apply retry_loop_raises. Qed.

(** Three units of fuel are all the decorator uses. *)
Lemma retry_loop_fuel A (f : M A) (extra : nat) (w : world) :
  retry_loop (3 + extra) 1 f w = retry_loop 3 1 f w.
Proof.
  cbn. unfold bind, tried, sleep, emit.
  destruct (f w) as [[a | e1] w1]; cbn; [reflexivity|].
  match goal with |- context [f ?w0] => destruct (f w0) as [[a | e2] w2] end;
    cbn; [reflexivity|].
  match goal with |- context [f ?w0] => destruct (f w0) as [[a | e3] w3] end;
    cbn; reflexivity.
Qed.

(** A value returned by the decorated function is the value of one call
    of the function, made in a world with the same oracle and set order. *)
Lemma retry_loop_ok A (f : M A) :
  respects anything f ->
  forall fuel n w a w',
    retry_loop fuel n f w = (Ok a, w') ->
    exists w1, oracle w1 = oracle w /\ hash_order w1 = hash_order w /\
               f w1 = (Ok a, w').
Proof.
  intros Hf. induction fuel as [| fuel IH]; intros n w a w'; cbn [retry_loop].
  - discriminate.
  - unfold bind, tried. pose proof (Hf w) as (Ho & Hh & _).
    destruct (f w) as [[a0 | e0] w1] eqn:E; cbn [fst snd] in *.
    + unfold ret. intros Hx; inversion Hx; subst. exists w. auto.
    + destruct (stop_after_attempt 3 n); [discriminate|].
      unfold sleep, emit. intros Hr. apply IH in Hr.
      destruct Hr as (w2 & Ho2 & Hh2 & Hr).
      exists w2. cbn in *. repeat split; congruence.
Qed.

Lemma retry_ok A (f : M A) (w : world) (a : A) (w' : world) :
  respects anything f ->
  retry f w = (Ok a, w') ->
  exists w1, oracle w1 = oracle w /\ hash_order w1 = hash_order w /\
             f w1 = (Ok a, w').
Proof. intros Hf. apply retry_loop_ok. exact Hf. Qed.

(** The decorator, call by call. *)
Lemma retry_unrolled A (f : M A) (w : world) :
  retry f w =
  match f w with
  | (Ok a, w1) => (Ok a, w1)
  | (Raise _, w1) =>
      match f (append_event (EvSleep 4) w1) with
      | (Ok a, w2) => (Ok a, w2)
      | (Raise _, w2) =>
          match f (append_event (EvSleep 4) w2) with
          | (Ok a, w3) => (Ok a, w3)
          | (Raise _, w3) => (Raise RetryError, w3)
          end
      end
  end.
Proof.
  unfold retry. cbn [retry_loop]. unfold bind, tried, sleep, emit, ret, raise.
  destruct (f w) as [[a | e1] w1]; [reflexivity |]. cbn.
  destruct (f (append_event (EvSleep 4) w1)) as [[a | e2] w2]; [reflexivity |]. cbn.
  destruct (f (append_event (EvSleep 4) w2)) as [[a | e3] w3]; reflexivity.
Qed.

(** If every call fails whatever the world, as long as the oracle is the
    same, the decorated function gives up with [RetryError]. *)
Lemma retry_all_fail A (f : M A) (w : world) :
  respects anything f ->
  (forall w1, oracle w1 = oracle w -> exists e, fst (f w1) = Raise e) ->
  fst (retry f w) = Raise RetryError.
Proof.
  intros Hf Hfail. unfold retry. cbn. unfold bind, tried, sleep, emit.
  pose proof (Hfail w eq_refl) as (e1 & E1). pose proof (Hf w) as (Ho1 & _).
  destruct (f w) as [[a | ?] w1]; cbn in *; [discriminate|].
  match goal with |- context [f ?w0] =>
    pose proof (Hfail w0 Ho1) as (e2 & E2); pose proof (Hf w0) as (Ho2 & _);
    destruct (f w0) as [[a | ?] w2] end; cbn in *; [discriminate|].
  match goal with |- context [f ?w0] =>
    pose proof (Hfail w0 (eq_trans Ho2 Ho1)) as (e3 & E3);
    destruct (f w0) as [[a | ?] w3] end; cbn in *; [discriminate|].
  reflexivity.
Qed.

(* ------------------------------------------------------------------ *)
(** *** Variant B: every quit before the last belongs to a restart     *)
(* ------------------------------------------------------------------ *)

Lemma startup_quits_are_restarts (d : list event) :
  only is_startup d -> quits_are_restarts d.
Proof.
  intros Hd. unfold quits_are_restarts.
  rewrite (@only_count_zero is_startup is_quit d); auto.
  - rewrite (@only_count_zero is_startup is_restart_log d); auto.
    intros [[] | | [] [] |]; cbn; congruence.
  - intros [[] | | [] [] |]; cbn; congruence.
Qed.

(** The log entry of a WebDriver error and the restart that follows it
    add one restart and one quit. *)
Lemma restart_after_log A (ev : event) (k : M A) :
  is_restart_log ev = true ->
  respects quits_are_restarts k ->
  respects quits_are_restarts (emit ev ;;; VariantB.restart_driver ;;; k).
Proof.
  intros Hev Hk w. unfold bind at 1. unfold emit at 1.
  set (w0 := append_event ev w).
  assert (Hrest : evolves quits_are_restarts w (snd (VariantB.restart_driver w0))).
  { destruct (restart_driver_shape w0) as (q & d & Ht & Hd & Ho & Hh).
    repeat split; [exact Ho | exact Hh |].
    exists (ev :: EvCall (CQuit (self_driver w0)) q :: d). split.
    - rewrite Ht. cbn. rewrite <- app_assoc. reflexivity.
    - apply startup_quits_are_restarts in Hd. unfold quits_are_restarts in *.
      unfold count in *. cbn. rewrite Hev.
      destruct ev; try discriminate. cbn. lia. }
  unfold bind. destruct (VariantB.restart_driver w0) as [[u | e] w1]; cbn in *; auto.
  eapply evolves_trans; [exact _ | exact Hrest | apply Hk].
Qed.

Ltac quits_go := respects_go; try reflexivity.

Lemma scroll_try_quits (article_links : pyset) :
  respects quits_are_restarts (VariantB.scroll_try article_links).
Proof.
  unfold VariantB.scroll_try.
  quits_go.
Qed.

Lemma scroll_for_quits (scrolls : list nat) :
  forall article_links,
    respects quits_are_restarts (VariantB.scroll_for scrolls article_links).
Proof.
  induction scrolls as [| scroll rest IH]; intros article_links; cbn.
  - quits_go.
  - pose proof (scroll_try_quits article_links). quits_go.
Qed.

Lemma get_article_links_body_quits (url : string) (max_scrolls : nat) :
  respects quits_are_restarts (VariantB.get_article_links_body url max_scrolls).
Proof.
  unfold VariantB.get_article_links_body.
  apply respects_try_except; [exact _ | |].
  - unfold VariantB.get_article_links_try.
    pose proof (scroll_for_quits (seq 0 max_scrolls) set_empty). quits_go.
  - intros e. unfold VariantB.get_article_links_except.
    destruct (is_WebDriverException e).
    + apply restart_after_log; [reflexivity | quits_go].
    + quits_go.
Qed.

Lemma get_article_links_quits (url : string) (max_scrolls : nat) :
  respects quits_are_restarts (VariantB.get_article_links url max_scrolls).
Proof.
  apply retry_respects; [exact _ | apply get_article_links_body_quits | reflexivity].
Qed.

Lemma scrape_article_body_quits (url : string) :
  respects quits_are_restarts (VariantB.scrape_article_body url).
Proof.
  unfold VariantB.scrape_article_body.
  apply respects_try_except; [exact _ | |].
  - unfold VariantB.scrape_article_try, VariantB.wait_presence. quits_go.
  - intros e. unfold VariantB.scrape_article_except.
    destruct (is_TimeoutException e); [quits_go|].
    destruct (is_WebDriverException e).
    + apply restart_after_log; [reflexivity | quits_go].
    + quits_go.
Qed.

Lemma scrape_article_quits (url : string) :
  respects quits_are_restarts (VariantB.scrape_article url).
Proof.
  apply retry_respects; [exact _ | apply scrape_article_body_quits | reflexivity].
Qed.

Lemma scrape_for_quits (article_links : list string) :
  forall articles_data,
    respects quits_are_restarts (VariantB.scrape_for article_links articles_data).
Proof.
  induction article_links as [| url rest IH]; intros articles_data; cbn.
  - quits_go.
  - pose proof (scrape_article_quits url). quits_go.
Qed.

Lemma collect_article_links_quits (base_url : string) (max_articles : Z) :
  respects quits_are_restarts (VariantB.collect_article_links base_url max_articles).
Proof.
  unfold VariantB.collect_article_links.
  pose proof (get_article_links_quits base_url 5). quits_go.
Qed.

Lemma save_csv_quits (df : VariantB.DataFrame) :
  respects quits_are_restarts (VariantB.save_csv df).
Proof. unfold VariantB.save_csv. destruct (negb _); quits_go. Qed.

Lemma anything_of A (P : list event -> Prop) (m : M A) :
  respects P m -> respects anything m.
Proof. apply respects_weaken. intros; exact I. Qed.

Lemma scrape_website_shape (base_url : string) (max_articles : Z) (w : world) :
  exists df d q,
    fst (VariantB.scrape_website base_url max_articles w) = Ok df /\
    trace (snd (VariantB.scrape_website base_url max_articles w)) =
      trace w ++ d ++
      [EvCall (CQuit (self_driver (snd (VariantB.scrape_website base_url max_articles w)))) q] /\
    quits_are_restarts d.
Proof.
  unfold VariantB.scrape_website, try_finally.
  match goal with |- context [try_except ?m ?h w] =>
    assert (Hb : respects quits_are_restarts (try_except m h));
    [ | assert (Hok : exists df, fst (try_except m h w) = Ok df);
        [ | specialize (Hb w); destruct (try_except m h w) as [r w1] ] ]
  end.
  - apply respects_try_except; [exact _ | |].
    + pose proof (collect_article_links_quits base_url max_articles).
      apply respects_bind; [exact _ | assumption |].
      intros [| u l]; [quits_go|].
      pose proof (scrape_for_quits (u :: l) []).
      apply respects_bind; [exact _ | assumption |].
      intros df. pose proof (save_csv_quits df). quits_go.
    + intros e. quits_go.
  - unfold try_except.
    destruct (bind _ _ w) as [[df | e] w1]; cbn; eauto.
  - destruct Hok as (df & Hok). cbn in Hok. subst r.
    destruct Hb as (_ & _ & d & Ht & Hd). cbn in Ht.
    rewrite quit_quietly_run. cbn.
    exists df, d, (r_raise (oracle w1 (clock w1) (CQuit (self_driver w1)))).
    rewrite Ht, <- app_assoc; auto.
Qed.

(* ------------------------------------------------------------------ *)
(** *** Variant A: the loop over the teasers never quits               *)
(* ------------------------------------------------------------------ *)

Lemma scrape_article_content_no_quit (driver : nat) (url : string) :
  respects (only not_quit) (VariantA.scrape_article_content driver url).
Proof. unfold VariantA.scrape_article_content. respects_go; only_leaf. Qed.

Lemma scrape_teaser_no_quit (base_url : string) (driver : nat) (article : node) :
  respects (only not_quit) (VariantA.scrape_teaser base_url driver article).
Proof.
  unfold VariantA.scrape_teaser.
  apply respects_bind; [exact _ | respects_go |].
  intros [[title_tag teaser] link].
  apply respects_bind; [exact _ | respects_go; only_leaf |].
  intros link'. pose proof (scrape_article_content_no_quit driver link').
  respects_go.
Qed.

Lemma articles_for_no_quit (base_url : string) (driver : nat) (articles : list node) :
  forall all_articles,
    respects (only not_quit) (VariantA.articles_for base_url driver articles all_articles).
Proof.
  induction articles as [| article rest IH]; intros all_articles; cbn.
  - respects_go.
  - pose proof (scrape_teaser_no_quit base_url driver article).
    respects_go; only_leaf.
Qed.

(** Variant A after a listing that loads: the loop, then one quit. *)
Lemma scrape_articles_shape base_url news_url max_articles w :
      r_raise (oracle w (clock w) CChrome) = None ->
      r_raise (oracle w (S (clock w)) (CGet news_url)) = None ->
      exists d q,
        trace (snd (VariantA.scrape_articles base_url news_url max_articles w)) =
          trace w ++ [EvCall CChrome None; EvCall (CGet news_url) None] ++ d ++
          [EvCall (CQuit (S (sessions w))) q] /\
        count is_quit d = 0.
Proof.
  intros H1 H2.
  unfold VariantA.scrape_articles, VariantA.setup_driver.
  rewrite bind_run, bind_run, env_call_ok by exact H1.
  unfold new_session at 1. cbv beta iota.
  rewrite bind_run, env_call_ok by exact H2.
  unfold try_finally.
  match goal with |- context [bind ?m ?k ?w0] =>
    assert (Hb : respects (only not_quit) (bind m k));
    [ | specialize (Hb w0); destruct (bind m k w0) as [r w1] ]
  end.
  { apply respects_bind; [exact _ | respects_go; only_leaf |]. intros _.
    apply respects_bind; [exact _ | respects_go; only_leaf |]. intros page.
    apply articles_for_no_quit. }
  destruct Hb as (_ & _ & d & Ht & Hd). cbn in Ht.
  exists d, (r_raise (oracle w1 (clock w1) (CQuit (S (sessions w))))).
  split.
  - unfold bind, env_call, ret. cbn.
    destruct (r_raise (oracle w1 (clock w1) (CQuit (S (sessions w))))); cbn;
      rewrite Ht, <- !app_assoc; reflexivity.
  - apply (@only_count_zero not_quit is_quit d); auto.
    intros e. unfold not_quit. destruct (is_quit e); cbn; congruence.
Qed.
(* ------------------------------------------------------------------ *)
(** *** Variant B: the set of collected links                          *)
(* ------------------------------------------------------------------ *)

Lemma set_mem_In (x : string) (s : pyset) : set_mem x s = true <-> In x s.
Proof.
  unfold set_mem. rewrite existsb_exists. split.
  - intros (y & Hy & E). apply String.eqb_eq in E. now subst.
  - intros H. exists x. split; [exact H | apply String.eqb_refl].
Qed.

Lemma set_add_ok (x : string) (s : pyset) :
  on_domain x -> links_ok s -> links_ok (set_add x s).
Proof.
  intros Hx [Hn Hf]. unfold set_add.
  destruct (set_mem x s) eqn:E; [split; assumption|].
  split.
  - apply NoDup_app; [exact Hn | constructor; [intros [] | constructor] |].
    intros y Hy [<- | []]. apply set_mem_In in Hy. congruence.
  - apply Forall_app. split; [exact Hf | constructor; [exact Hx | constructor]].
Qed.

(** The set only grows, at its end: what was discovered earlier stays in
    front. *)
Lemma set_add_extends (x : string) (s : pyset) :
  exists new, set_add x s = s ++ new.
Proof.
  unfold set_add. destruct (set_mem x s).
  - exists []. now rewrite app_nil_r.
  - now exists [x].
Qed.

Lemma add_links_ok (links : list WebElement) :
  forall s, links_ok s -> links_ok (snd (VariantB.add_links links s)).
Proof.
  induction links as [| link rest IH]; intros s Hs; cbn [VariantB.add_links].
  - exact Hs.
  - destruct (href link) as [[h |] | e]; cbn [snd]; auto.
    destruct (truthy (Some h) && contains "setopati.com" h) eqn:E; auto.
    apply IH. apply set_add_ok; [| exact Hs].
    apply andb_true_iff in E. apply E.
Qed.

Lemma add_links_extends (links : list WebElement) :
  forall s, exists new, snd (VariantB.add_links links s) = s ++ new.
Proof.
  induction links as [| link rest IH]; intros s; cbn [VariantB.add_links].
  - exists []. now rewrite app_nil_r.
  - destruct (href link) as [[h |] | e]; cbn [snd]; auto.
    + destruct (truthy (Some h) && contains "setopati.com" h); auto.
      destruct (set_add_extends h s) as (n1 & ->).
      destruct (IH (s ++ n1)) as (n2 & ->).
      exists (n1 ++ n2). now rewrite app_assoc.
    + exists []. now rewrite app_nil_r.
Qed.

(** One scroll: the set keeps its invariant and only grows at its end. *)
Lemma scroll_try_ok (s : pyset) (w : world) :
  links_ok s ->
  exists r s' w',
    VariantB.scroll_try s w = (Ok (r, s'), w') /\ links_ok s' /\
    exists new, s' = s ++ new.
Proof.
  intros Hs. unfold VariantB.scroll_try.
  assert (Hsame : exists new, s = s ++ new) by (exists []; now rewrite app_nil_r).
  rewrite bind_run. unfold tried at 1.
  destruct (env_call _ w) as [[r1 | e1] w1]; cbn [fst snd]; [| unfold ret; eauto 6].
  rewrite bind_run. unfold tried at 1.
  destruct (env_call _ w1) as [[r2 | e2] w2]; cbn [fst snd]; [| unfold ret; eauto 6].
  rewrite bind_run. unfold tried at 1.
  destruct (env_call _ w2) as [[r3 | e3] w3]; cbn [fst snd]; [| unfold ret; eauto 6].
  pose proof (add_links_ok (r_elements r3) Hs) as Ha.
  pose proof (add_links_extends (r_elements r3) s) as He.
  destruct (VariantB.add_links (r_elements r3) s) as [[u | e] s']; cbn in Ha, He;
    unfold bind, sleep, emit, ret; eauto 6.
Qed.

(** The scroll loop: the set it returns satisfies the invariant and lists
    the links in the order of their first discovery (what was there stays in
    front). *)
Lemma scroll_for_ok (scrolls : list nat) :
  forall s w,
    links_ok s ->
    exists r s' w',
      VariantB.scroll_for scrolls s w = (Ok (r, s'), w') /\ links_ok s' /\
      exists new, s' = s ++ new.
Proof.
  induction scrolls as [| scroll rest IH]; intros s w Hs; cbn [VariantB.scroll_for].
  - unfold ret. exists (Ok tt), s, w. repeat split; try apply Hs.
    exists []. now rewrite app_nil_r.
  - rewrite bind_run.
    destruct (scroll_try_ok w Hs) as (r & s1 & w1 & E & Hs1 & (n1 & Hn1)). rewrite E.
    assert (Hnext : forall w2,
               exists r' s' w',
                 VariantB.scroll_for rest s1 w2 = (Ok (r', s'), w') /\ links_ok s' /\
                 exists new, s' = s ++ new).
    { intros w2. destruct (IH s1 w2 Hs1) as (r' & s' & w' & E' & Hs' & (n2 & Hn2)).
      exists r', s', w'. repeat split; try apply Hs'; try exact E'.
      exists (n1 ++ n2). rewrite Hn2, Hn1. now rewrite app_assoc. }
    destruct r as [u | e].
    + apply Hnext.
    + destruct (is_TimeoutException e).
      * unfold bind, logging_warning, emit. apply Hnext.
      * unfold ret. exists (Raise e), s1, w1. repeat split; try apply Hs1. eauto.
Qed.

(** A list returned by the body of [get_article_links] enumerates, in the
    set order of the run, the set accumulated by the scroll loop. *)
Lemma get_article_links_body_ok (url : string) (max_scrolls : nat)
    (w : world) (links : list string) (w' : world) :
  VariantB.get_article_links_body url max_scrolls w = (Ok links, w') ->
  exists w1 w2 acc,
    VariantB.scroll_for (seq 0 max_scrolls) set_empty w1 = (Ok (Ok tt, acc), w2) /\
    links_ok acc /\
    links = list_of_set (hash_order w) acc.
Proof.
  unfold VariantB.get_article_links_body, try_except,
    VariantB.get_article_links_try, VariantB.get_article_links_except.
  rewrite bind_run.
  destruct (env_call (CGet url) w) as [[r0 | e0] w0] eqn:E0.
  - assert (Hh0 : hash_order w0 = hash_order w).
    { pose proof (f_equal snd E0) as Hw. cbn in Hw. subst w0.
      unfold env_call. destruct (r_raise _); reflexivity. }
    rewrite bind_run.
    assert (Hempty : links_ok set_empty) by (split; constructor).
    destruct (scroll_for_ok (seq 0 max_scrolls) w0 Hempty) as (r & acc & w2 & E & Hacc & _).
    rewrite E.
    pose proof (scroll_for_quits (seq 0 max_scrolls) set_empty w0) as (_ & Hh2 & _).
    rewrite E in Hh2. cbn in Hh2.
    destruct r as [[] | e].
    + unfold bind, logging_info, emit, get_hash_order, ret. cbn.
      intros Hx. inversion Hx; subst. exists w0, w2, acc.
      repeat split; try apply Hacc; try assumption. congruence.
    + unfold raise.
      destruct (is_WebDriverException e).
      * unfold bind, logging_error, emit, raise.
        destruct (VariantB.restart_driver _) as [[u | e1] w3]; discriminate.
      * unfold bind, logging_error, emit, raise. discriminate.
  - destruct (is_WebDriverException e0).
    + unfold bind, logging_error, emit, raise.
      destruct (VariantB.restart_driver _) as [[u | e1] w3]; discriminate.
    + unfold bind, logging_error, emit, raise. discriminate.
Qed.

Lemma get_article_links_ok (url : string) (max_scrolls : nat)
    (w : world) (links : list string) (w' : world) :
  VariantB.get_article_links url max_scrolls w = (Ok links, w') ->
  exists w1 w2 acc,
    VariantB.scroll_for (seq 0 max_scrolls) set_empty w1 = (Ok (Ok tt, acc), w2) /\
    links_ok acc /\
    links = list_of_set (hash_order w) acc.
Proof.
  intros H. apply retry_ok in H.
  - destruct H as (w0 & _ & Hh & H).
    apply get_article_links_body_ok in H.
    destruct H as (w1 & w2 & acc & E & Hacc & ->).
    exists w1, w2, acc. rewrite Hh. auto.
  - eapply anything_of. apply get_article_links_body_quits.
Qed.

(** A value returned by the decorated function is the value of one of
    its calls, the last one; that call ends the run. *)
Lemma retry_ok_attempt A (f : M A) (w : world) (a : A) (w' : world) :
  retry f w = (Ok a, w') ->
  exists w0, In w0 (attempt_starts f w) /\ f w0 = (Ok a, w').
Proof.
  rewrite retry_unrolled. unfold attempt_starts.
  destruct (f w) as [[a1 | e1] w1] eqn:E1.
  { intros H. exists w. split; [now left | congruence]. }
  destruct (f (append_event (EvSleep 4) w1)) as [[a2 | e2] w2] eqn:E2.
  { intros H. exists (append_event (EvSleep 4) w1).
    split; [right; now left | congruence]. }
  destruct (f (append_event (EvSleep 4) w2)) as [[a3 | e3] w3] eqn:E3;
    [| discriminate].
  intros H. exists (append_event (EvSleep 4) w2).
  split; [right; right; now left | congruence].
Qed.

Lemma attempt_starts_hash_order A (f : M A) (w w0 : world) :
  respects anything f ->
  In w0 (attempt_starts f w) -> hash_order w0 = hash_order w.
Proof.
  intros Hf. unfold attempt_starts.
  pose proof (Hf w) as (_ & Hh1 & _).
  destruct (f w) as [[a1 | e1] w1]; cbn [snd] in Hh1.
  { intros [<- | []]. reflexivity. }
  pose proof (Hf (append_event (EvSleep 4) w1)) as (_ & Hh2 & _).
  destruct (f (append_event (EvSleep 4) w1)) as [[a2 | e2] w2]; cbn [snd] in Hh2.
  { intros [<- | [<- | []]]; [reflexivity | exact Hh1]. }
  intros [<- | [<- | [<- | []]]]; [reflexivity | exact Hh1 |].
  cbn in *. congruence.
Qed.

(** A pass through [get_article_links] that returns: the listing was
    loaded, the scroll loop ran to its end, and the list is the set it
    accumulated, enumerated. *)
Lemma get_article_links_body_returns (url : string) (max_scrolls : nat)
    (w : world) (links : list string) (w' : world) :
  VariantB.get_article_links_body url max_scrolls w = (Ok links, w') ->
  let scrolled :=
    VariantB.scroll_for (seq 0 max_scrolls) set_empty (snd (env_call (CGet url) w)) in
  exists discovered,
    r_raise (oracle w (clock w) (CGet url)) = None /\
    fst scrolled = Ok (Ok tt, discovered) /\
    w' = append_event (EvLog INFO (MsgCollected (set_len discovered))) (snd scrolled) /\
    links_ok discovered /\
    links = list_of_set (hash_order w) discovered.
Proof.
  unfold VariantB.get_article_links_body, try_except,
    VariantB.get_article_links_try, VariantB.get_article_links_except.
  rewrite bind_run. cbv zeta.
  destruct (r_raise (oracle w (clock w) (CGet url))) as [e0 |] eqn:E0.
  { erewrite env_call_raise by exact E0.
    destruct (is_WebDriverException e0).
    + unfold bind, logging_error, emit, raise.
      destruct (VariantB.restart_driver _) as [[u | e1] w3]; discriminate.
    + unfold bind, logging_error, emit, raise. discriminate. }
  rewrite env_call_ok by exact E0. cbn [snd].
  set (w0 := tick (append_event (EvCall (CGet url) None) w)).
  rewrite bind_run.
  assert (Hempty : links_ok set_empty) by (split; constructor).
  destruct (scroll_for_ok (seq 0 max_scrolls) w0 Hempty) as (r & acc & w2 & E & Hacc & _).
  rewrite E.
  pose proof (scroll_for_quits (seq 0 max_scrolls) set_empty w0) as (_ & Hh2 & _).
  rewrite E in Hh2. cbn in Hh2.
  destruct r as [[] | e].
  - unfold bind, logging_info, emit, get_hash_order, ret. cbn.
    intros Hx. inversion Hx; subst. exists acc.
    repeat split; try apply Hacc. congruence.
  - unfold raise.
    destruct (is_WebDriverException e).
    + unfold bind, logging_error, emit, raise.
      destruct (VariantB.restart_driver _) as [[u | e1] w3]; discriminate.
    + unfold bind, logging_error, emit, raise. discriminate.
Qed.

Lemma list_of_set_ok (ord : SetOrder) (acc : pyset) :
  links_ok acc -> links_ok (list_of_set ord acc).
Proof.
  intros [Hn Hf]. unfold list_of_set. pose proof (iter_order_perm ord acc) as Hp.
  split.
  - eapply Permutation_NoDup; eassumption.
  - eapply Permutation_Forall; eassumption.
Qed.

Lemma firstn_NoDup A (n : nat) (l : list A) : NoDup l -> NoDup (firstn n l).
Proof.
  intros H. rewrite <- (firstn_skipn n l) in H.
  eapply NoDup_app_remove_r. exact H.
Qed.

Lemma firstn_incl A (n : nat) (l : list A) : incl (firstn n l) l.
Proof.
  intros x Hx. rewrite <- (firstn_skipn n l). apply in_or_app. now left.
Qed.

(* ------------------------------------------------------------------ *)
(** *** Strings                                                        *)
(* ------------------------------------------------------------------ *)

Lemma startswith_spec (p s : string) :
  startswith p s = true <-> exists post, s = (p ++ post)%string.
Proof.
  revert s. induction p as [| a p IH]; intros s; cbn.
  - split; [intros _; now exists s | reflexivity].
  - destruct s as [| b s]; cbn.
    + split; [discriminate | intros (post & H); discriminate].
    + rewrite andb_true_iff, Ascii.eqb_eq, IH. split.
      * intros (-> & post & ->). now exists post.
      * intros (post & H). inversion H; subst. split; [reflexivity | now exists post].
Qed.

(** [contains sub s] holds exactly when [sub] is a substring of [s]. *)
Lemma contains_spec (sub s : string) :
  contains sub s = true <-> exists pre post, s = (pre ++ sub ++ post)%string.
Proof.
  induction s as [| c s IH].
  - cbn [contains]. rewrite orb_false_r, startswith_spec. split.
    + intros (post & H). now exists EmptyString, post.
    + intros (pre & post & H). destruct pre; cbn in H.
      * now exists post.
      * discriminate.
  - cbn [contains]. rewrite orb_true_iff, startswith_spec, IH. split.
    + intros [(post & H) | (pre & post & H)].
      * now exists EmptyString, post.
      * exists (String c pre), post. cbn. now rewrite H.
    + intros (pre & post & H). destruct pre as [| c' pre]; cbn in H.
      * left. now exists post.
      * right. inversion H; subst. now exists pre, post.
Qed.

(* ------------------------------------------------------------------ *)
(** *** Variant B: waits that time out                                 *)
(* ------------------------------------------------------------------ *)

Lemma skipn_length_app A (l d : list A) : skipn (length l) (l ++ d) = d.
Proof. rewrite skipn_app, skipn_all, Nat.sub_diag. reflexivity. Qed.

Ltac split_path :=
  match goal with
  | |- context [r_raise (oracle ?w ?t ?c)] =>
      let E := fresh "E" in destruct (r_raise (oracle w t c)) eqn:E; cbn
  | |- context [text ?el] =>
      let E := fresh "T" in destruct (text el) eqn:E; cbn
  | |- context [is_TimeoutException ?e] =>
      let E := fresh "I" in destruct (is_TimeoutException e) eqn:E; cbn
  end.

Lemma scrape_article_try_timeout (url : string) (loc : locator) (w : world) :
  required loc ->
  In (timed_out loc) (new_events w (snd (VariantB.scrape_article_try url w))) ->
  fst (VariantB.scrape_article_try url w) = Raise TimeoutException.
Proof.
  intros Hreq.
  unfold VariantB.scrape_article_try, VariantB.wait_presence, bind, env_call, lift,
    try_except, ret, raise, logging_info, emit, new_events, timed_out.
  cbn. repeat split_path.
  all: rewrite <- ?app_assoc, skipn_length_app; cbn [app In].
  all: intros Hin; repeat (destruct Hin as [Hin | Hin]); try discriminate; try contradiction.
  all: try (inversion Hin; subst; reflexivity).
  all: inversion Hin; subst; destruct Hreq as [H | [H | [H | H]]]; discriminate.
Qed.

(** The [except] clauses always re-raise (or raise the failure of the
    restart). *)
Lemma scrape_article_except_raises (url : string) (e : exn) (w : world) :
  exists e', fst (VariantB.scrape_article_except url e w) = Raise e' /\
             (is_TimeoutException e = true -> e' = e).
Proof.
  unfold VariantB.scrape_article_except.
  destruct (is_TimeoutException e).
  - exists e. split; [reflexivity | auto].
  - destruct (is_WebDriverException e).
    + unfold bind, logging_error, emit, raise.
      destruct (VariantB.restart_driver _) as [[u | e1] w1]; cbn; eexists;
        (split; [reflexivity | discriminate]).
    + exists e. split; [reflexivity | discriminate].
Qed.

(** The events of the [except] clauses: a log entry, and a restart. *)
Lemma scrape_article_except_events (url : string) (e : exn) :
  respects (only (fun ev => is_restart ev || match ev with EvLog _ _ => true | _ => false end))
    (VariantB.scrape_article_except url e).
Proof.
  unfold VariantB.scrape_article_except.
  assert (Hr : respects (only (fun ev => is_restart ev ||
                                 match ev with EvLog _ _ => true | _ => false end))
                 VariantB.restart_driver).
  { eapply respects_weaken; [| apply restart_driver_restart].
    intros d. apply only_weaken. intros ev ->. reflexivity. }
  destruct (is_TimeoutException e); [respects_go; only_leaf |].
  destruct (is_WebDriverException e); respects_go; only_leaf.
Qed.

Lemma scrape_article_body_timeout (url : string) (loc : locator) (w : world) :
  required loc ->
  In (timed_out loc) (new_events w (snd (VariantB.scrape_article_body url w))) ->
  fst (VariantB.scrape_article_body url w) = Raise TimeoutException.
Proof.
  intros Hreq. unfold VariantB.scrape_article_body, try_except.
  pose proof (@scrape_article_try_timeout url loc w Hreq) as Htry.
  assert (Hext : exists d, trace (snd (VariantB.scrape_article_try url w)) = trace w ++ d).
  { assert (Hq : respects anything (VariantB.scrape_article_try url)).
    { unfold VariantB.scrape_article_try, VariantB.wait_presence.
      respects_go; exact I. }
    destruct (Hq w) as (_ & _ & d & Hd & _). eauto. }
  destruct Hext as (d1 & Hd1).
  rewrite (@new_events_app _ _ _ Hd1) in Htry.
  destruct (VariantB.scrape_article_try url w) as [[a | e] w1]; cbn [fst snd] in *.
  - rewrite (@new_events_app _ _ _ Hd1). exact Htry.
  - destruct (scrape_article_except_raises url e w1) as (e' & He' & Hsame).
    destruct (scrape_article_except_events url e w1) as (_ & _ & d2 & Hd2 & Hd2').
    destruct (VariantB.scrape_article_except url e w1) as [r w2]; cbn [fst snd] in *.
    subst r. rewrite Hd1, <- app_assoc in Hd2.
    rewrite (@new_events_app _ _ _ Hd2). intros Hin.
    apply in_app_or in Hin. destruct Hin as [Hin | Hin].
    + apply Htry in Hin. inversion Hin; subst. now rewrite Hsame.
    + exfalso. revert Hin. eapply only_not_in; [| exact Hd2']. reflexivity.
Qed.

(** When the wait for a required element times out whenever it is made,
    no attempt gets through. *)
Lemma scrape_article_try_stuck (url : string) (loc : locator) (w : world) :
  required loc ->
  (forall t, r_raise (oracle w t (CWaitPresence loc)) = Some TimeoutException) ->
  exists e, fst (VariantB.scrape_article_try url w) = Raise e.
Proof.
  intros Hreq Hstuck.
  unfold VariantB.scrape_article_try, VariantB.wait_presence, bind, env_call, lift,
    try_except, ret, raise, logging_info, emit.
  cbn. repeat split_path.
  all: try (eexists; reflexivity).
  all: exfalso; destruct Hreq as [H | [H | [H | H]]]; subst loc;
    match goal with
    | E : r_raise (oracle _ _ (CWaitPresence _)) = None |- _ =>
        (rewrite Hstuck in E; discriminate)
    end.
Qed.

Lemma scrape_article_stuck (url : string) (loc : locator) (w : world) :
  required loc ->
  (forall t, r_raise (oracle w t (CWaitPresence loc)) = Some TimeoutException) ->
  fst (VariantB.scrape_article url w) = Raise RetryError.
Proof.
  intros Hreq Hstuck. apply retry_all_fail.
  - eapply anything_of. apply scrape_article_body_quits.
  - intros w1 Ho. unfold VariantB.scrape_article_body, try_except.
    destruct (@scrape_article_try_stuck url loc w1 Hreq) as (e & He).
    { intros t. rewrite Ho. apply Hstuck. }
    destruct (VariantB.scrape_article_try url w1) as [[a | e0] w2]; cbn in He;
      [discriminate |].
    destruct (scrape_article_except_raises url e0 w2) as (e' & He' & _). eauto.
Qed.
(* ------------------------------------------------------------------ *)
(** *** Variant B: the records of a batch                              *)
(* ------------------------------------------------------------------ *)

(** A record returned by an attempt carries the URL that was asked for. *)
Lemma scrape_article_try_url (u : string) (w : world) (r : VariantB.article_data)
    (w' : world) :
  VariantB.scrape_article_try u w = (Ok r, w') -> VariantB.url r = u.
Proof.
  unfold VariantB.scrape_article_try, VariantB.wait_presence, bind, env_call, lift,
    try_except, ret, raise, logging_info, emit.
  cbn. repeat split_path.
  all: intros Hx; inversion Hx; reflexivity.
Qed.

Lemma scrape_article_url (u : string) (w : world) (r : VariantB.article_data)
    (w' : world) :
  VariantB.scrape_article u w = (Ok r, w') -> VariantB.url r = u.
Proof.
  intros H. apply retry_ok in H.
  - destruct H as (w1 & _ & _ & H).
    unfold VariantB.scrape_article_body, try_except in H.
    destruct (VariantB.scrape_article_try u w1) as [[a | e] w2] eqn:E.
    + inversion H; subst. eapply scrape_article_try_url; eassumption.
    + destruct (scrape_article_except_raises u e w2) as (e' & He' & _).
      rewrite H in He'. discriminate.
  - eapply anything_of. apply scrape_article_body_quits.
Qed.

(** The loop never raises; it returns the records it was given followed
    by records of links of the batch. *)
Lemma scrape_for_new (article_links : list string) :
  forall articles_data w,
    exists new,
      fst (VariantB.scrape_for article_links articles_data w) =
        Ok (articles_data ++ new) /\
      forall r, In r new -> In (VariantB.url r) article_links.
Proof.
  induction article_links as [| u rest IH]; intros articles_data w;
    cbn [VariantB.scrape_for].
  - exists []. rewrite app_nil_r. split; [reflexivity | intros r []].
  - rewrite bind_run. unfold tried.
    destruct (VariantB.scrape_article u w) as [[a | e] w1] eqn:E.
    + unfold bind, sleep, emit.
      match goal with |- context [VariantB.scrape_for rest ?acc ?w0] =>
        destruct (IH acc w0) as (new & Hnew & Hin) end.
      exists (a :: new). rewrite Hnew, <- app_assoc. split; [reflexivity |].
      intros r [<- | Hr].
      * left. symmetry. eapply scrape_article_url; eassumption.
      * right. now apply Hin.
    + unfold bind, logging_error, emit.
      match goal with |- context [VariantB.scrape_for rest ?acc ?w0] =>
        destruct (IH acc w0) as (new & Hnew & Hin) end.
      exists new. split; [exact Hnew |]. intros r Hr. right. now apply Hin.
Qed.

Lemma scrape_for_app (l1 l2 : list string) :
  forall articles_data w,
    VariantB.scrape_for (l1 ++ l2) articles_data w =
    match VariantB.scrape_for l1 articles_data w with
    | (Ok articles_data1, w1) => VariantB.scrape_for l2 articles_data1 w1
    | (Raise e, w1) => (Raise e, w1)
    end.
Proof.
  induction l1 as [| u rest IH]; intros articles_data w; cbn [app VariantB.scrape_for].
  - reflexivity.
  - rewrite !bind_run. unfold tried.
    destruct (VariantB.scrape_article u w) as [[a | e] w1].
    + unfold bind, sleep, emit. apply IH.
    + unfold bind, logging_error, emit. apply IH.
Qed.

Lemma scrape_for_keeps_trace (article_links : list string)
    (articles_data : list VariantB.article_data) (w : world) (ev : event) :
  In ev (trace w) ->
  In ev (trace (snd (VariantB.scrape_for article_links articles_data w))).
Proof.
  intros H.
  destruct (scrape_for_quits article_links articles_data w) as (_ & _ & d & -> & _).
  apply in_or_app. now left.
Qed.
(* ------------------------------------------------------------------ *)
(** *** Variant A: one teaser                                          *)
(* ------------------------------------------------------------------ *)

Lemma announced_clock (base_url href : string) (w : world) :
  clock (announced base_url href w) = clock w /\
  oracle (announced base_url href w) = oracle w /\
  sessions (announced base_url href w) = sessions w.
Proof. unfold announced. destruct (startswith "/" href); auto. Qed.

(** A teaser whose three fields are there: the link is completed and
    printed if it starts with a slash, the article is fetched, and the
    record is built from what the fetch returns. *)
Lemma scrape_teaser_run (base_url : string) (driver : nat) (article : node)
    (title_tag : node) (teaser href : string) (w : world) :
  VariantA.teaser_fields article = Ok (title_tag, teaser, href) ->
  VariantA.scrape_teaser base_url driver article w =
  match VariantA.scrape_article_content driver (target base_url href)
          (announced base_url href w) with
  | (Ok full_content, w1) =>
      (Ok {| VariantA.title := strip (get_text title_tag);
             VariantA.teaser := teaser;
             VariantA.link := target base_url href;
             VariantA.content := full_content |}, w1)
  | (Raise e, w1) => (Raise e, w1)
  end.
Proof.
  intros H. unfold VariantA.scrape_teaser, target, announced.
  rewrite bind_run. unfold lift. rewrite H.
  destruct (startswith "/" href); reflexivity.
Qed.

(** A teaser with a missing field raises before anything is fetched. *)
Lemma scrape_teaser_unreadable (base_url : string) (driver : nat) (article : node)
    (e : exn) (w : world) :
  VariantA.teaser_fields article = Raise e ->
  VariantA.scrape_teaser base_url driver article w = (Raise e, w).
Proof.
  intros H. unfold VariantA.scrape_teaser. rewrite bind_run. unfold lift.
  rewrite H. reflexivity.
Qed.

(** The three ways [scrape_article_content] can go. *)
Lemma scrape_article_content_unreachable (driver : nat) (url : string)
    (w : world) (e : exn) :
  r_raise (oracle w (clock w) (CGet url)) = Some e ->
  VariantA.scrape_article_content driver url w =
  (Raise e, tick (append_event (EvCall (CGet url) (Some e)) w)).
Proof.
  intros H. unfold VariantA.scrape_article_content.
  rewrite bind_run. erewrite env_call_raise by exact H. reflexivity.
Qed.

Lemma scrape_article_content_unreadable (driver : nat) (url : string)
    (w : world) (e : exn) :
  r_raise (oracle w (clock w) (CGet url)) = None ->
  r_raise (oracle w (S (clock w)) CPageSource) = Some e ->
  VariantA.scrape_article_content driver url w =
  (Ok None,
   append_event (EvPrint (MsgErrorLoading e))
     (tick (append_event (EvCall CPageSource (Some e))
        (append_event (EvSleep 2)
           (tick (append_event (EvCall (CGet url) None) w)))))).
Proof.
  intros H1 H2. unfold VariantA.scrape_article_content.
  rewrite bind_run, env_call_ok by exact H1.
  unfold try_except. rewrite bind_run. unfold sleep at 1. unfold emit at 1.
  rewrite bind_run. erewrite env_call_raise by exact H2. reflexivity.
Qed.

Lemma scrape_article_content_read (driver : nat) (url : string) (w : world) :
  r_raise (oracle w (clock w) (CGet url)) = None ->
  r_raise (oracle w (S (clock w)) CPageSource) = None ->
  VariantA.scrape_article_content driver url w =
  (Ok match article_section (r_page (oracle w (S (clock w)) CPageSource)) with
      | None => None
      | Some section =>
          Some (join " " (map (fun p => strip (get_text p))
                            (find_all "p" None 0 section)))
      end,
   tick (append_event (EvCall CPageSource None)
     (append_event (EvSleep 2)
        (tick (append_event (EvCall (CGet url) None) w))))).
Proof.
  intros H1 H2. unfold VariantA.scrape_article_content.
  rewrite bind_run, env_call_ok by exact H1.
  unfold try_except. rewrite bind_run. unfold sleep at 1. unfold emit at 1.
  rewrite bind_run, env_call_ok by exact H2.
  unfold article_section. cbn [oracle clock tick append_event].
  destruct (find "div" _ _); reflexivity.
Qed.

(** One step of the loop over the teasers. *)
Lemma articles_for_step (base_url : string) (driver : nat) (article : node)
    (rest : list node) (all_articles : list VariantA.teaser_data) (w : world) :
  VariantA.articles_for base_url driver (article :: rest) all_articles w =
  match VariantA.scrape_teaser base_url driver article w with
  | (Ok d, w1) => VariantA.articles_for base_url driver rest (all_articles ++ [d]) w1
  | (Raise e, w1) =>
      VariantA.articles_for base_url driver rest all_articles
        (append_event (EvPrint (MsgErrorScraping e)) w1)
  end.
Proof.
  cbn [VariantA.articles_for]. rewrite bind_run. unfold tried.
  destruct (VariantA.scrape_teaser base_url driver article w) as [[d | e] w1];
    reflexivity.
Qed.
(* ------------------------------------------------------------------ *)
(** *** Variant A: what is requested                                   *)
(* ------------------------------------------------------------------ *)

Lemma scrape_article_content_requests (driver : nat) (url : string) (w : world) :
  exists d,
    trace (snd (VariantA.scrape_article_content driver url w)) = trace w ++ d /\
    requested d = [url].
Proof.
  destruct (r_raise (oracle w (clock w) (CGet url))) as [e |] eqn:E1.
  - rewrite (@scrape_article_content_unreachable driver url w e E1).
    eexists. split; reflexivity.
  - destruct (r_raise (oracle w (S (clock w)) CPageSource)) as [e |] eqn:E2.
    + rewrite (@scrape_article_content_unreadable driver url w e E1 E2).
      cbn. rewrite <- !app_assoc. eexists. split; reflexivity.
    + rewrite (@scrape_article_content_read driver url w E1 E2).
      cbn. rewrite <- !app_assoc. eexists. split; reflexivity.
Qed.

Lemma announced_trace (base_url href : string) (w : world) :
  exists d, trace (announced base_url href w) = trace w ++ d /\ requested d = [].
Proof.
  unfold announced. destruct (startswith "/" href); cbn.
  - eexists. split; reflexivity.
  - exists []. now rewrite app_nil_r.
Qed.

(** The loop over the teasers requests the target of every readable
    teaser, once and in order, and nothing else; a record it adds has the
    target of its teaser as link. *)
Lemma articles_for_requests (base_url : string) (driver : nat) (articles : list node) :
  forall all_articles w,
    exists d new,
      trace (snd (VariantA.articles_for base_url driver articles all_articles w))
        = trace w ++ d /\
      requested d = map (target base_url) (readable_hrefs articles) /\
      fst (VariantA.articles_for base_url driver articles all_articles w)
        = Ok (all_articles ++ new) /\
      incl (map VariantA.link new) (map (target base_url) (readable_hrefs articles)).
Proof.
  induction articles as [| article rest IH]; intros all_articles w.
  - exists [], []. cbn. rewrite !app_nil_r. repeat split. intros x [].
  - rewrite articles_for_step. unfold readable_hrefs. cbn [flat_map].
    fold (readable_hrefs rest).
    destruct (VariantA.teaser_fields article) as [[[title_tag teaser] href] | e] eqn:Ef.
    + rewrite (@scrape_teaser_run base_url driver article title_tag teaser href w Ef).
      destruct (announced_trace base_url href w) as (d0 & Hd0 & Hr0).
      destruct (scrape_article_content_requests driver (target base_url href)
                  (announced base_url href w)) as (d1 & Hd1 & Hr1).
      destruct (VariantA.scrape_article_content driver (target base_url href)
                  (announced base_url href w)) as [[c | e] w1]; cbn [snd] in Hd1.
      * match goal with |- context [VariantA.articles_for _ _ rest ?acc ?w0] =>
          destruct (IH acc w0) as (d2 & new & Hd2 & Hr2 & Hok & Hincl) end.
        exists (d0 ++ d1 ++ d2). eexists (_ :: new).
        rewrite Hd2, Hd1, Hd0, !requested_app, Hr0, Hr1, Hr2, Hok, <- !app_assoc.
        repeat split. cbn.
        intros x [<- | Hx]; [now left | right; now apply Hincl].
      * match goal with |- context [VariantA.articles_for _ _ rest ?acc ?w0] =>
          destruct (IH acc w0) as (d2 & new & Hd2 & Hr2 & Hok & Hincl) end.
        exists (d0 ++ d1 ++ [EvPrint (MsgErrorScraping e)] ++ d2), new.
        rewrite Hd2. cbn [trace append_event].
        rewrite Hd1, Hd0, !requested_app, Hr0, Hr1, Hr2, Hok, <- !app_assoc.
        repeat split. cbn. intros x Hx. right. now apply Hincl.
    + rewrite (@scrape_teaser_unreadable base_url driver article e w Ef).
      match goal with |- context [VariantA.articles_for _ _ rest ?acc ?w0] =>
        destruct (IH acc w0) as (d2 & new & Hd2 & Hr2 & Hok & Hincl) end.
      exists ([EvPrint (MsgErrorScraping e)] ++ d2), new.
      rewrite Hd2. cbn [trace append_event].
      rewrite !requested_app, Hr2, Hok, <- !app_assoc. repeat split. exact Hincl.
Qed.
(* ------------------------------------------------------------------ *)
(** *** Trimming and joining                                           *)
(* ------------------------------------------------------------------ *)

Lemma append_assoc (a b c : string) :
  ((a ++ b) ++ c)%string = (a ++ (b ++ c))%string.
Proof. induction a as [| x a IH]; cbn; [reflexivity | now rewrite IH]. Qed.

Lemma append_nil_r (s : string) : (s ++ "")%string = s.
Proof. induction s as [| a s IH]; cbn; [reflexivity | now rewrite IH]. Qed.

Lemma lstrip_step (s : string) :
  lstrip s = match after_space s with Some r => lstrip r | None => s end.
Proof.
  destruct s as [| a [| b [| c r3]]]; cbn [lstrip after_space]; try reflexivity.
  - destruct (space1 a); reflexivity.
  - destruct (space1 a); [reflexivity |]. destruct (space2 a b); reflexivity.
  - destruct (space1 a); [reflexivity |]. destruct (space2 a b); [reflexivity |].
    destruct (space3 a b c); reflexivity.
Qed.

Lemma blank_step (s : string) :
  blank s = match s with
            | EmptyString => true
            | _ => match after_space s with Some r => blank r | None => false end
            end.
Proof.
  destruct s as [| a [| b [| c r3]]]; cbn [blank after_space]; try reflexivity.
  - destruct (space1 a); reflexivity.
  - destruct (space1 a); [reflexivity |]. destruct (space2 a b); reflexivity.
  - destruct (space1 a); [reflexivity |]. destruct (space2 a b); [reflexivity |].
    destruct (space3 a b c); reflexivity.
Qed.

(** A string that starts with a white-space character is that character
    followed by the rest, and the rest is shorter. *)
Lemma after_space_char (s r : string) :
  after_space s = Some r ->
  exists c, space_char c /\ s = (c ++ r)%string /\ String.length r < String.length s.
Proof.
  unfold space_char.
  destruct s as [| a r1]; cbn [after_space]; [discriminate |].
  destruct (space1 a) eqn:E1.
  { intros H. inversion H; subst. exists (String a EmptyString).
    cbn. rewrite E1. repeat split. lia. }
  destruct r1 as [| b r2]; [discriminate |].
  destruct (space2 a b) eqn:E2.
  { intros H. inversion H; subst. exists (String a (String b EmptyString)).
    cbn. rewrite E1, E2. repeat split. lia. }
  destruct r2 as [| c r3]; [discriminate |].
  destruct (space3 a b c) eqn:E3; [| discriminate].
  intros H. inversion H; subst.
  exists (String a (String b (String c EmptyString))).
  cbn. rewrite E1, E2, E3. repeat split. lia.
Qed.

Lemma space_char_after (c r : string) :
  space_char c -> after_space (c ++ r) = Some r.
Proof.
  unfold space_char.
  destruct c as [| a r1]; cbn [after_space append]; [discriminate |].
  destruct (space1 a) eqn:E1.
  { intros H. inversion H; subst. reflexivity. }
  destruct r1 as [| b r2]; [discriminate |]. cbn [append].
  destruct (space2 a b) eqn:E2.
  { intros H. inversion H; subst. reflexivity. }
  destruct r2 as [| c r3]; [discriminate |]. cbn [append].
  destruct (space3 a b c) eqn:E3; [| discriminate].
  intros H. inversion H; subst. reflexivity.
Qed.

Lemma space_char_nonempty (c : string) : space_char c -> c <> EmptyString.
Proof. intros H ->. discriminate H. Qed.

Lemma string_length_ind (P : string -> Prop) :
  (forall s, (forall r, String.length r < String.length s -> P r) -> P s) ->
  forall s, P s.
Proof.
  intros H s. remember (String.length s) as n eqn:Hn.
  revert s Hn. induction n as [n IH] using lt_wf_ind.
  intros s ->. apply H. intros r Hr. eapply IH; [exact Hr | reflexivity].
Qed.

Lemma lstrip_spec (s : string) :
  exists l, s = (l ++ lstrip s)%string /\ all_space l /\
            after_space (lstrip s) = None.
Proof.
  induction s as [s IH] using string_length_ind.
  rewrite lstrip_step. destruct (after_space s) as [r |] eqn:E.
  - destruct (after_space_char _ E) as (c & Hc & -> & Hlt).
    destruct (IH r Hlt) as (l & Hr & Hl & Hn).
    exists (c ++ l)%string. repeat split.
    + rewrite append_assoc. now rewrite <- Hr.
    + now constructor.
    + exact Hn.
  - exists EmptyString. repeat split; [constructor | exact E].
Qed.

Lemma blank_all_space (s : string) : blank s = true <-> all_space s.
Proof.
  split.
  - induction s as [s IH] using string_length_ind.
    rewrite blank_step. destruct (after_space s) as [r |] eqn:E.
    + destruct (after_space_char _ E) as (c & Hc & Hs & Hlt).
      intros Hb. rewrite Hs. constructor; [exact Hc |]. apply IH; [exact Hlt |].
      destruct s; [discriminate E | exact Hb].
    + destruct s; [constructor | discriminate].
  - induction 1 as [| c l Hc Hl IH]; [reflexivity |].
    rewrite blank_step, (space_char_after l Hc).
    destruct (c ++ l)%string eqn:E; [reflexivity | exact IH].
Qed.

Lemma nil_not_ends_with (c front : string) :
  space_char c -> EmptyString <> (front ++ c)%string.
Proof.
  intros Hc H. apply (space_char_nonempty Hc).
  destruct front; cbn in H; [now symmetry | discriminate].
Qed.

Lemma rstrip_spec (s : string) :
  exists r, s = (rstrip s ++ r)%string /\ all_space r /\
            forall c front, space_char c -> rstrip s <> (front ++ c)%string.
Proof.
  induction s as [| a s IH].
  - exists EmptyString. split; [reflexivity |]. split; [constructor |].
    intros c front. apply nil_not_ends_with.
  - cbn [rstrip]. destruct (blank (String a s)) eqn:Eb.
    + exists (String a s). split; [reflexivity |].
      split; [now apply blank_all_space |].
      intros c front. apply nil_not_ends_with.
    + destruct IH as (r & Hs & Hr & Hno).
      exists r. split; [cbn; now rewrite <- Hs |]. split; [exact Hr |].
      intros c front Hc H. destruct front as [| x front]; cbn in H.
      * assert (Hall : all_space (String a s)).
        { rewrite Hs. change (String a (rstrip s ++ r))
            with (String a (rstrip s) ++ r)%string.
          rewrite H. now constructor. }
        apply blank_all_space in Hall. congruence.
      * inversion H; subst. eapply Hno; eauto.
Qed.

(** [strip] does what "trimmed of leading and trailing whitespace" says. *)
Lemma strip_is_trim (s : string) : is_trim_of s (strip s).
Proof.
  unfold strip, is_trim_of.
  destruct (lstrip_spec s) as (l & Hs & Hl & Hfirst).
  destruct (rstrip_spec (lstrip s)) as (r & Ht & Hr & Hlast).
  exists l, r. split; [now rewrite <- Ht |]. split; [exact Hl |].
  split; [exact Hr |]. intros c Hc. split.
  - intros rest H. rewrite H, append_assoc in Ht.
    rewrite Ht, (space_char_after _ Hc) in Hfirst. discriminate.
  - intros front. now apply Hlast.
Qed.

Lemma join_fold (sep : string) (rest : list string) :
  forall p, join sep (p :: rest) =
            fold_left (fun acc q => (acc ++ sep ++ q)%string) rest p.
Proof.
  induction rest as [| q rest IH]; intros p.
  - reflexivity.
  - cbn [fold_left]. rewrite <- IH. cbn [join].
    destruct rest as [| q' rest'].
    + reflexivity.
    + cbn [join]. rewrite !append_assoc. reflexivity.
Qed.

Lemma join_single_spaces (parts : list string) :
  join " " parts = joined_by_single_spaces parts.
Proof. destruct parts as [| p rest]; [reflexivity | apply join_fold]. Qed.

Lemma find_all_paragraphs (container : node) :
  find_all "p" None 0 container = paragraphs_inside container.
Proof.
  unfold find_all, paragraphs_inside. cbn [Nat.eqb].
  apply filter_ext.
  intros [s | c s | name classes attrs children]; cbn; [reflexivity | reflexivity |].
  apply andb_true_r.
Qed.

Lemma trimmed_paragraphs (ps : list node) :
  Forall2 is_trim_of (map get_text ps) (map (fun p => strip (get_text p)) ps).
Proof.
  induction ps as [| p ps IH]; cbn; constructor; [apply strip_is_trim | exact IH].
Qed.
(* ------------------------------------------------------------------ *)
(** *** Variant B: where the content comes from                        *)
(* ------------------------------------------------------------------ *)

Lemma scrape_article_try_content (u : string) (w : world)
    (r : VariantB.article_data) (w' : world) :
  VariantB.scrape_article_try u w = (Ok r, w') ->
  r_raise (oracle w (S (clock w)) (CWaitPresence (ByClassName "news-content"))) = None /\
  text (r_element (oracle w (S (clock w)) (CWaitPresence (ByClassName "news-content"))))
    = Ok (VariantB.content r).
Proof.
  unfold VariantB.scrape_article_try, VariantB.wait_presence, bind, env_call, lift,
    try_except, ret, raise, logging_info, emit.
  cbn. repeat split_path.
  all: intros Hx; inversion Hx; subst; cbn; split; auto.
Qed.

Lemma scrape_article_content_source (u : string) (w : world)
    (r : VariantB.article_data) :
  fst (VariantB.scrape_article u w) = Ok r ->
  exists t,
    r_raise (oracle w t (CWaitPresence (ByClassName "news-content"))) = None /\
    text (r_element (oracle w t (CWaitPresence (ByClassName "news-content"))))
      = Ok (VariantB.content r).
Proof.
  intros H. destruct (VariantB.scrape_article u w) as [r0 w'] eqn:E.
  cbn in H. subst r0. apply retry_ok in E.
  - destruct E as (w1 & Ho & _ & E).
    unfold VariantB.scrape_article_body, try_except in E.
    destruct (VariantB.scrape_article_try u w1) as [[a | e] w2] eqn:Et.
    + inversion E; subst. apply scrape_article_try_content in Et.
      exists (S (clock w1)). rewrite <- Ho. exact Et.
    + destruct (scrape_article_except_raises u e w2) as (e' & He' & _).
      rewrite E in He'. discriminate.
  - eapply anything_of. apply scrape_article_body_quits.
Qed.

Ltac to_prop H :=
  repeat first [ rewrite orb_true_iff in H | rewrite andb_true_iff in H
               | rewrite Nat.eqb_eq in H | rewrite Nat.leb_le in H ].

Lemma lead_not_second (a b : ascii) : lead b = true -> space2 a b = false.
Proof.
  intros H. apply not_true_is_false. intros H2.
  unfold lead, space1, space2 in *. cbv zeta in *. to_prop H. to_prop H2. lia.
Qed.

Lemma lead_not_inside (a b c : ascii) :
  lead b = true \/ lead c = true -> space3 a b c = false.
Proof.
  intros H. apply not_true_is_false. intros H3.
  unfold lead, space1, space3 in *. cbv zeta in *. to_prop H3.
  destruct H as [H | H]; to_prop H; lia.
Qed.

Lemma after_space_lead (a : ascii) (r x : string) :
  after_space (String a r) = Some x -> lead a = true.
Proof.
  cbn [after_space]. unfold lead. destruct (space1 a); [reflexivity |].
  destruct r as [| b r2]; [discriminate |].
  destruct (space2 a b) eqn:E2.
  { intros _. unfold space2 in E2. cbv zeta in E2.
    rewrite andb_true_iff, Nat.eqb_eq in E2. destruct E2 as [-> _]. reflexivity. }
  destruct r2 as [| c r3]; [discriminate |].
  destruct (space3 a b c) eqn:E3; [| discriminate].
  intros _. unfold space3 in E3. cbv zeta in E3.
  rewrite ?orb_true_iff, ?andb_true_iff, ?Nat.eqb_eq in E3.
  cbn [orb].
  destruct E3 as [[[((-> & _) & _) | ((-> & _) & _)] | ((-> & _) & _)] | ((-> & _) & _)];
    reflexivity.
Qed.

Lemma all_space_lead (a : ascii) (r : string) :
  all_space (String a r) -> lead a = true.
Proof.
  intros H. remember (String a r) as s eqn:Hs. revert a r Hs.
  induction H as [| c l Hc Hl IH]; intros a r Hs; [discriminate |].
  destruct c as [| a' c']; [discriminate Hc |].
  cbn in Hs. inversion Hs; subst. eapply after_space_lead. exact Hc.
Qed.

(** White space after a string does not make it start with white
    space. *)
Lemma after_space_app (t r x : string) :
  t <> EmptyString -> all_space r ->
  after_space (t ++ r) = Some x ->
  exists x', after_space t = Some x' /\ x = (x' ++ r)%string.
Proof.
  intros Ht Hr. destruct t as [| a t1]; [congruence |]. clear Ht.
  cbn [append after_space].
  destruct (space1 a).
  { intros H. inversion H; subst. eauto. }
  destruct t1 as [| b t2]; cbn [append].
  { destruct r as [| b r2]; [discriminate |].
    rewrite (@lead_not_second a b (all_space_lead Hr)).
    destruct r2 as [| c r3]; [discriminate |].
    rewrite (@lead_not_inside a b c (or_introl (all_space_lead Hr))). discriminate. }
  destruct (space2 a b).
  { intros H. inversion H; subst. eauto. }
  destruct t2 as [| c t3]; cbn [append].
  { destruct r as [| c r3]; [discriminate |].
    rewrite (@lead_not_inside a b c (or_intror (all_space_lead Hr))). discriminate. }
  destruct (space3 a b c); [| discriminate].
  intros H. inversion H; subst. eauto.
Qed.

Lemma lstrip_all_space (l x : string) :
  all_space l -> lstrip (l ++ x) = lstrip x.
Proof.
  induction 1 as [| c l Hc Hl IH]; [reflexivity |].
  rewrite append_assoc, lstrip_step, (space_char_after _ Hc). exact IH.
Qed.

Lemma lstrip_blank (r : string) : all_space r -> lstrip r = EmptyString.
Proof.
  intros H. rewrite <- (append_nil_r r), (lstrip_all_space _ H). reflexivity.
Qed.

Lemma clean_no_space_first (t : string) : clean_ends t -> after_space t = None.
Proof.
  intros H. destruct (after_space t) as [x |] eqn:E; [| reflexivity].
  destruct (after_space_char _ E) as (c & Hc & Ht & _).
  destruct (H c Hc) as [Hfirst _]. now apply Hfirst in Ht.
Qed.

Lemma lstrip_clean (t r : string) :
  t <> EmptyString -> clean_ends t -> all_space r ->
  lstrip (t ++ r) = (t ++ r)%string.
Proof.
  intros Ht Hc Hr. rewrite lstrip_step.
  destruct (after_space (t ++ r)) as [x |] eqn:E; [| reflexivity].
  destruct (@after_space_app t r x Ht Hr E) as (x' & E' & _).
  rewrite (clean_no_space_first Hc) in E'. discriminate.
Qed.

(** White space that ends with the white space [r] is white space
    before [r]. *)
Lemma blank_app_inv (t r : string) :
  all_space r -> blank (t ++ r) = true -> blank t = true.
Proof.
  intros Hr. induction t as [t IH] using string_length_ind.
  destruct t as [| a t1]; [reflexivity |].
  rewrite blank_step. cbn [append].
  change (String a (t1 ++ r)) with (String a t1 ++ r)%string.
  destruct (after_space (String a t1 ++ r)) as [x |] eqn:E; [| discriminate].
  assert (Hne : String a t1 <> EmptyString) by discriminate.
  destruct (@after_space_app (String a t1) r x Hne Hr E) as (x' & E' & ->).
  intros Hb. rewrite blank_step, E'. apply IH; [| exact Hb].
  destruct (after_space_char _ E') as (_ & _ & _ & Hlt). exact Hlt.
Qed.

Lemma all_space_last (u : string) :
  all_space u -> u <> EmptyString ->
  exists front c, space_char c /\ u = (front ++ c)%string.
Proof.
  induction 1 as [| c l Hc Hl IH]; [congruence |]. intros _.
  destruct l as [| a l'].
  - exists EmptyString, c. split; [exact Hc |]. now rewrite append_nil_r.
  - destruct IH as (front & c' & Hc' & Hl'); [discriminate |].
    exists (c ++ front)%string, c'. split; [exact Hc' |].
    now rewrite Hl', append_assoc.
Qed.

Lemma rstrip_clean (t r : string) :
  (forall c front, space_char c -> t <> (front ++ c)%string) ->
  all_space r -> rstrip (t ++ r) = t.
Proof.
  intros Hc Hr. induction t as [| a t IH].
  - cbn [append]. destruct r as [| b r']; [reflexivity |].
    cbn [rstrip]. apply blank_all_space in Hr. now rewrite Hr.
  - cbn [append rstrip].
    destruct (blank (String a (t ++ r))) eqn:Eb.
    + exfalso.
      change (String a (t ++ r)) with (String a t ++ r)%string in Eb.
      apply (blank_app_inv _ Hr) in Eb. apply blank_all_space in Eb.
      destruct (all_space_last Eb) as (front & c & Hsc & Hu); [discriminate |].
      now apply (Hc c front Hsc).
    + rewrite IH; [reflexivity |].
      intros c front Hsc Hx. apply (Hc c (String a front) Hsc).
      cbn. now rewrite Hx.
Qed.

(** There is one way to trim a string, and [strip] finds it. *)
Lemma is_trim_of_strip (s t : string) : is_trim_of s t -> t = strip s.
Proof.
  intros (l & r & -> & Hl & Hr & Hclean). unfold strip.
  rewrite lstrip_all_space by exact Hl.
  assert (Hend : forall c front, space_char c -> t <> (front ++ c)%string).
  { intros c front Hc. now apply (Hclean c Hc). }
  destruct t as [| a t].
  - cbn [append]. now rewrite (lstrip_blank Hr).
  - rewrite lstrip_clean by (auto; discriminate).
    symmetry. now apply rstrip_clean.
Qed.

(* ------------------------------------------------------------------ *)
(** *** Variant B: the orchestrator around the batch                   *)
(* ------------------------------------------------------------------ *)

(** What [scrape_website] does once links are collected: the batch over
    all of them, then the save and the quit; nothing is requested after the
    batch. *)
Lemma scrape_website_after_collection (base_url : string) (max_articles : Z)
    (w : world) (links : list string) :
  fst (VariantB.collect_article_links base_url max_articles w) = Ok links ->
  links <> [] ->
  let batch :=
    VariantB.scrape_for links []
      (snd (VariantB.collect_article_links base_url max_articles w)) in
  exists records d,
    fst batch = Ok records /\
    fst (VariantB.scrape_website base_url max_articles w) = Ok records /\
    trace (snd (VariantB.scrape_website base_url max_articles w)) =
      trace (snd batch) ++ d /\
    requested d = [].
Proof.
  intros Hlinks Hne. cbv zeta.
  unfold VariantB.scrape_website, try_finally, try_except. rewrite bind_run.
  destruct (VariantB.collect_article_links base_url max_articles w)
    as [[l | e] w1]; cbn [fst snd] in *; [| discriminate].
  inversion Hlinks; subst l. destruct links as [| u rest]; [congruence |].
  rewrite bind_run.
  destruct (scrape_for_new (u :: rest) [] w1) as (new & Hnew & _).
  destruct (VariantB.scrape_for (u :: rest) [] w1) as [r w2]; cbn [fst snd] in *.
  subst r. cbn [app]. exists new.
  unfold VariantB.save_csv, VariantB.df_empty.
  destruct new as [| a new]; cbn [negb].
  - unfold bind, ret. cbn. rewrite !quit_quietly_run. cbn.
    eexists. repeat split; reflexivity.
  - unfold try_except. rewrite !bind_run. unfold env_call.
    destruct (r_raise (oracle w2 (clock w2) (CToCsv (length (a :: new)))));
      unfold logging_info, logging_error, emit, ret; cbn;
      rewrite !quit_quietly_run; cbn; rewrite <- !app_assoc;
      eexists; repeat split; reflexivity.
Qed.

(** The main block once the constructor has its session: whatever
    happens afterwards, [scrape_website] hands back a frame and the block
    prints its length. *)
Lemma main_after_init (w : world) :
  fst (VariantB.setup_driver w) = Ok tt ->
  let run :=
    VariantB.scrape_website "https://www.setopati.com" 20
      (snd (VariantB.setup_driver w)) in
  exists df,
    fst run = Ok df /\
    fst (VariantB.main w) = Ok tt /\
    trace (snd (VariantB.main w)) =
      trace (snd run) ++ [EvPrint (MsgScrapedCount (length df))].
Proof.
  intros Hinit. cbv zeta.
  unfold VariantB.main, VariantB.init, try_except. rewrite bind_run.
  destruct (VariantB.setup_driver w) as [[[] | e] w1]; cbn [fst snd] in *;
    [| discriminate].
  rewrite bind_run.
  destruct (scrape_website_shape "https://www.setopati.com" 20 w1)
    as (df & _ & _ & Hdf & _).
  destruct (VariantB.scrape_website "https://www.setopati.com" 20 w1)
    as [r w2]; cbn [fst snd] in *. subst r.
  exists df. unfold print, emit. cbn. repeat split.
Qed.

(* ================================================================== *)
(** ** The claims                                                      *)
(* ================================================================== *)

(** C5, as the code has it.  Session acquisition ([setup_driver]) makes
    at most three attempts.  The trace of a call is one of four: a
    successful start; one failed start, its log entry, a 5-second sleep and
    a successful start; two failed starts, each followed by its log entry
    and a 5-second sleep, and a successful start; or three failed starts
    where the third is followed by its log entry only (no sleep, no fourth
    start) and the exception "Failed to initialize WebDriver after multiple
    attempts" is raised.  Raised in the constructor, that exception ends the
    run: the main block prints the failure and makes no further call.  Once
    the constructor has its session nothing ends the run that way: the main
    block always gets a frame from [scrape_website] and prints its length,
    also when a later restart runs out of attempts. *)
Theorem setup_driver_three_attempts (w : world) :
  (exists d,
    trace (snd (VariantB.setup_driver w)) = trace w ++ d /\
    ( (fst (VariantB.setup_driver w) = Ok tt /\ d = started)
   \/ (exists e1 a1, failed_start e1 a1 /\
         fst (VariantB.setup_driver w) = Ok tt /\
         d = a1 ++ backoff 1 e1 ++ started)
   \/ (exists e1 a1 e2 a2, failed_start e1 a1 /\ failed_start e2 a2 /\
         fst (VariantB.setup_driver w) = Ok tt /\
         d = a1 ++ backoff 1 e1 ++ a2 ++ backoff 2 e2 ++ started)
   \/ (exists e1 a1 e2 a2 e3 a3,
         failed_start e1 a1 /\ failed_start e2 a2 /\ failed_start e3 a3 /\
         fst (VariantB.setup_driver w) = Raise init_failure /\
         d = a1 ++ backoff 1 e1 ++ a2 ++ backoff 2 e2 ++ a3 ++
             [EvLog ERROR (MsgInitAttemptFailed 3 e3)] /\
         fst (VariantB.main w) = Ok tt /\
         trace (snd (VariantB.main w)) =
           trace w ++ d ++ [EvPrint (MsgScrapingFailed init_failure)]) ))
  /\
  (fst (VariantB.setup_driver w) = Ok tt ->
   let run :=
     VariantB.scrape_website "https://www.setopati.com" 20
       (snd (VariantB.setup_driver w)) in
   exists df,
     fst run = Ok df /\
     fst (VariantB.main w) = Ok tt /\
     trace (snd (VariantB.main w)) =
       trace (snd run) ++ [EvPrint (MsgScrapedCount (length df))]).
Proof.
  split; [| apply main_after_init].
  unfold VariantB.main, VariantB.init, try_except, bind.
  unfold VariantB.setup_driver. cbn [Nat.sub].
  rewrite setup_driver_while_step by reflexivity.
  destruct (setup_driver_try_spec w) as (r1 & w1 & a1 & E1 & T1 & [[-> ->] | (e1 & -> & F1)]);
    rewrite E1.
  { eexists; split; [exact T1 | left; auto]. }
  cbn [Nat.add Nat.eqb]. cbv zeta.
  rewrite setup_driver_while_step by reflexivity.
  match goal with |- context [VariantB.setup_driver_try ?w0] =>
    destruct (setup_driver_try_spec w0) as (r2 & w2 & a2 & E2 & T2 & [[-> ->] | (e2 & -> & F2)]);
    rewrite E2 end.
  { cbn in T2. eexists; split.
    - cbn. rewrite T2, T1, <- !app_assoc. reflexivity.
    - right; left. exists e1, a1. auto. }
  cbn [Nat.add Nat.eqb]. cbv zeta.
  rewrite setup_driver_while_step by reflexivity.
  match goal with |- context [VariantB.setup_driver_try ?w0] =>
    destruct (setup_driver_try_spec w0) as (r3 & w3 & a3 & E3 & T3 & [[-> ->] | (e3 & -> & F3)]);
    rewrite E3 end.
  { cbn in T2, T3. eexists; split.
    - cbn. rewrite T3, T2, T1, <- !app_assoc. reflexivity.
    - right; right; left. exists e1, a1, e2, a2. auto. }
  cbn in T2, T3. cbn. eexists; split.
  - rewrite T3, T2, T1, <- !app_assoc. reflexivity.
  - right; right; right. exists e1, a1, e2, a2, e3, a3.
    repeat split; auto.
    rewrite T3, T2, T1, <- !app_assoc. reflexivity.
Qed.

Lemma setup_driver_three_attempts_witness :
  let w := start Case.browser_gone insertion_order in
  let run :=
    VariantB.scrape_website "https://www.setopati.com" 20
      (snd (VariantB.setup_driver w)) in
  exists df,
    fst run = Ok df /\
    fst (VariantB.main w) = Ok tt /\
    trace (snd (VariantB.main w)) =
      trace (snd run) ++ [EvPrint (MsgScrapedCount (length df))].
Proof.
  cbv zeta.
  apply (proj2 (setup_driver_three_attempts
                  (start Case.browser_gone insertion_order))).
  vm_compute. reflexivity.
Defined.

(** C5 as stated fails: the three attempts can also be used up inside
    [restart_driver].  Here the first request of the article meets a
    WebDriver error, the restart quits the session and fails three times to
    start another; the exception is one more failure of the attempt for the
    retry decorator, which sleeps and tries again: the article is scraped
    and saved, and the run ends with "Scraped 1 articles successfully!". *)
Lemma exhaustion_in_restart_does_not_abort :
  let w := start Case.browser_gone insertion_order in
  let url := "https://www.setopati.com/a/1" in
  exists before,
    fst (VariantB.main w) = Ok tt /\
    trace (snd (VariantB.main w)) =
      before ++
      [EvCall (CGet url) (Some WebDriverException);
       EvLog ERROR (MsgArticleWebDriverError url WebDriverException);
       EvCall (CQuit 1) None;
       EvCall CChrome (Some WebDriverException);
       EvLog ERROR (MsgInitAttemptFailed 1 WebDriverException);
       EvSleep 5;
       EvCall CChrome (Some WebDriverException);
       EvLog ERROR (MsgInitAttemptFailed 2 WebDriverException);
       EvSleep 5;
       EvCall CChrome (Some WebDriverException);
       EvLog ERROR (MsgInitAttemptFailed 3 WebDriverException);
       EvSleep 4;
       EvCall (CGet url) None;
       EvCall (CWaitPresence (ByClassName "news-content")) None;
       EvCall (CWaitPresence (ByCssSelector "h1.news-big-title")) None;
       EvCall (CWaitPresence (ByCssSelector "span.news-time")) None;
       EvCall (CWaitPresence (ByCssSelector "div.breadcrumb")) None;
       EvCall (CWaitPresence (ByCssSelector "div.author-name")) None;
       EvLog INFO (MsgScraped url);
       EvSleep 2;
       EvCall (CToCsv 1) None;
       EvLog INFO (MsgSaved 1);
       EvCall (CQuit 1) None;
       EvPrint (MsgScrapedCount 1)] /\
    ~ In (EvPrint (MsgScrapingFailed init_failure)) (trace (snd (VariantB.main w))).
Proof.
  cbv zeta. eexists. split; [vm_compute; reflexivity |]. split.
  - vm_compute. 
    match goal with |- ?l = _ =>
      change l with (firstn 24 l ++ skipn 24 l) end.
    reflexivity.
  - vm_compute. intros H.
    repeat (destruct H as [H | H]; [discriminate |]). exact H.
Qed.

(** C8, as the code has it.  Variant B: [scrape_website] never raises,
    and on every exit path the last thing it does is one [driver.quit()] on
    the current session (the [finally] block); every other [quit] of the run
    belongs to a session restart after a WebDriver error, one per restart.
    Variant A: once the session is started and the listing page is
    requested without error, every exit path of [scrape_articles] ends with
    one [driver.quit()], and there is no other. *)
Theorem teardown_last_on_every_exit :
  (forall base_url max_articles w,
      exists df d q,
        fst (VariantB.scrape_website base_url max_articles w) = Ok df /\
        trace (snd (VariantB.scrape_website base_url max_articles w)) =
          trace w ++ d ++
          [EvCall (CQuit (self_driver
                     (snd (VariantB.scrape_website base_url max_articles w)))) q] /\
        count is_quit d = count is_restart_log d)
  /\
  (forall base_url news_url max_articles w,
      r_raise (oracle w (clock w) CChrome) = None ->
      r_raise (oracle w (S (clock w)) (CGet news_url)) = None ->
      exists d q,
        trace (snd (VariantA.scrape_articles base_url news_url max_articles w)) =
          trace w ++ [EvCall CChrome None; EvCall (CGet news_url) None] ++ d ++
          [EvCall (CQuit (S (sessions w))) q] /\
        count is_quit d = 0).
Proof.
  split.
  - intros base_url max_articles w. apply scrape_website_shape.
  - intros base_url news_url max_articles w H1 H2.
    now apply scrape_articles_shape.
Qed.

(** A run of variant A on an empty listing that loads: one quit, at the
    end. *)
Lemma teardown_last_on_every_exit_witness :
  exists d q,
    trace (snd (VariantA.scrape_articles "https://ekantipur.com"
                  "https://ekantipur.com/news" 2
                  (start Scenario.empty_listing insertion_order))) =
      [] ++ [EvCall CChrome None; EvCall (CGet "https://ekantipur.com/news") None]
         ++ d ++ [EvCall (CQuit 1) q] /\
    count is_quit d = 0.
Proof.
  apply (proj2 teardown_last_on_every_exit "https://ekantipur.com"
           "https://ekantipur.com/news" 2
           (start Scenario.empty_listing insertion_order));
    reflexivity.
Defined.

(** C8 as stated fails: in a run of variant B with one WebDriver error
    while an article is fetched, [driver.quit()] is invoked twice, once by
    the restart and once by the [finally] block. *)
Lemma teardown_twice_after_restart :
  ~ torn_down_exactly_once
      (trace (snd (VariantB.main (start Scenario.one_crash insertion_order)))) /\
  count is_quit
    (trace (snd (VariantB.main (start Scenario.one_crash insertion_order)))) = 2.
Proof. split; [vm_compute; discriminate | vm_compute; reflexivity]. Qed.

(** In variant A the listing is requested before the [try] whose
    [finally] quits: when that request fails, the started session is never
    quit. *)
Lemma listing_failure_skips_quit :
  let run := VariantA.scrape_articles "https://ekantipur.com"
               "https://ekantipur.com/news" 2
               (start Scenario.listing_down insertion_order) in
  fst run = Raise WebDriverException /\
  trace (snd run) =
    [EvCall CChrome None;
     EvCall (CGet "https://ekantipur.com/news") (Some WebDriverException)] /\
  count is_quit (trace (snd run)) = 0.
Proof. vm_compute. repeat split. Qed.

(** C1, as the code has it.  In variant B every list returned by
    [get_article_links] has no URL twice, and every URL in it passed the
    test of line 100: it contains the literal [setopati.com] somewhere.
    Nothing of the kind holds for the listing scan of variant A. *)
Theorem get_article_links_distinct_on_domain
    (url : string) (max_scrolls : nat) (w : world) (links : list string) :
  fst (VariantB.get_article_links url max_scrolls w) = Ok links ->
  NoDup links /\
  Forall (fun u => contains "setopati.com" u = true) links /\
  (forall u, In u links ->
     exists pre post, u = (pre ++ "setopati.com" ++ post)%string).
Proof.
  intros H.
  destruct (VariantB.get_article_links url max_scrolls w) as [r w'] eqn:E.
  cbn in H. subst r.
  apply get_article_links_ok in E. destruct E as (w1 & w2 & acc & _ & Hacc & ->).
  destruct (list_of_set_ok (hash_order w) Hacc) as [Hn Hf].
  repeat split; [exact Hn | exact Hf |].
  intros u Hu. apply contains_spec.
  unfold links_ok, on_domain in Hf. rewrite Forall_forall in Hf. now apply Hf.
Qed.

Lemma get_article_links_distinct_on_domain_witness :
  let links := ["https://www.setopati.com/politics/1";
                "https://www.setopati.com/social/2"] in
  NoDup links /\
  Forall (fun u => contains "setopati.com" u = true) links /\
  (forall u, In u links ->
     exists pre post, u = (pre ++ "setopati.com" ++ post)%string).
Proof.
  apply (@get_article_links_distinct_on_domain "https://www.setopati.com" 5
           (start Scenario.growing_listing insertion_order)).
  vm_compute. reflexivity.
Defined.

(** C1 as stated fails in variant A: the listing scan takes the link of
    every teaser block as it is, so a listing whose two teasers point to
    the same page of another site yields that URL twice. *)
Lemma listing_scan_keeps_duplicates_and_foreign_links :
  exists records,
    fst (VariantA.scrape_articles "https://ekantipur.com"
           "https://ekantipur.com/news" 2
           (start Scenario.same_story_twice insertion_order)) = Ok records /\
    map VariantA.link records =
      ["https://other.example/story"; "https://other.example/story"] /\
    ~ NoDup (map VariantA.link records) /\
    ~ Forall (fun u => contains "ekantipur.com" u = true)
        (map VariantA.link records).
Proof.
  eexists. split; [vm_compute; reflexivity |].
  split; [reflexivity |]. split.
  - intros H. inversion H as [| x l Hin _]; subst. apply Hin. now left.
  - intros H. inversion H as [| x l Hc _]; subst. vm_compute in Hc. discriminate.
Qed.

(** C4, as the code has it.  The links the orchestrator works on are
    the set accumulated by the scroll loop of the attempt of
    [get_article_links] that returned (the attempt that ends the
    collection: the world it leaves, after its "Collected n article links"
    entry, is the world the collection leaves), enumerated in the iteration
    order of the set (some rearrangement of the discovery order) and cut
    after [max_articles] entries: no link twice, only collected links, at
    most [max_articles] of them. *)
Theorem collected_links_capped_in_set_order
    (base_url : string) (max_articles : Z) (w : world) (links : list string) :
  (0 <= max_articles)%Z ->
  fst (VariantB.collect_article_links base_url max_articles w) = Ok links ->
  exists w0 discovered,
    In w0 (attempt_starts (VariantB.get_article_links_body base_url 5) w) /\
    r_raise (oracle w0 (clock w0) (CGet base_url)) = None /\
    let scrolled :=
      VariantB.scroll_for (seq 0 5) set_empty (snd (env_call (CGet base_url) w0)) in
    fst scrolled = Ok (Ok tt, discovered) /\
    snd (VariantB.collect_article_links base_url max_articles w) =
      append_event (EvLog INFO (MsgCollected (set_len discovered))) (snd scrolled) /\
    links = firstn (Z.to_nat max_articles) (list_of_set (hash_order w) discovered) /\
    Permutation discovered (list_of_set (hash_order w) discovered) /\
    NoDup links /\
    incl links discovered /\
    (Z.of_nat (length links) <= max_articles)%Z.
Proof.
  intros Hmax. unfold VariantB.collect_article_links. rewrite bind_run.
  destruct (VariantB.get_article_links base_url 5 w) as [[l | e] w'] eqn:E;
    cbn [fst snd]; [| discriminate].
  intros Hx. inversion Hx; subst links; clear Hx.
  apply retry_ok_attempt in E. destruct E as (w0 & Hin & E).
  assert (Hh : hash_order w0 = hash_order w).
  { eapply attempt_starts_hash_order; [| exact Hin].
    eapply anything_of. apply get_article_links_body_quits. }
  apply get_article_links_body_returns in E.
  destruct E as (acc & Hget & Hscroll & -> & Hacc & ->).
  exists w0, acc. rewrite Hh.
  assert (Hs : slice_to max_articles (list_of_set (hash_order w) acc) =
               firstn (Z.to_nat max_articles) (list_of_set (hash_order w) acc)).
  { unfold slice_to. destruct (max_articles <? 0)%Z eqn:Hneg; [| reflexivity].
    apply Z.ltb_lt in Hneg. lia. }
  rewrite Hs.
  pose proof (iter_order_perm (hash_order w) acc) as Hp.
  destruct (list_of_set_ok (hash_order w) Hacc) as [Hn _].
  repeat split; auto.
  - now apply firstn_NoDup.
  - intros x Hx. apply firstn_incl in Hx.
    eapply Permutation_in; [apply Permutation_sym; exact Hp | exact Hx].
  - pose proof (firstn_le_length (Z.to_nat max_articles)
                  (list_of_set (hash_order w) acc)). lia.
Qed.

Lemma collected_links_capped_in_set_order_witness :
  let w := start Scenario.growing_listing reversed_order in
  let base_url := "https://www.setopati.com" in
  let links := ["https://www.setopati.com/social/2"] in
  exists w0 discovered,
    In w0 (attempt_starts (VariantB.get_article_links_body base_url 5) w) /\
    r_raise (oracle w0 (clock w0) (CGet base_url)) = None /\
    let scrolled :=
      VariantB.scroll_for (seq 0 5) set_empty (snd (env_call (CGet base_url) w0)) in
    fst scrolled = Ok (Ok tt, discovered) /\
    snd (VariantB.collect_article_links base_url 1 w) =
      append_event (EvLog INFO (MsgCollected (set_len discovered))) (snd scrolled) /\
    links = firstn (Z.to_nat 1) (list_of_set (hash_order w) discovered) /\
    Permutation discovered (list_of_set (hash_order w) discovered) /\
    NoDup links /\
    incl links discovered /\
    (Z.of_nat (length links) <= 1)%Z.
Proof.
  cbv zeta.
  apply (@collected_links_capped_in_set_order "https://www.setopati.com" 1
           (start Scenario.growing_listing reversed_order)).
  - lia.
  - vm_compute. reflexivity.
Defined.

(** C4 as stated fails: with a set that enumerates its two elements in
    the order opposite to their insertion, the article found first comes
    second in the returned list. *)
Lemma set_order_is_not_discovery_order :
  let w := start Scenario.growing_listing reversed_order in
  let discovered := ["https://www.setopati.com/politics/1";
                     "https://www.setopati.com/social/2"] in
  fst (VariantB.scroll_for (seq 0 5) set_empty
         (snd (env_call (CGet "https://www.setopati.com") w)))
    = Ok (Ok tt, discovered) /\
  fst (VariantB.collect_article_links "https://www.setopati.com" 20 w)
    = Ok (rev discovered) /\
  fst (VariantB.collect_article_links "https://www.setopati.com" 20 w)
    <> Ok (slice_to 20 discovered).
Proof.
  cbv zeta. split; [vm_compute; reflexivity |].
  split; [vm_compute; reflexivity |].
  vm_compute. discriminate.
Qed.

(** C3.  In [scrape_article], whenever the wait for one of the four
    required elements (content container, title, date, category) times out,
    the attempt raises [TimeoutException] and returns no record; and when
    that wait times out every time it is made, the decorated function gives
    up with [RetryError] after its attempts and the orchestrator appends no
    record for the URL. *)
Theorem required_field_timeout_fails_extraction
    (url : string) (loc : locator) (w : world) :
  required loc ->
  (In (timed_out loc) (new_events w (snd (VariantB.scrape_article_body url w))) ->
   fst (VariantB.scrape_article_body url w) = Raise TimeoutException)
  /\
  ((forall t, r_raise (oracle w t (CWaitPresence loc)) = Some TimeoutException) ->
   fst (VariantB.scrape_article url w) = Raise RetryError /\
   forall articles_data,
     fst (VariantB.scrape_for [url] articles_data w) = Ok articles_data).
Proof.
  intros Hreq. split.
  - now apply scrape_article_body_timeout.
  - intros Hstuck.
    pose proof (@scrape_article_stuck url loc w Hreq Hstuck) as Hfail.
    split; [exact Hfail |].
    intros articles_data. cbn [VariantB.scrape_for].
    unfold bind, tried.
    destruct (VariantB.scrape_article url w) as [[a | e] w1]; cbn in Hfail;
      [discriminate | reflexivity].
Qed.

Lemma required_field_timeout_fails_extraction_witness :
  let url := "https://www.setopati.com/politics/1" in
  let w := start (Scenario.article_without (ByCssSelector "h1.news-big-title"))
             insertion_order in
  fst (VariantB.scrape_article_body url w) = Raise TimeoutException /\
  fst (VariantB.scrape_article url w) = Raise RetryError /\
  forall articles_data,
    fst (VariantB.scrape_for [url] articles_data w) = Ok articles_data.
Proof.
  cbv zeta.
  destruct (@required_field_timeout_fails_extraction
              "https://www.setopati.com/politics/1"
              (ByCssSelector "h1.news-big-title")
              (start (Scenario.article_without (ByCssSelector "h1.news-big-title"))
                 insertion_order)) as [H1 H2].
  - right; left; reflexivity.
  - split.
    + apply H1. vm_compute. right; right; left; reflexivity.
    + apply H2. intros t. reflexivity.
Defined.

(** C6, as the code has it.  In a run of [scrape_website]: when
    [scrape_article] has used up its attempts on one of the collected links
    (it raises, and what it raises is [RetryError]), the orchestrator logs
    the failure, keeps the records it has and goes on with the links after
    it, and the frame it returns holds the records of the whole batch.  When
    [get_article_links] has used up its attempts, the orchestrator logs the
    failure of the main process, requests no article, quits the session and
    hands back the empty frame; it raises nothing, and the main block prints
    "Scraped 0 articles successfully!". *)
Theorem exhaustion_skips_article_aborts_collection :
  (forall base_url max_articles w links before url after e,
      fst (VariantB.collect_article_links base_url max_articles w) = Ok links ->
      links = before ++ url :: after ->
      let collected := snd (VariantB.collect_article_links base_url max_articles w) in
      let reached := VariantB.scrape_for before [] collected in
      fst (VariantB.scrape_article url (snd reached)) = Raise e ->
      e = RetryError /\
      exists kept records d,
        fst reached = Ok kept /\
        let skipped :=
          append_event (EvLog ERROR (MsgArticleFailed url RetryError))
            (snd (VariantB.scrape_article url (snd reached))) in
        let rest := VariantB.scrape_for after kept skipped in
        fst rest = Ok records /\
        (exists new, records = kept ++ new) /\
        fst (VariantB.scrape_website base_url max_articles w) = Ok records /\
        trace (snd (VariantB.scrape_website base_url max_articles w)) =
          trace (snd rest) ++ d /\
        requested d = [])
  /\
  (forall base_url max_articles w e,
      fst (VariantB.get_article_links base_url 5 w) = Raise e ->
      let w1 := snd (VariantB.get_article_links base_url 5 w) in
      e = RetryError /\
      fst (VariantB.scrape_website base_url max_articles w) = Ok [] /\
      trace (snd (VariantB.scrape_website base_url max_articles w)) =
        trace w1 ++
        [EvLog ERROR (MsgMainError RetryError);
         EvCall (CQuit (self_driver w1))
           (r_raise (oracle w1 (clock w1) (CQuit (self_driver w1))))])
  /\
  (forall w e,
      fst (VariantB.setup_driver w) = Ok tt ->
      let w0 := snd (VariantB.setup_driver w) in
      fst (VariantB.get_article_links "https://www.setopati.com" 5 w0) = Raise e ->
      let w1 := snd (VariantB.get_article_links "https://www.setopati.com" 5 w0) in
      fst (VariantB.main w) = Ok tt /\
      trace (snd (VariantB.main w)) =
        trace w1 ++
        [EvLog ERROR (MsgMainError RetryError);
         EvCall (CQuit (self_driver w1))
           (r_raise (oracle w1 (clock w1) (CQuit (self_driver w1))));
         EvPrint (MsgScrapedCount 0)]).
Proof.
  assert (Hcoll : forall base_url max_articles w e,
      fst (VariantB.get_article_links base_url 5 w) = Raise e ->
      let w1 := snd (VariantB.get_article_links base_url 5 w) in
      e = RetryError /\
      fst (VariantB.scrape_website base_url max_articles w) = Ok [] /\
      trace (snd (VariantB.scrape_website base_url max_articles w)) =
        trace w1 ++
        [EvLog ERROR (MsgMainError RetryError);
         EvCall (CQuit (self_driver w1))
           (r_raise (oracle w1 (clock w1) (CQuit (self_driver w1))))]).
  { intros base_url max_articles w e He w1. subst w1.
    pose proof (retry_raises _ _ He) as ->. split; [reflexivity |].
    unfold VariantB.scrape_website, try_finally, try_except,
      VariantB.collect_article_links.
    rewrite !bind_run.
    destruct (VariantB.get_article_links base_url 5 w) as [[a | e] w1]; cbn in He;
      [discriminate |].
    inversion He; subst. cbn [snd].
    unfold bind at 1. unfold logging_error, emit, ret.
    cbn. rewrite !quit_quietly_run. cbn. rewrite <- app_assoc. split; reflexivity. }
  split; [| split; [exact Hcoll |]].
  - intros base_url max_articles w links before url after e Hlinks Hsplit
      collected reached He.
    pose proof (retry_raises _ _ He) as ->. split; [reflexivity |].
    assert (Hne : links <> []) by (subst links; destruct before; discriminate).
    destruct (@scrape_website_after_collection base_url max_articles w links
                Hlinks Hne) as (records & d & Hbatch & Hok & Htrace & Hreq).
    fold collected in Hbatch, Htrace.
    rewrite Hsplit, scrape_for_app in Hbatch, Htrace. fold reached in Hbatch, Htrace.
    destruct (scrape_for_new before [] collected) as (kept & Hkept & _).
    fold reached in Hkept. cbn [app] in Hkept.
    exists kept, records, d. split; [exact Hkept |]. cbv zeta.
    destruct reached as [r w2]; cbn [fst snd] in *. subst r.
    cbn [VariantB.scrape_for] in Hbatch, Htrace.
    rewrite bind_run in Hbatch, Htrace. unfold tried in Hbatch, Htrace.
    destruct (VariantB.scrape_article url w2) as [[a | e] w3]; cbn [fst snd] in *;
      [discriminate |].
    inversion He; subst e.
    unfold bind at 1 in Hbatch. unfold bind at 1 in Htrace.
    unfold logging_error, emit in Hbatch, Htrace.
    split; [exact Hbatch |]. split; [| repeat split; assumption].
    match type of Hbatch with fst (VariantB.scrape_for ?l ?acc ?w0) = _ =>
      destruct (scrape_for_new l acc w0) as (new & Hnew & _) end.
    exists new. rewrite Hbatch in Hnew. now inversion Hnew.
  - intros w e Hinit w0 He w1.
    destruct (@main_after_init w Hinit) as (df & Hdf & Hmain & Htrace).
    fold w0 in Hdf, Htrace.
    destruct (Hcoll "https://www.setopati.com" 20%Z w0 e He) as (-> & Hnil & Ht).
    fold w1 in Ht. rewrite Hnil in Hdf. inversion Hdf; subst df.
    split; [exact Hmain |]. rewrite Htrace, Ht, <- app_assoc. reflexivity.
Qed.

Lemma exhaustion_skips_article_aborts_collection_witness :
  let base_url := "https://www.setopati.com" in
  let url := "https://www.setopati.com/a/1" in
  let next := "https://www.setopati.com/a/2" in
  let wa := start Case.first_article_undated insertion_order in
  let wl := start Scenario.listing_down insertion_order in
  (let collected := snd (VariantB.collect_article_links base_url 20 wa) in
   let reached := VariantB.scrape_for [] [] collected in
   exists kept records d,
     fst reached = Ok kept /\
     let skipped :=
       append_event (EvLog ERROR (MsgArticleFailed url RetryError))
         (snd (VariantB.scrape_article url (snd reached))) in
     let rest := VariantB.scrape_for [next] kept skipped in
     fst rest = Ok records /\
     (exists new, records = kept ++ new) /\
     fst (VariantB.scrape_website base_url 20 wa) = Ok records /\
     trace (snd (VariantB.scrape_website base_url 20 wa)) = trace (snd rest) ++ d /\
     requested d = [])
  /\
  (let w1 := snd (VariantB.get_article_links base_url 5 wl) in
   fst (VariantB.scrape_website base_url 20 wl) = Ok [] /\
   trace (snd (VariantB.scrape_website base_url 20 wl)) =
     trace w1 ++
     [EvLog ERROR (MsgMainError RetryError);
      EvCall (CQuit (self_driver w1))
        (r_raise (oracle w1 (clock w1) (CQuit (self_driver w1))))])
  /\
  (let w1 := snd (VariantB.get_article_links base_url 5
                    (snd (VariantB.setup_driver wl))) in
   fst (VariantB.main wl) = Ok tt /\
   trace (snd (VariantB.main wl)) =
     trace w1 ++
     [EvLog ERROR (MsgMainError RetryError);
      EvCall (CQuit (self_driver w1))
        (r_raise (oracle w1 (clock w1) (CQuit (self_driver w1))));
      EvPrint (MsgScrapedCount 0)]).
Proof.
  cbv zeta.
  destruct exhaustion_skips_article_aborts_collection as (H1 & H2 & H3).
  split; [| split].
  - apply (H1 "https://www.setopati.com" 20%Z
             (start Case.first_article_undated insertion_order)
             ["https://www.setopati.com/a/1"; "https://www.setopati.com/a/2"]
             [] "https://www.setopati.com/a/1" ["https://www.setopati.com/a/2"]
             RetryError).
    + vm_compute. reflexivity.
    + reflexivity.
    + vm_compute. reflexivity.
  - apply (H2 "https://www.setopati.com" 20%Z
             (start Scenario.listing_down insertion_order) RetryError).
    vm_compute. reflexivity.
  - apply (H3 (start Scenario.listing_down insertion_order) RetryError).
    + vm_compute. reflexivity.
    + vm_compute. reflexivity.
Defined.

(** C6 as stated fails: the end of the run after an exhausted link
    collection is not a fatal one.  With a listing that cannot be loaded,
    [get_article_links] gives up with [RetryError], and the run returns
    normally and reports success, with no article. *)
Lemma collection_exhaustion_is_reported_as_success :
  let w := start Scenario.listing_down insertion_order in
  fst (VariantB.setup_driver w) = Ok tt /\
  fst (VariantB.get_article_links "https://www.setopati.com" 5
         (snd (VariantB.setup_driver w))) = Raise RetryError /\
  fst (VariantB.main w) = Ok tt /\
  last (trace (snd (VariantB.main w))) (EvSleep 0) = EvPrint (MsgScrapedCount 0) /\
  ~ reported_failure (trace (snd (VariantB.main w))).
Proof.
  cbv zeta.
  split; [vm_compute; reflexivity |].
  split; [vm_compute; reflexivity |].
  split; [vm_compute; reflexivity |].
  split; [vm_compute; reflexivity |].
  unfold reported_failure. vm_compute. intros (e & H).
  repeat (destruct H as [H | H]; [discriminate |]). exact H.
Qed.

(** C7, as the code has it.  Variant B: a URL whose [scrape_article]
    raised (after its attempts) gets no record in the result of the batch,
    and the failure is logged with its cause.  Variant A has no retries: a
    teaser whose article cannot be reached ([driver.get] raises) is dropped
    with a printed cause, but when the article is reached and reading its
    page raises, [scrape_article_content] prints the cause, returns [None],
    and the record is appended all the same, with no content. *)
Theorem failed_extraction_record_or_drop :
  (forall pre url post w e,
      fst (VariantB.scrape_article url (snd (VariantB.scrape_for pre [] w)))
        = Raise e ->
      ~ In url pre -> ~ In url post ->
      exists records,
        fst (VariantB.scrape_for (pre ++ url :: post) [] w) = Ok records /\
        (forall r, In r records -> VariantB.url r <> url) /\
        In (EvLog ERROR (MsgArticleFailed url e))
           (trace (snd (VariantB.scrape_for (pre ++ url :: post) [] w))))
  /\
  (forall base_url driver article rest all_articles w title_tag teaser href e,
      VariantA.teaser_fields article = Ok (title_tag, teaser, href) ->
      r_raise (oracle w (clock w) (CGet (target base_url href))) = Some e ->
      VariantA.articles_for base_url driver (article :: rest) all_articles w =
      VariantA.articles_for base_url driver rest all_articles
        (append_event (EvPrint (MsgErrorScraping e))
           (tick (append_event (EvCall (CGet (target base_url href)) (Some e))
                    (announced base_url href w)))))
  /\
  (forall base_url driver article rest all_articles w title_tag teaser href e,
      VariantA.teaser_fields article = Ok (title_tag, teaser, href) ->
      r_raise (oracle w (clock w) (CGet (target base_url href))) = None ->
      r_raise (oracle w (S (clock w)) CPageSource) = Some e ->
      VariantA.articles_for base_url driver (article :: rest) all_articles w =
      VariantA.articles_for base_url driver rest
        (all_articles ++
         [{| VariantA.title := strip (get_text title_tag);
             VariantA.teaser := teaser;
             VariantA.link := target base_url href;
             VariantA.content := None |}])
        (append_event (EvPrint (MsgErrorLoading e))
           (tick (append_event (EvCall CPageSource (Some e))
              (append_event (EvSleep 2)
                 (tick (append_event (EvCall (CGet (target base_url href)) None)
                          (announced base_url href w)))))))).
Proof.
  split; [| split].
  - intros pre url post w e He Hpre Hpost.
    rewrite scrape_for_app.
    destruct (scrape_for_new pre [] w) as (new1 & H1 & Hin1).
    destruct (VariantB.scrape_for pre [] w) as [r1 w1]. cbn [fst snd app] in H1, He.
    subst r1.
    cbn [VariantB.scrape_for app]. rewrite bind_run. unfold tried.
    destruct (VariantB.scrape_article url w1) as [[a | e0] w2]; cbn [fst] in He;
      [discriminate |].
    inversion He; subst. unfold bind, logging_error, emit.
    match goal with |- context [VariantB.scrape_for post ?acc ?w0] =>
      destruct (scrape_for_new post acc w0) as (new2 & H2 & Hin2);
      pose proof (@scrape_for_keeps_trace post acc w0
                    (EvLog ERROR (MsgArticleFailed url e))) as Hlog
    end.
    exists (new1 ++ new2). split; [exact H2 | split].
    + intros r Hr Hu. apply in_app_or in Hr. destruct Hr as [Hr | Hr].
      * apply Hpre. rewrite <- Hu. now apply Hin1.
      * apply Hpost. rewrite <- Hu. now apply Hin2.
    + apply Hlog. cbn. apply in_or_app. right. now left.
  - intros base_url driver article rest all_articles w title_tag teaser href e Hf Hget.
    rewrite articles_for_step, (@scrape_teaser_run _ _ _ _ _ _ _ Hf).
    destruct (announced_clock base_url href w) as (Hc & Ho & _).
    rewrite scrape_article_content_unreachable with (e := e)
      by (rewrite Hc, Ho; exact Hget).
    reflexivity.
  - intros base_url driver article rest all_articles w title_tag teaser href e
      Hf Hget Hsrc.
    rewrite articles_for_step, (@scrape_teaser_run _ _ _ _ _ _ _ Hf).
    destruct (announced_clock base_url href w) as (Hc & Ho & _).
    rewrite scrape_article_content_unreadable with (e := e)
      by (rewrite Hc, Ho; assumption).
    reflexivity.
Qed.

Lemma failed_extraction_record_or_drop_witness :
  let url := "https://www.setopati.com/politics/1" in
  let next := "https://www.setopati.com/social/2" in
  let wb := start (Scenario.article_without (ByCssSelector "span.news-time"))
              insertion_order in
  let block := Scenario.teaser_block "/news/1" "Story" "Summary" in
  let anchor := NTag "a" [] [("href", "/news/1")] [NText "Story"] in
  let base := "https://ekantipur.com" in
  let w1 := start Scenario.unreachable_article insertion_order in
  let w2 := start Scenario.unreadable_article insertion_order in
  (exists records,
      fst (VariantB.scrape_for ([] ++ url :: [next]) [] wb) = Ok records /\
      (forall r, In r records -> VariantB.url r <> url) /\
      In (EvLog ERROR (MsgArticleFailed url RetryError))
         (trace (snd (VariantB.scrape_for ([] ++ url :: [next]) [] wb))))
  /\
  VariantA.articles_for base 1 [block] [] w1 =
    VariantA.articles_for base 1 [] []
      (append_event (EvPrint (MsgErrorScraping WebDriverException))
         (tick (append_event
                  (EvCall (CGet (target base "/news/1")) (Some WebDriverException))
                  (announced base "/news/1" w1))))
  /\
  VariantA.articles_for base 1 [block] [] w2 =
    VariantA.articles_for base 1 []
      ([] ++ [{| VariantA.title := strip (get_text anchor);
                 VariantA.teaser := "Summary";
                 VariantA.link := target base "/news/1";
                 VariantA.content := None |}])
      (append_event (EvPrint (MsgErrorLoading WebDriverException))
         (tick (append_event (EvCall CPageSource (Some WebDriverException))
            (append_event (EvSleep 2)
               (tick (append_event (EvCall (CGet (target base "/news/1")) None)
                        (announced base "/news/1" w2))))))).
Proof.
  cbv zeta.
  destruct failed_extraction_record_or_drop as (HB & HA1 & HA2).
  split; [| split].
  - apply HB.
    + vm_compute. reflexivity.
    + intros [].
    + intros [H | []]. discriminate.
  - apply (HA1 "https://ekantipur.com" 1
             (Scenario.teaser_block "/news/1" "Story" "Summary") [] []
             (start Scenario.unreachable_article insertion_order)
             (NTag "a" [] [("href", "/news/1")] [NText "Story"])
             "Summary" "/news/1" WebDriverException); reflexivity.
  - apply (HA2 "https://ekantipur.com" 1
             (Scenario.teaser_block "/news/1" "Story" "Summary") [] []
             (start Scenario.unreadable_article insertion_order)
             (NTag "a" [] [("href", "/news/1")] [NText "Story"])
             "Summary" "/news/1" WebDriverException); reflexivity.
Defined.

(** C7 as stated fails in variant A: the page of the article is reached,
    reading it raises, and the output still holds a record for that URL,
    without content. *)
Lemma unreadable_article_still_recorded :
  let run := VariantA.scrape_articles "https://ekantipur.com"
               "https://ekantipur.com/news" 2
               (start Scenario.unreadable_article insertion_order) in
  In (EvCall CPageSource (Some WebDriverException)) (trace (snd run)) /\
  fst run = Ok [{| VariantA.title := "Story";
                   VariantA.teaser := "Summary";
                   VariantA.link := "https://ekantipur.com/news/1";
                   VariantA.content := None |}] /\
  ~ (forall records, fst run = Ok records ->
       forall r, In r records ->
         VariantA.link r <> "https://ekantipur.com/news/1").
Proof.
  cbv zeta. split; [| split].
  - vm_compute. do 7 right. left. reflexivity.
  - vm_compute. reflexivity.
  - intros H. eapply H.
    + vm_compute. reflexivity.
    + left. reflexivity.
    + reflexivity.
Qed.

(** C10.  In variant A the URL fetched for a teaser is its link with the
    base URL in front when the link starts with a slash, and its link
    exactly as found otherwise.  Every teaser block whose fields can be read
    is fetched that way, once and in listing order, whatever its host: the
    URLs requested by a run are the listing followed by the targets of the
    readable teasers, and every record carries its target as link. *)
Theorem teaser_links_completed_never_filtered :
  (forall base_url href,
      startswith "/" href = true -> target base_url href = (base_url ++ href)%string)
  /\
  (forall base_url href,
      startswith "/" href = false -> target base_url href = href)
  /\
  (forall base_url driver articles all_articles w,
      exists d new,
        trace (snd (VariantA.articles_for base_url driver articles all_articles w))
          = trace w ++ d /\
        requested d = map (target base_url) (readable_hrefs articles) /\
        fst (VariantA.articles_for base_url driver articles all_articles w)
          = Ok (all_articles ++ new) /\
        incl (map VariantA.link new) (map (target base_url) (readable_hrefs articles)))
  /\
  (forall base_url news_url max_articles w,
      r_raise (oracle w (clock w) CChrome) = None ->
      r_raise (oracle w (S (clock w)) (CGet news_url)) = None ->
      r_raise (oracle w (S (S (clock w))) CPageSource) = None ->
      requested (new_events w
                   (snd (VariantA.scrape_articles base_url news_url max_articles w)))
      = news_url ::
        map (target base_url)
          (readable_hrefs
             (find_all "div" (Some "teaser offset") max_articles
                (r_page (oracle w (S (S (clock w))) CPageSource))))).
Proof.
  split; [| split; [| split]].
  - intros base_url href H. unfold target. now rewrite H.
  - intros base_url href H. unfold target. now rewrite H.
  - intros. apply articles_for_requests.
  - intros base_url news_url max_articles w H1 H2 H3.
    unfold VariantA.scrape_articles, VariantA.setup_driver.
    rewrite bind_run, bind_run, env_call_ok by exact H1.
    unfold new_session at 1. cbv beta iota.
    rewrite bind_run, env_call_ok by exact H2.
    unfold try_finally.
    rewrite bind_run. unfold sleep at 1. unfold emit at 1.
    rewrite bind_run, env_call_ok by exact H3.
    cbn [oracle clock sessions tick append_event].
    match goal with |- context [VariantA.articles_for ?b ?dr ?arts ?acc ?w0] =>
      destruct (articles_for_requests b dr arts acc w0) as (d & new & Hd & Hr & _);
      destruct (VariantA.articles_for b dr arts acc w0) as [r w1]
    end.
    cbn in Hd. rewrite <- !app_assoc in Hd. cbn [app] in Hd.
    rewrite (@new_events_app _ _
               ([EvCall CChrome None; EvCall (CGet news_url) None; EvSleep 2;
                 EvCall CPageSource None] ++ d ++
                [EvCall (CQuit (S (sessions w)))
                   (r_raise (oracle w1 (clock w1) (CQuit (S (sessions w)))))])).
    2:{ unfold bind, env_call, ret.
        destruct (r_raise (oracle w1 (clock w1) (CQuit (S (sessions w))))); cbn;
          rewrite Hd, <- !app_assoc; reflexivity. }
    rewrite !requested_app, Hr. cbn. now rewrite app_nil_r.
Qed.

Lemma teaser_links_completed_never_filtered_witness :
  requested (new_events (start Scenario.same_story_twice insertion_order)
               (snd (VariantA.scrape_articles "https://ekantipur.com"
                       "https://ekantipur.com/news" 2
                       (start Scenario.same_story_twice insertion_order))))
  = "https://ekantipur.com/news" ::
    map (target "https://ekantipur.com")
      (readable_hrefs
         (find_all "div" (Some "teaser offset") 2
            (r_page (oracle (start Scenario.same_story_twice insertion_order)
                       (S (S (clock (start Scenario.same_story_twice insertion_order))))
                       CPageSource)))).
Proof.
  apply (proj2 (proj2 (proj2 teaser_links_completed_never_filtered)));
    reflexivity.
Defined.

(** C9, as the code has it.  Variant A: when the article page is reached
    and read and has its content container, the extracted content is the
    texts of the paragraph nodes inside the container, each trimmed of
    leading and trailing whitespace, joined by single spaces.  Variant B:
    the content of a record is the text the browser reports for the located
    content container as a whole; paragraphs play no part. *)
Theorem body_text_joined_paragraphs_or_container_text :
  (forall driver url w section,
      r_raise (oracle w (clock w) (CGet url)) = None ->
      r_raise (oracle w (S (clock w)) CPageSource) = None ->
      article_section (r_page (oracle w (S (clock w)) CPageSource)) = Some section ->
      exists texts,
        Forall2 is_trim_of (map get_text (paragraphs_inside section)) texts /\
        fst (VariantA.scrape_article_content driver url w)
          = Ok (Some (joined_by_single_spaces texts)))
  /\
  (forall url w r,
      fst (VariantB.scrape_article url w) = Ok r ->
      exists t,
        r_raise (oracle w t (CWaitPresence (ByClassName "news-content"))) = None /\
        text (r_element (oracle w t (CWaitPresence (ByClassName "news-content"))))
          = Ok (VariantB.content r)).
Proof.
  split.
  - intros driver url w section H1 H2 Hsec.
    exists (map (fun p => strip (get_text p)) (paragraphs_inside section)).
    split; [apply trimmed_paragraphs |].
    rewrite (@scrape_article_content_read driver url w H1 H2), Hsec.
    cbn [fst]. now rewrite find_all_paragraphs, join_single_spaces.
  - intros url w r H. eapply scrape_article_content_source. exact H.
Qed.

Lemma body_text_joined_paragraphs_or_container_text_witness :
  let wa := start (Scenario.article_page Scenario.two_paragraphs) insertion_order in
  let section :=
    NTag "div" ["description"; "current-news-block"; "portrait"] []
      [NTag "p" [] [] [NText "  First paragraph. "];
       NTag "span" [] [] [NText "not a paragraph"];
       NTag "p" [] [] [NText "Second "; NTag "b" [] [] [NText "one"]; NText "."]] in
  let wb := start Scenario.plain_article insertion_order in
  let r := {| VariantB.url := "https://www.setopati.com/politics/1";
              VariantB.title := "text"; VariantB.date := "text";
              VariantB.content := "Breaking news"; VariantB.category := "text";
              VariantB.author := "text" |} in
  (exists texts,
      Forall2 is_trim_of (map get_text (paragraphs_inside section)) texts /\
      fst (VariantA.scrape_article_content 1 "https://ekantipur.com/news/1" wa)
        = Ok (Some (joined_by_single_spaces texts)))
  /\
  (exists t,
      r_raise (oracle wb t (CWaitPresence (ByClassName "news-content"))) = None /\
      text (r_element (oracle wb t (CWaitPresence (ByClassName "news-content"))))
        = Ok (VariantB.content r)).
Proof.
  cbv zeta. split.
  - apply (proj1 body_text_joined_paragraphs_or_container_text 1
             "https://ekantipur.com/news/1"
             (start (Scenario.article_page Scenario.two_paragraphs) insertion_order));
      reflexivity.
  - apply (proj2 body_text_joined_paragraphs_or_container_text
             "https://www.setopati.com/politics/1"
             (start Scenario.plain_article insertion_order)).
    vm_compute. reflexivity.
Defined.

Example two_paragraphs_content :
  fst (VariantA.scrape_article_content 1 "https://ekantipur.com/news/1"
         (start (Scenario.article_page Scenario.two_paragraphs) insertion_order))
  = Ok (Some "First paragraph. Second one.").
Proof. vm_compute. reflexivity. Qed.

(** Unicode white space is trimmed like any other, and the text of a
    script, of a style sheet and of a comment inside a paragraph is no part
    of the text of the paragraph. *)
Example padded_paragraphs_content :
  fst (VariantA.scrape_article_content 1 "https://ekantipur.com/news/1"
         (start (Scenario.article_page Case.padded_paragraphs) insertion_order))
  = Ok (Some "First second.").
Proof. vm_compute. reflexivity. Qed.

(** C9 as stated fails in variant B: for a container that holds its text
    directly, the content of the record is that text, while the paragraphs
    inside the container, trimmed and joined, give the empty string. *)
Lemma container_text_is_not_joined_paragraphs :
  let w := start Scenario.plain_article insertion_order in
  exists r t,
    fst (VariantB.scrape_article "https://www.setopati.com/politics/1" w) = Ok r /\
    r_element (oracle w t (CWaitPresence (ByClassName "news-content")))
      = {| text := Ok "Breaking news"; href := Ok None;
           dom := Scenario.plain_container |} /\
    VariantB.content r = "Breaking news" /\
    join " " (map (fun p => strip (get_text p))
                (paragraphs_inside Scenario.plain_container)) = "" /\
    VariantB.content r <>
      join " " (map (fun p => strip (get_text p))
                  (paragraphs_inside Scenario.plain_container)).
Proof.
  cbv zeta. eexists. exists 1.
  split; [vm_compute; reflexivity |].
  split; [reflexivity |]. split; [reflexivity |]. split; [reflexivity |].
  cbn. discriminate.
Qed.

(** C2, as the code has it.  Variant A: when the article page is reached
    and read and has no content container, [scrape_article_content] returns
    [None] and the record of the teaser is produced all the same, with its
    title, teaser and link and with no content.  Variant B: the content
    container is the first element waited for; when it never appears, every
    attempt times out, [scrape_article] gives up with [RetryError], and the
    orchestrator appends no record. *)
Theorem missing_container_none_or_failure :
  (forall base_url driver article w title_tag teaser href,
      VariantA.teaser_fields article = Ok (title_tag, teaser, href) ->
      r_raise (oracle w (clock w) (CGet (target base_url href))) = None ->
      r_raise (oracle w (S (clock w)) CPageSource) = None ->
      article_section (r_page (oracle w (S (clock w)) CPageSource)) = None ->
      fst (VariantA.scrape_article_content driver (target base_url href)
             (announced base_url href w)) = Ok None /\
      fst (VariantA.scrape_teaser base_url driver article w) =
        Ok {| VariantA.title := strip (get_text title_tag);
              VariantA.teaser := teaser;
              VariantA.link := target base_url href;
              VariantA.content := None |})
  /\
  (forall url w,
      (forall t, r_raise (oracle w t (CWaitPresence (ByClassName "news-content")))
                 = Some TimeoutException) ->
      fst (VariantB.scrape_article url w) = Raise RetryError /\
      forall articles_data,
        fst (VariantB.scrape_for [url] articles_data w) = Ok articles_data).
Proof.
  split.
  - intros base_url driver article w title_tag teaser href Hf H1 H2 Hsec.
    destruct (announced_clock base_url href w) as (Hc & Ho & _).
    assert (Hrun : fst (VariantA.scrape_article_content driver (target base_url href)
                          (announced base_url href w)) = Ok None).
    { rewrite scrape_article_content_read by (rewrite Hc, Ho; assumption).
      rewrite Hc, Ho, Hsec. reflexivity. }
    split; [exact Hrun |].
    rewrite (@scrape_teaser_run _ _ _ _ _ _ _ Hf).
    destruct (VariantA.scrape_article_content driver (target base_url href)
                (announced base_url href w)) as [[c | e] w1]; cbn in Hrun;
      inversion Hrun; subst. reflexivity.
  - intros url w Hstuck.
    assert (Hfail : fst (VariantB.scrape_article url w) = Raise RetryError).
    { eapply scrape_article_stuck; [left; reflexivity | exact Hstuck]. }
    split; [exact Hfail |].
    intros articles_data. cbn [VariantB.scrape_for]. unfold bind, tried.
    destruct (VariantB.scrape_article url w) as [[a | e] w1]; cbn in Hfail;
      [discriminate | reflexivity].
Qed.

Lemma missing_container_none_or_failure_witness :
  let base := "https://ekantipur.com" in
  let block := Scenario.teaser_block "/news/1" "Story" "Summary" in
  let anchor := NTag "a" [] [("href", "/news/1")] [NText "Story"] in
  let wa := start (Scenario.article_page Scenario.no_container) insertion_order in
  let url := "https://www.setopati.com/politics/1" in
  let wb := start (Scenario.article_without (ByClassName "news-content"))
              insertion_order in
  (fst (VariantA.scrape_article_content 1 (target base "/news/1")
          (announced base "/news/1" wa)) = Ok None /\
   fst (VariantA.scrape_teaser base 1 block wa) =
     Ok {| VariantA.title := strip (get_text anchor);
           VariantA.teaser := "Summary";
           VariantA.link := target base "/news/1";
           VariantA.content := None |})
  /\
  (fst (VariantB.scrape_article url wb) = Raise RetryError /\
   forall articles_data,
     fst (VariantB.scrape_for [url] articles_data wb) = Ok articles_data).
Proof.
  cbv zeta. split.
  - apply (proj1 missing_container_none_or_failure "https://ekantipur.com" 1
             (Scenario.teaser_block "/news/1" "Story" "Summary")
             (start (Scenario.article_page Scenario.no_container) insertion_order)
             (NTag "a" [] [("href", "/news/1")] [NText "Story"])
             "Summary" "/news/1"); reflexivity.
  - apply (proj2 missing_container_none_or_failure).
    intros t. reflexivity.
Defined.

(** C2 as stated fails in variant B: on a page where title, date and
    category are there and only the content container is missing, the
    attempt raises [TimeoutException], the decorated function gives up, and
    no record comes out. *)
Lemma missing_container_fails_variant_b :
  let url := "https://www.setopati.com/politics/1" in
  let w := start (Scenario.article_without (ByClassName "news-content"))
             insertion_order in
  (forall t, r_raise (oracle w t (CWaitPresence (ByCssSelector "h1.news-big-title")))
             = None) /\
  (forall t, r_raise (oracle w t (CWaitPresence (ByCssSelector "span.news-time")))
             = None) /\
  (forall t, r_raise (oracle w t (CWaitPresence (ByCssSelector "div.breadcrumb")))
             = None) /\
  fst (VariantB.scrape_article_body url w) = Raise TimeoutException /\
  fst (VariantB.scrape_article url w) = Raise RetryError /\
  fst (VariantB.scrape_for [url] [] w) = Ok [].
Proof.
  cbv zeta. repeat split; try (intros t; reflexivity); vm_compute; reflexivity.
Qed.

(* ================================================================== *)
(** ** Further properties of variant B                                 *)
(* ================================================================== *)

Ltac footprint_leaf :=
  constructor; [cbn; rewrite ?String.eqb_refl; reflexivity | constructor].

Lemma lifecycle_of_restart (e : event) : is_restart e = true -> is_lifecycle e = true.
Proof.
  destruct e as [[] | | [] [] |]; cbn; congruence.
Qed.

Lemma restart_driver_lifecycle : respects (only is_lifecycle) VariantB.restart_driver.
Proof.
  eapply respects_weaken; [| apply restart_driver_restart].
  intros d. apply only_weaken. apply lifecycle_of_restart.
Qed.

Lemma scrape_article_body_footprint (url : string) :
  respects (only (of_scrape_article url)) (VariantB.scrape_article_body url).
Proof.
  assert (Hr : respects (only (of_scrape_article url)) VariantB.restart_driver).
  { eapply respects_weaken; [| apply restart_driver_lifecycle].
    intros d. apply only_weaken. intros e He. unfold of_scrape_article.
    now rewrite He. }
  unfold VariantB.scrape_article_body, VariantB.scrape_article_try,
    VariantB.scrape_article_except, VariantB.wait_presence.
  respects_go; footprint_leaf.
Qed.

Lemma scrape_article_footprint (url : string) :
  respects (only (of_scrape_article url)) (VariantB.scrape_article url).
Proof.
  apply retry_respects; [exact _ | apply scrape_article_body_footprint |].
  intros s. footprint_leaf.
Qed.

Lemma scroll_for_footprint (url : string) (scrolls : list nat) :
  forall article_links,
    respects (only (of_get_article_links url))
      (VariantB.scroll_for scrolls article_links).
Proof.
  induction scrolls as [| scroll rest IH]; intros article_links; cbn.
  - respects_go.
  - unfold VariantB.scroll_try. respects_go; footprint_leaf.
Qed.

Lemma get_article_links_body_footprint (url : string) (max_scrolls : nat) :
  respects (only (of_get_article_links url))
    (VariantB.get_article_links_body url max_scrolls).
Proof.
  assert (Hr : respects (only (of_get_article_links url)) VariantB.restart_driver).
  { eapply respects_weaken; [| apply restart_driver_lifecycle].
    intros d. apply only_weaken. intros e He. unfold of_get_article_links.
    now rewrite He. }
  pose proof (scroll_for_footprint url (seq 0 max_scrolls) set_empty).
  unfold VariantB.get_article_links_body, VariantB.get_article_links_try,
    VariantB.get_article_links_except.
  respects_go; footprint_leaf.
Qed.

Lemma get_article_links_footprint (url : string) (max_scrolls : nat) :
  respects (only (of_get_article_links url))
    (VariantB.get_article_links url max_scrolls).
Proof.
  apply retry_respects; [exact _ | apply get_article_links_body_footprint |].
  intros s. footprint_leaf.
Qed.

(** X1: what the two decorated methods never do.  Whatever the browser
    answers and however often they retry, [scrape_article url] requests no
    URL but [url], runs no script, saves nothing, prints nothing and never
    logs the orchestrator's "Failed to scrape article"; and
    [get_article_links url] requests no URL but [url], waits for no article
    element and logs nothing about articles. *)
Theorem decorated_methods_footprint (url : string) (max_scrolls : nat) (w : world) :
  (exists d,
      trace (snd (VariantB.scrape_article url w)) = trace w ++ d /\
      Forall (fun e => of_scrape_article url e = true) d) /\
  (exists d,
      trace (snd (VariantB.get_article_links url max_scrolls w)) = trace w ++ d /\
      Forall (fun e => of_get_article_links url e = true) d).
Proof.
  split.
  - destruct (scrape_article_footprint url w) as (_ & _ & d & Hd & Ho). eauto.
  - destruct (get_article_links_footprint url max_scrolls w) as (_ & _ & d & Hd & Ho).
    eauto.
Qed.

Lemma only_not_get_requested (d : list event) : only not_get d -> requested d = [].
Proof.
  induction 1 as [| e d He _ IH]; [reflexivity |].
  unfold requested in *. cbn [flat_map]. rewrite IH, app_nil_r.
  unfold not_get in He.
  destruct e as [[] | | |]; try reflexivity. discriminate.
Qed.

Lemma retry_requests A (f : M A) (url : string) :
  (forall w, exists d, trace (snd (f w)) = trace w ++ d /\ requested d = [url]) ->
  forall w, exists d k,
    trace (snd (retry f w)) = trace w ++ d /\
    requested d = repeat url k /\ 1 <= k <= 3.
Proof.
  intros Hf w. rewrite retry_unrolled.
  destruct (Hf w) as (d1 & Hd1 & Hr1).
  destruct (f w) as [[a | e1] w1]; cbn [snd] in *.
  { exists d1, 1. repeat split; auto. }
  destruct (Hf (append_event (EvSleep 4) w1)) as (d2 & Hd2 & Hr2).
  destruct (f (append_event (EvSleep 4) w1)) as [[a | e2] w2]; cbn [snd] in *.
  { exists (d1 ++ [EvSleep 4] ++ d2), 2. cbn in Hd2.
    rewrite Hd2, Hd1, !requested_app, Hr1, Hr2, <- !app_assoc.
    repeat split; auto. }
  destruct (Hf (append_event (EvSleep 4) w2)) as (d3 & Hd3 & Hr3).
  assert (Hall : trace (snd (f (append_event (EvSleep 4) w2))) =
                 trace w ++ d1 ++ [EvSleep 4] ++ d2 ++ [EvSleep 4] ++ d3).
  { cbn in Hd2, Hd3. rewrite Hd3, Hd2, Hd1, <- !app_assoc. reflexivity. }
  exists (d1 ++ [EvSleep 4] ++ d2 ++ [EvSleep 4] ++ d3), 3.
  destruct (f (append_event (EvSleep 4) w2)) as [[a | e3] w3]; cbn [snd] in *;
    rewrite Hall, !requested_app, Hr1, Hr2, Hr3; repeat split; auto.
Qed.

Lemma restart_driver_not_get : respects (only not_get) VariantB.restart_driver.
Proof.
  eapply respects_weaken; [| apply restart_driver_restart].
  intros d. apply only_weaken. intros [[] | | [] [] |]; cbn; congruence.
Qed.

Lemma env_call_trace (c : call) (w : world) :
  trace (snd (env_call c w)) =
  trace w ++ [EvCall c (r_raise (oracle w (clock w) c))].
Proof. unfold env_call. destruct (r_raise _); reflexivity. Qed.

Lemma scrape_article_body_requests (url : string) (w : world) :
  exists d,
    trace (snd (VariantB.scrape_article_body url w)) = trace w ++ d /\
    requested d = [url].
Proof.
  pose proof restart_driver_not_get as Hr.
  assert (Hh : forall e, respects (only not_get) (VariantB.scrape_article_except url e)).
  { intros e. unfold VariantB.scrape_article_except. respects_go; only_leaf. }
  unfold VariantB.scrape_article_body, try_except, VariantB.scrape_article_try.
  rewrite bind_run. pose proof (env_call_trace (CGet url) w) as Hg.
  destruct (env_call (CGet url) w) as [[r0 | e0] w0]; cbn [snd] in Hg.
  - match goal with |- context [bind ?m ?k w0] =>
      assert (Hrest : respects (only not_get) (bind m k))
    end.
    { unfold VariantB.wait_presence. respects_go; only_leaf. }
    match goal with |- context [bind ?m ?k w0] =>
      destruct (Hrest w0) as (_ & _ & d1 & Hd1 & Ho1);
      destruct (bind m k w0) as [[a | e] w1]
    end; cbn [snd] in *.
    + eexists. rewrite Hd1, Hg, <- app_assoc. split; [reflexivity |].
      rewrite requested_app, (only_not_get_requested Ho1). reflexivity.
    + destruct (Hh e w1) as (_ & _ & d2 & Hd2 & Ho2).
      eexists. rewrite Hd2, Hd1, Hg, <- !app_assoc. split; [reflexivity |].
      rewrite !requested_app, (only_not_get_requested Ho1),
        (only_not_get_requested Ho2). reflexivity.
  - destruct (Hh e0 w0) as (_ & _ & d2 & Hd2 & Ho2).
    eexists. rewrite Hd2, Hg, <- !app_assoc. split; [reflexivity |].
    rewrite !requested_app, (only_not_get_requested Ho2). reflexivity.
Qed.

Lemma scroll_for_not_get (scrolls : list nat) :
  forall article_links,
    respects (only not_get) (VariantB.scroll_for scrolls article_links).
Proof.
  induction scrolls as [| scroll rest IH]; intros article_links; cbn.
  - respects_go.
  - unfold VariantB.scroll_try. respects_go; only_leaf.
Qed.

Lemma get_article_links_body_requests (url : string) (max_scrolls : nat) (w : world) :
  exists d,
    trace (snd (VariantB.get_article_links_body url max_scrolls w)) = trace w ++ d /\
    requested d = [url].
Proof.
  pose proof restart_driver_not_get as Hr.
  assert (Hh : forall e, respects (only not_get) (VariantB.get_article_links_except e)).
  { intros e. unfold VariantB.get_article_links_except. respects_go; only_leaf. }
  unfold VariantB.get_article_links_body, try_except, VariantB.get_article_links_try.
  rewrite bind_run. pose proof (env_call_trace (CGet url) w) as Hg.
  destruct (env_call (CGet url) w) as [[r0 | e0] w0]; cbn [snd] in Hg.
  - match goal with |- context [bind ?m ?k w0] =>
      assert (Hrest : respects (only not_get) (bind m k))
    end.
    { pose proof (scroll_for_not_get (seq 0 max_scrolls) set_empty).
      respects_go; only_leaf. }
    match goal with |- context [bind ?m ?k w0] =>
      destruct (Hrest w0) as (_ & _ & d1 & Hd1 & Ho1);
      destruct (bind m k w0) as [[a | e] w1]
    end; cbn [snd] in *.
    + eexists. rewrite Hd1, Hg, <- app_assoc. split; [reflexivity |].
      rewrite requested_app, (only_not_get_requested Ho1). reflexivity.
    + destruct (Hh e w1) as (_ & _ & d2 & Hd2 & Ho2).
      eexists. rewrite Hd2, Hd1, Hg, <- !app_assoc. split; [reflexivity |].
      rewrite !requested_app, (only_not_get_requested Ho1),
        (only_not_get_requested Ho2). reflexivity.
  - destruct (Hh e0 w0) as (_ & _ & d2 & Hd2 & Ho2).
    eexists. rewrite Hd2, Hg, <- !app_assoc. split; [reflexivity |].
    rewrite !requested_app, (only_not_get_requested Ho2). reflexivity.
Qed.

(** X2: bounded retries, seen from the site.  Every call of
    [scrape_article url] and every call of [get_article_links url] loads
    [url] at least once and at most three times, and loads nothing else. *)
Theorem decorated_methods_load_one_to_three_times
    (url : string) (max_scrolls : nat) (w : world) :
  (exists k, 1 <= k <= 3 /\
     requested (new_events w (snd (VariantB.scrape_article url w))) = repeat url k) /\
  (exists k, 1 <= k <= 3 /\
     requested (new_events w (snd (VariantB.get_article_links url max_scrolls w)))
       = repeat url k).
Proof.
  split.
  - destruct (@retry_requests _ (VariantB.scrape_article_body url) url
                (scrape_article_body_requests url) w) as (d & k & Hd & Hr & Hk).
    exists k. split; [exact Hk |].
    unfold VariantB.scrape_article. now rewrite (@new_events_app _ _ _ Hd).
  - destruct (@retry_requests _ (VariantB.get_article_links_body url max_scrolls) url
                (get_article_links_body_requests url max_scrolls) w)
      as (d & k & Hd & Hr & Hk).
    exists k. split; [exact Hk |].
    unfold VariantB.get_article_links. now rewrite (@new_events_app _ _ _ Hd).
Qed.

(* ------------------------------------------------------------------ *)
(** *** The scroll loop                                                *)
(* ------------------------------------------------------------------ *)

(** The loop over the scrolls stops only on an exception that is not a
    timeout. *)
Lemma scroll_for_stops (scrolls : list nat) :
  forall s w e s' w',
    VariantB.scroll_for scrolls s w = (Ok (Raise e, s'), w') ->
    is_TimeoutException e = false.
Proof.
  induction scrolls as [| scroll rest IH]; intros s w e s' w';
    cbn [VariantB.scroll_for].
  - unfold ret. discriminate.
  - rewrite bind_run.
    destruct (VariantB.scroll_try s w) as [[[r s1] | e1] w1]; [| discriminate].
    destruct r as [u | e0].
    + apply IH.
    + destruct (is_TimeoutException e0) eqn:Et.
      * unfold bind, logging_warning, emit. apply IH.
      * unfold ret. intros Hx. inversion Hx; subst. exact Et.
Qed.

Lemma scroll_for_total (scrolls : list nat) (s : pyset) (w : world) :
  exists r s' w', VariantB.scroll_for scrolls s w = (Ok (r, s'), w').
Proof.
  revert s w. induction scrolls as [| scroll rest IH]; intros s w;
    cbn [VariantB.scroll_for].
  - unfold ret. eauto.
  - rewrite bind_run. unfold VariantB.scroll_try.
    rewrite bind_run. unfold tried at 1.
    destruct (env_call _ w) as [[r1 | e1] w1]; cbn [fst snd].
    2:{ unfold ret. destruct (is_TimeoutException e1); [| eauto].
        unfold bind, logging_warning, emit. apply IH. }
    rewrite bind_run. unfold tried at 1.
    destruct (env_call _ w1) as [[r2 | e2] w2]; cbn [fst snd].
    2:{ unfold ret. destruct (is_TimeoutException e2); [| eauto].
        unfold bind, logging_warning, emit. apply IH. }
    rewrite bind_run. unfold tried at 1.
    destruct (env_call _ w2) as [[r3 | e3] w3]; cbn [fst snd].
    2:{ unfold ret. destruct (is_TimeoutException e3); [| eauto].
        unfold bind, logging_warning, emit. apply IH. }
    destruct (VariantB.add_links (r_elements r3) s) as [[u | e] s'].
    + unfold bind, sleep, emit, ret. apply IH.
    + unfold ret. destruct (is_TimeoutException e); [| eauto].
      unfold bind, logging_warning, emit. apply IH.
Qed.

(** X3: timeouts while scrolling never abort the collection.  Once the
    listing has been loaded, an attempt of [get_article_links] can only fail
    with an exception that is not a [TimeoutException]. *)
Theorem scroll_timeouts_are_tolerated
    (url : string) (max_scrolls : nat) (w : world) (e : exn) :
  r_raise (oracle w (clock w) (CGet url)) = None ->
  fst (VariantB.get_article_links_try url max_scrolls w) = Raise e ->
  is_TimeoutException e = false.
Proof.
  intros Hget. unfold VariantB.get_article_links_try.
  rewrite bind_run, env_call_ok by exact Hget. rewrite bind_run.
  match goal with |- context [VariantB.scroll_for ?l ?s ?w0] =>
    destruct (scroll_for_total l s w0) as (r & s' & w' & E);
    pose proof (@scroll_for_stops l s w0) as Hstop; rewrite E
  end.
  destruct r as [u | e0].
  - unfold bind, logging_info, emit, get_hash_order, ret. discriminate.
  - unfold raise. cbn. intros Hx. inversion Hx; subst. eapply Hstop. exact E.
Qed.

(** X4: with [max_scrolls = 0] a listing that loads gives the empty list:
    one call, one log entry, no scroll, no retry, no exception. *)
Theorem no_scroll_no_links (url : string) (w : world) :
  r_raise (oracle w (clock w) (CGet url)) = None ->
  fst (VariantB.get_article_links url 0 w) = Ok [] /\
  new_events w (snd (VariantB.get_article_links url 0 w)) =
    [EvCall (CGet url) None; EvLog INFO (MsgCollected 0)].
Proof.
  intros Hget. unfold VariantB.get_article_links. rewrite retry_unrolled.
  unfold VariantB.get_article_links_body, try_except,
    VariantB.get_article_links_try.
  rewrite bind_run, env_call_ok by exact Hget.
  cbn [seq VariantB.scroll_for]. unfold bind, ret, logging_info, emit,
    get_hash_order, list_of_set, set_len, set_empty. cbn.
  pose proof (iter_order_perm (hash_order w) []) as Hp.
  apply Permutation_nil in Hp. rewrite Hp. split; [reflexivity |].
  unfold new_events. cbn. rewrite <- app_assoc. apply skipn_length_app.
Qed.

Lemma no_scroll_no_links_witness :
  let w := start Scenario.empty_listing reversed_order in
  fst (VariantB.get_article_links "https://www.setopati.com" 0 w) = Ok [] /\
  new_events w (snd (VariantB.get_article_links "https://www.setopati.com" 0 w)) =
    [EvCall (CGet "https://www.setopati.com") None; EvLog INFO (MsgCollected 0)].
Proof.
  apply (@no_scroll_no_links "https://www.setopati.com"
           (start Scenario.empty_listing reversed_order)).
  reflexivity.
Defined.

Lemma scroll_timeouts_are_tolerated_witness :
  is_TimeoutException WebDriverException = false.
Proof.
  apply (@scroll_timeouts_are_tolerated "https://www.setopati.com" 5
           (start Case.crash_while_scrolling insertion_order) WebDriverException);
    reflexivity.
Defined.

Example listing_never_grows_collects_nothing :
  fst (VariantB.get_article_links "https://www.setopati.com" 5
         (start Case.listing_never_grows insertion_order)) = Ok [] /\
  count (fun e => match e with EvLog WARNING (MsgScrollTimeout _) => true | _ => false end)
    (trace (snd (VariantB.get_article_links "https://www.setopati.com" 5
                   (start Case.listing_never_grows insertion_order)))) = 5.
Proof. split; vm_compute; reflexivity. Qed.

Lemma set_add_In (x h : string) (s : pyset) :
  In h (set_add x s) <-> In h s \/ h = x.
Proof.
  unfold set_add. destruct (set_mem x s) eqn:E.
  - apply set_mem_In in E. split; [auto | intros [H | ->]; auto].
  - rewrite in_app_iff. cbn. intuition auto.
Qed.

Lemma truthy_nonempty (h : string) : truthy (Some h) = true <-> h <> EmptyString.
Proof. destruct h; cbn; split; congruence. Qed.

Lemma add_links_sound (links : list WebElement) :
  forall s h,
    In h (snd (VariantB.add_links links s)) ->
    In h s \/ exists el, In el links /\ qualifies el h.
Proof.
  induction links as [| link rest IH]; intros s h; cbn [VariantB.add_links].
  - auto.
  - destruct (href link) as [[x |] | e] eqn:Eh; cbn [snd]; auto.
    + destruct (truthy (Some x) && contains "setopati.com" x) eqn:Eq.
      * intros H. apply IH in H. destruct H as [H | (el & Hel & Hq)].
        -- apply set_add_In in H. destruct H as [H | ->]; [auto |].
           right. exists link. split; [now left |].
           apply andb_true_iff in Eq. destruct Eq as [Et Ec].
           repeat split; auto. now apply truthy_nonempty.
        -- right. exists el. split; [now right | exact Hq].
      * intros H. apply IH in H. destruct H as [H | (el & Hel & Hq)]; auto.
        right. exists el. split; [now right | exact Hq].
    + intros H. apply IH in H. destruct H as [H | (el & Hel & Hq)]; auto.
      right. exists el. split; [now right | exact Hq].
Qed.

Lemma add_links_complete (links : list WebElement) :
  forall s s',
    VariantB.add_links links s = (Ok tt, s') ->
    forall el h, In el links -> qualifies el h -> In h s'.
Proof.
  induction links as [| link rest IH]; intros s s'; cbn [VariantB.add_links].
  - intros _ el h [].
  - destruct (href link) as [[x |] | e] eqn:Eh; [| | discriminate].
    + destruct (truthy (Some x) && contains "setopati.com" x) eqn:Eq.
      * intros Hrun el h [<- | Hel] (Hh & Hne & Hc).
        -- rewrite Eh in Hh. inversion Hh; subst.
           destruct (add_links_extends rest (set_add h s)) as (new & Hnew).
           rewrite Hrun in Hnew. cbn in Hnew. rewrite Hnew.
           apply in_or_app. left. apply set_add_In. now right.
        -- eapply IH; [exact Hrun | exact Hel | repeat split; auto].
      * intros Hrun el h [<- | Hel] (Hh & Hne & Hc).
        -- rewrite Eh in Hh. inversion Hh; subst.
           apply truthy_nonempty in Hne. rewrite Hne, Hc in Eq. discriminate.
        -- eapply IH; [exact Hrun | exact Hel | repeat split; auto].
    + intros Hrun el h [<- | Hel] (Hh & Hne & Hc).
      * rewrite Eh in Hh. discriminate.
      * eapply IH; [exact Hrun | exact Hel | repeat split; auto].
Qed.

(** X5: the loop over the links of one scroll (web.py 98-101).  Whatever
    happens, the set loses nothing and gains only hrefs that are there, not
    empty and contain [setopati.com]; and when no [get_attribute] raises,
    every such href of the scroll is in the set afterwards.  An element
    without href, with an empty href or with a link elsewhere is passed
    over without error. *)
Theorem add_links_adds_exactly_the_qualifying_hrefs
    (links : list WebElement) (s : pyset) :
  incl s (snd (VariantB.add_links links s)) /\
  (forall h, In h (snd (VariantB.add_links links s)) ->
             In h s \/ exists el, In el links /\ qualifies el h) /\
  (fst (VariantB.add_links links s) = Ok tt ->
   forall el h, In el links -> qualifies el h ->
                In h (snd (VariantB.add_links links s))).
Proof.
  split; [| split].
  - destruct (add_links_extends links s) as (new & ->).
    intros x Hx. apply in_or_app. now left.
  - apply add_links_sound.
  - intros Hok. destruct (VariantB.add_links links s) as [[[] | e] s'] eqn:E;
      [| discriminate].
    cbn [snd]. eapply add_links_complete. exact E.
Qed.

Lemma add_links_adds_exactly_the_qualifying_hrefs_witness :
  let links := r_elements
                 (links_with [Some "https://www.setopati.com/politics/1"; None;
                              Some ""; Some "https://example.org/ad";
                              Some "https://www.setopati.com/social/2"]) in
  let s := ["https://www.setopati.com/politics/1"] in
  incl s (snd (VariantB.add_links links s)) /\
  (forall h, In h (snd (VariantB.add_links links s)) ->
             In h s \/ exists el, In el links /\ qualifies el h) /\
  (forall el h, In el links -> qualifies el h ->
                In h (snd (VariantB.add_links links s))).
Proof.
  cbv zeta.
  destruct (add_links_adds_exactly_the_qualifying_hrefs
              (r_elements
                 (links_with [Some "https://www.setopati.com/politics/1"; None;
                              Some ""; Some "https://example.org/ad";
                              Some "https://www.setopati.com/social/2"]))
              ["https://www.setopati.com/politics/1"]) as (H1 & H2 & H3).
  split; [exact H1 | split; [exact H2 |]].
  apply H3. reflexivity.
Defined.

(* ------------------------------------------------------------------ *)
(** *** Where collected links come from                                *)
(* ------------------------------------------------------------------ *)

Lemma in_time_refl (w : world) : in_time w w.
Proof.
  split; [reflexivity |]. exists []. rewrite app_nil_r. split; [reflexivity |].
  cbn. lia.
Qed.

Lemma in_time_trans (w1 w2 w3 : world) :
  in_time w1 w2 -> in_time w2 w3 -> in_time w1 w3.
Proof.
  intros (Ho1 & d1 & Ht1 & Hc1) (Ho2 & d2 & Ht2 & Hc2).
  split; [congruence |]. exists (d1 ++ d2). split.
  - rewrite Ht2, Ht1, app_assoc. reflexivity.
  - rewrite count_app. lia.
Qed.

Lemma in_time_event (e : event) (w : world) :
  is_call e = false -> in_time w (append_event e w).
Proof.
  intros He. split; [reflexivity |]. exists [e]. split; [reflexivity |].
  unfold count. cbn. rewrite He. cbn. lia.
Qed.

Lemma keeps_time_ret A (a : A) : keeps_time (ret a).
Proof. intros w. apply in_time_refl. Qed.

Lemma keeps_time_raise A (e : exn) : keeps_time (@raise A e).
Proof. intros w. apply in_time_refl. Qed.

Lemma keeps_time_lift A (o : outcome A) : keeps_time (lift o).
Proof. intros w. apply in_time_refl. Qed.

Lemma keeps_time_get_self_driver : keeps_time get_self_driver.
Proof. intros w. apply in_time_refl. Qed.

Lemma keeps_time_get_hash_order : keeps_time get_hash_order.
Proof. intros w. apply in_time_refl. Qed.

Lemma keeps_time_new_session : keeps_time new_session.
Proof.
  intros w. split; [reflexivity |]. exists []. cbn. rewrite app_nil_r.
  split; [reflexivity | lia].
Qed.

Lemma keeps_time_set_self_driver (d : nat) : keeps_time (set_self_driver d).
Proof.
  intros w. split; [reflexivity |]. exists []. cbn. rewrite app_nil_r.
  split; [reflexivity | lia].
Qed.

Lemma keeps_time_emit (e : event) : is_call e = false -> keeps_time (emit e).
Proof. intros He w. now apply in_time_event. Qed.

Lemma keeps_time_env_call (c : call) : keeps_time (env_call c).
Proof.
  intros w. unfold env_call.
  destruct (r_raise (oracle w (clock w) c)); cbn;
    (split; [reflexivity |]); eexists; (split; [reflexivity |]); cbn; lia.
Qed.

Lemma keeps_time_bind A B (m : M A) (k : A -> M B) :
  keeps_time m -> (forall a, keeps_time (k a)) -> keeps_time (bind m k).
Proof.
  intros Hm Hk w. unfold bind. specialize (Hm w).
  destruct (m w) as [[a | e] w1]; cbn in *; auto.
  eapply in_time_trans; eauto. apply Hk.
Qed.

Lemma keeps_time_tried A (m : M A) : keeps_time m -> keeps_time (tried m).
Proof.
  intros Hm w. unfold tried. specialize (Hm w).
  destruct (m w) as [r w1]; cbn in *; auto.
Qed.

Lemma keeps_time_try_except A (m : M A) (h : exn -> M A) :
  keeps_time m -> (forall e, keeps_time (h e)) -> keeps_time (try_except m h).
Proof.
  intros Hm Hh w. unfold try_except. specialize (Hm w).
  destruct (m w) as [[a | e] w1]; cbn in *; auto.
  eapply in_time_trans; eauto. apply Hh.
Qed.

(** Decompose a goal [keeps_time m] along the structure of [m]. *)
Ltac time_step :=
  match goal with
  | |- forall _, _ => intros ?
  | |- is_call _ = false => reflexivity
  | |- keeps_time _ =>
      first
        [ assumption
        | match goal with H : forall _, keeps_time _ |- _ => apply H end
        | apply keeps_time_ret
        | apply keeps_time_raise
        | apply keeps_time_lift
        | apply keeps_time_get_self_driver
        | apply keeps_time_get_hash_order
        | apply keeps_time_new_session
        | apply keeps_time_set_self_driver
        | apply keeps_time_env_call
        | apply keeps_time_bind
        | apply keeps_time_tried
        | apply keeps_time_try_except
        | apply keeps_time_emit
        | match goal with
          | |- keeps_time (match ?x with _ => _ end) => destruct x
          end ]
  end.

Ltac time_go :=
  unfold sleep, logging_info, logging_warning, logging_error, print;
  repeat time_step.

Lemma setup_driver_while_time (fuel max_attempts attempt : nat) :
  keeps_time (VariantB.setup_driver_while fuel max_attempts attempt).
Proof.
  revert attempt. induction fuel as [| fuel IH]; intros attempt; cbn.
  - time_go.
  - unfold VariantB.setup_driver_try. time_go.
Qed.

Lemma restart_driver_time : keeps_time VariantB.restart_driver.
Proof.
  pose proof (setup_driver_while_time 3 3 0) as Hs.
  unfold VariantB.restart_driver, VariantB.quit_quietly, VariantB.driver_quit,
    VariantB.setup_driver. cbn [Nat.sub]. time_go.
Qed.

Lemma scroll_try_time (s : pyset) : keeps_time (VariantB.scroll_try s).
Proof. unfold VariantB.scroll_try. time_go. Qed.

Lemma scroll_for_time (scrolls : list nat) :
  forall s, keeps_time (VariantB.scroll_for scrolls s).
Proof.
  induction scrolls as [| scroll rest IH]; intros s; cbn.
  - time_go.
  - pose proof (scroll_try_time s). time_go.
Qed.

Lemma get_article_links_body_time (url : string) (max_scrolls : nat) :
  keeps_time (VariantB.get_article_links_body url max_scrolls).
Proof.
  pose proof restart_driver_time.
  pose proof (scroll_for_time (seq 0 max_scrolls) set_empty).
  unfold VariantB.get_article_links_body, VariantB.get_article_links_try,
    VariantB.get_article_links_except.
  time_go.
Qed.

Lemma attempt_starts_in_time A (f : M A) (w w0 : world) :
  keeps_time f -> In w0 (attempt_starts f w) -> in_time w w0.
Proof.
  intros Hf. unfold attempt_starts.
  pose proof (Hf w) as H1.
  destruct (f w) as [[a1 | e1] w1]; cbn [snd] in H1.
  { intros [<- | []]. apply in_time_refl. }
  assert (H1' : in_time w (append_event (EvSleep 4) w1)).
  { eapply in_time_trans; [exact H1 | now apply in_time_event]. }
  pose proof (Hf (append_event (EvSleep 4) w1)) as H2.
  destruct (f (append_event (EvSleep 4) w1)) as [[a2 | e2] w2]; cbn [snd] in H2.
  { intros [<- | [<- | []]]; [apply in_time_refl | exact H1']. }
  intros [<- | [<- | [<- | []]]]; [apply in_time_refl | exact H1' |].
  eapply in_time_trans; [exact H1' |].
  eapply in_time_trans; [exact H2 | now apply in_time_event].
Qed.

Lemma answers_app (o : nat -> call -> response) (d1 d2 : list event) :
  forall t,
    answers o t (d1 ++ d2) = answers o t d1 ++ answers o (t + count is_call d1) d2.
Proof.
  induction d1 as [| e d1 IH]; intros t; cbn [app answers].
  - unfold count. cbn. now rewrite Nat.add_0_r.
  - destruct e as [c q | | |]; cbn [answers];
      unfold count in *; cbn [filter is_call length]; rewrite IH;
      rewrite ?Nat.add_succ_r; reflexivity.
Qed.

(** What was listed during a part of a run was listed during the run. *)
Lemma listed_later (css : string) (w w1 w2 : world) (el : WebElement) :
  in_time w w1 -> in_time w1 w2 -> listed css w1 w2 el -> listed css w w2 el.
Proof.
  intros (Ho1 & d1 & Ht1 & Hc1) (Ho2 & d2 & Ht2 & Hc2) (r & Hin & Hok & Hel).
  exists r. split; [| auto].
  rewrite (@new_events_app _ _ _ Ht2), Ho1, Hc1 in Hin.
  assert (Ht : trace w2 = trace w ++ (d1 ++ d2)) by (rewrite Ht2, Ht1, app_assoc; reflexivity).
  rewrite (@new_events_app _ _ _ Ht), answers_app.
  apply in_or_app. now right.
Qed.

Lemma listed_earlier (css : string) (w w1 w2 : world) (el : WebElement) :
  in_time w w1 -> in_time w1 w2 -> listed css w w1 el -> listed css w w2 el.
Proof.
  intros (Ho1 & d1 & Ht1 & Hc1) (Ho2 & d2 & Ht2 & Hc2) (r & Hin & Hok & Hel).
  exists r. split; [| auto].
  rewrite (@new_events_app _ _ _ Ht1) in Hin.
  assert (Ht : trace w2 = trace w ++ (d1 ++ d2)) by (rewrite Ht2, Ht1, app_assoc; reflexivity).
  rewrite (@new_events_app _ _ _ Ht), answers_app.
  apply in_or_app. now left.
Qed.

(** One scroll: what is in the set afterwards was there before or is a
    qualifying href of an element listed by the [find_elements] call of the
    scroll. *)
Lemma scroll_try_listed (s : pyset) (w : world) (r : outcome unit) (s' : pyset)
    (w' : world) :
  VariantB.scroll_try s w = (Ok (r, s'), w') ->
  forall h, In h s' ->
    In h s \/ exists el, listed "a.title" w w' el /\ qualifies el h.
Proof.
  unfold VariantB.scroll_try, bind, tried, env_call, ret.
  destruct (r_raise (oracle w (clock w) _)) eqn:E1; cbn;
    [intros Hx; inversion Hx; subst; auto |].
  destruct (r_raise (oracle w (S (clock w)) _)) eqn:E2; cbn;
    [intros Hx; inversion Hx; subst; auto |].
  destruct (r_raise (oracle w (S (S (clock w))) (CFindElements "a.title"))) eqn:E3; cbn;
    [intros Hx; inversion Hx; subst; auto |].
  set (r3 := oracle w (S (S (clock w))) (CFindElements "a.title")) in *.
  intros Hrun h Hh.
  assert (Hsound : In h s \/ exists el, In el (r_elements r3) /\ qualifies el h).
  { apply add_links_sound.
    destruct (VariantB.add_links (r_elements r3) s) as [[u | e] s1];
      unfold sleep, emit in Hrun; inversion Hrun; subst; exact Hh. }
  destruct Hsound as [Hs | (el & Hel & Hq)]; [now left | right].
  exists el. split; [| exact Hq]. exists r3. split; [| auto].
  destruct (VariantB.add_links (r_elements r3) s) as [[u | e] s1];
    unfold sleep, emit in Hrun; inversion Hrun; subst; clear Hrun;
    unfold new_events; cbn [trace tick append_event];
    rewrite <- !app_assoc, skipn_length_app; cbn; right; right; now left.
Qed.

Lemma scroll_for_listed (scrolls : list nat) :
  forall s w r s' w',
    VariantB.scroll_for scrolls s w = (Ok (r, s'), w') ->
    forall h, In h s' ->
      In h s \/ exists el, listed "a.title" w w' el /\ qualifies el h.
Proof.
  induction scrolls as [| scroll rest IH]; intros s w r s' w';
    cbn [VariantB.scroll_for].
  - unfold ret. intros Hx. inversion Hx; subst. auto.
  - rewrite bind_run.
    pose proof (scroll_try_time s w) as Ht1.
    destruct (VariantB.scroll_try s w) as [[[r1 s1] | e1] w1] eqn:E1;
      [| discriminate].
    cbn [snd] in Ht1.
    pose proof (@scroll_try_listed s w r1 s1 w1 E1) as H1.
    assert (Hnext : forall w2, in_time w1 w2 ->
              VariantB.scroll_for rest s1 w2 = (Ok (r, s'), w') ->
              forall h, In h s' ->
                In h s \/ exists el, listed "a.title" w w' el /\ qualifies el h).
    { intros w2 Ht2 Hrun h Hh.
      pose proof (scroll_for_time rest s1 w2) as Ht3. rewrite Hrun in Ht3.
      cbn [snd] in Ht3.
      destruct (IH _ _ _ _ _ Hrun h Hh) as [Hs1 | (el & Hl & Hq)].
      - destruct (H1 h Hs1) as [Hs | (el & Hl & Hq)]; [now left | right].
        exists el. split; [| exact Hq].
        eapply listed_earlier; [exact Ht1 | | exact Hl].
        eapply in_time_trans; eassumption.
      - right. exists el. split; [| exact Hq].
        eapply listed_later; [| exact Ht3 | exact Hl].
        eapply in_time_trans; eassumption. }
    destruct r1 as [u | e].
    + apply Hnext. apply in_time_refl.
    + destruct (is_TimeoutException e).
      * unfold bind, logging_warning, emit. apply Hnext.
        now apply in_time_event.
      * unfold ret. intros Hx. inversion Hx; subst. exact H1.
Qed.

(** X6: link collection invents nothing.  Every URL returned by
    [get_article_links] is the href of an element that one of the
    [find_elements] calls of this run returned (a call recorded in the trace
    of the run, with the answer the browser gave at that moment); it is not
    empty and it contains [setopati.com]. *)
Theorem collected_links_were_on_the_page
    (url : string) (max_scrolls : nat) (w : world) (links : list string) :
  fst (VariantB.get_article_links url max_scrolls w) = Ok links ->
  forall link, In link links ->
    exists el,
      listed "a.title" w (snd (VariantB.get_article_links url max_scrolls w)) el /\
      qualifies el link.
Proof.
  intros H link Hlink.
  destruct (VariantB.get_article_links url max_scrolls w) as [r w'] eqn:E.
  cbn [fst snd] in *. subst r.
  apply retry_ok_attempt in E. destruct E as (w0 & Hin & E).
  pose proof (@attempt_starts_in_time _ _ _ _
                (get_article_links_body_time url max_scrolls) Hin) as Ht0.
  pose proof (get_article_links_body_time url max_scrolls w0) as Ht.
  rewrite E in Ht. cbn [snd] in Ht.
  apply get_article_links_body_returns in E.
  destruct E as (acc & Hget & Hscroll & Hw' & _ & ->).
  assert (Hacc : In link acc).
  { eapply Permutation_in; [apply Permutation_sym, iter_order_perm | exact Hlink]. }
  set (w1 := snd (env_call (CGet url) w0)) in *.
  assert (Ht1 : in_time w0 w1) by apply keeps_time_env_call.
  destruct (VariantB.scroll_for (seq 0 max_scrolls) set_empty w1)
    as [[[r s'] | e] w2] eqn:Es; cbn [fst snd] in *; [| discriminate].
  inversion Hscroll; subst r s'.
  pose proof (scroll_for_time (seq 0 max_scrolls) set_empty w1) as Ht2.
  rewrite Es in Ht2. cbn [snd] in Ht2.
  destruct (scroll_for_listed _ _ _ Es link Hacc) as [[] | (el & Hl & Hq)].
  exists el. split; [| exact Hq].
  eapply listed_later; [exact Ht0 | exact Ht |].
  eapply listed_later; [exact Ht1 | | ].
  - subst w'. eapply in_time_trans; [exact Ht2 | now apply in_time_event].
  - eapply listed_earlier; [exact Ht2 | | exact Hl].
    subst w'. now apply in_time_event.
Qed.

Lemma collected_links_were_on_the_page_witness :
  let w := start Scenario.growing_listing insertion_order in
  let w' := snd (VariantB.get_article_links "https://www.setopati.com" 5 w) in
  (exists el, listed "a.title" w w' el /\
              qualifies el "https://www.setopati.com/politics/1") /\
  (exists el, listed "a.title" w w' el /\
              qualifies el "https://www.setopati.com/social/2").
Proof.
  cbv zeta.
  assert (Hok : fst (VariantB.get_article_links "https://www.setopati.com" 5
                       (start Scenario.growing_listing insertion_order))
                = Ok ["https://www.setopati.com/politics/1";
                      "https://www.setopati.com/social/2"])
    by (vm_compute; reflexivity).
  split;
    apply (@collected_links_were_on_the_page "https://www.setopati.com" 5
             (start Scenario.growing_listing insertion_order) _ Hok);
    [left | right; left]; reflexivity.
Defined.

(* ------------------------------------------------------------------ *)
(** *** Sessions                                                       *)
(* ------------------------------------------------------------------ *)

(** One pass through the [try] of [setup_driver]: at most one session is
    started; after a pass that succeeds, [self.driver] is that session. *)
Lemma setup_driver_try_sessions (w : world) :
  let w' := snd (VariantB.setup_driver_try w) in
  sessions w <= sessions w' <= S (sessions w) /\
  (fst (VariantB.setup_driver_try w) = Ok tt ->
   self_driver w' = sessions w' /\ sessions w' = S (sessions w)).
Proof.
  unfold VariantB.setup_driver_try, bind, env_call, new_session, set_self_driver, ret.
  cbn. repeat oracle_step; cbn; repeat split; auto; try discriminate; lia.
Qed.

Lemma setup_driver_sessions (w : world) :
  let w' := snd (VariantB.setup_driver w) in
  sessions w <= sessions w' <= sessions w + 3 /\
  (fst (VariantB.setup_driver w) = Ok tt ->
   self_driver w' = sessions w' /\ sessions w < sessions w') /\
  (forall e, fst (VariantB.setup_driver w) = Raise e -> e = init_failure).
Proof.
  unfold VariantB.setup_driver. cbn [Nat.sub].
  rewrite setup_driver_while_step by reflexivity.
  pose proof (setup_driver_try_sessions w) as (Hb1 & Hok1).
  destruct (VariantB.setup_driver_try w) as [[[] | e1] w1]; cbn [fst snd] in *.
  { destruct (Hok1 eq_refl). repeat split; try lia; try discriminate. }
  cbn [Nat.add Nat.eqb]. cbv zeta.
  rewrite setup_driver_while_step by reflexivity.
  match goal with |- context [VariantB.setup_driver_try ?w0] =>
    pose proof (setup_driver_try_sessions w0) as (Hb2 & Hok2);
    destruct (VariantB.setup_driver_try w0) as [[[] | e2] w2]
  end; cbn [fst snd] in *; cbn in Hb2, Hok2.
  { destruct (Hok2 eq_refl). repeat split; try lia; try discriminate. }
  cbn [Nat.add Nat.eqb]. cbv zeta.
  rewrite setup_driver_while_step by reflexivity.
  match goal with |- context [VariantB.setup_driver_try ?w0] =>
    pose proof (setup_driver_try_sessions w0) as (Hb3 & Hok3);
    destruct (VariantB.setup_driver_try w0) as [[[] | e3] w3]
  end; cbn [fst snd] in *; cbn in Hb3, Hok3.
  { destruct (Hok3 eq_refl). repeat split; try lia; try discriminate. }
  cbn. repeat split; try lia; try discriminate.
  intros e Hx. inversion Hx. reflexivity.
Qed.

(** X7: what [setup_driver] leaves behind.  It starts at most three
    sessions and quits none of them, not even one whose page-load timeout
    could not be set; when it returns, [self.driver] is the session started
    last; and the only exception it raises is "Failed to initialize
    WebDriver after multiple attempts". *)
Theorem setup_driver_sessions_started (w : world) :
  let w' := snd (VariantB.setup_driver w) in
  sessions w <= sessions w' <= sessions w + 3 /\
  count is_quit (new_events w w') = 0 /\
  (fst (VariantB.setup_driver w) = Ok tt ->
   self_driver w' = sessions w' /\ sessions w < sessions w') /\
  (forall e, fst (VariantB.setup_driver w) = Raise e -> e = init_failure).
Proof.
  cbv zeta. destruct (setup_driver_sessions w) as (H1 & H2 & H3).
  repeat split; try apply H1; try apply H2; auto.
  destruct (setup_driver_startup w) as (_ & _ & d & Hd & Ho).
  rewrite (@new_events_app _ _ _ Hd).
  apply (@only_count_zero is_startup is_quit d); auto.
  intros [[] | | [] [] |]; cbn; congruence.
Qed.

(** X8: [restart_driver].  The old session is asked to quit once, first,
    and an exception of that quit is swallowed: the only exception a restart
    raises is the failure to start a session.  When the restart returns,
    [self.driver] is a session started by it. *)
Theorem restart_driver_replaces_session (w : world) :
  let w' := snd (VariantB.restart_driver w) in
  (exists q d,
      new_events w w' = EvCall (CQuit (self_driver w)) q :: d /\
      count is_quit d = 0) /\
  (fst (VariantB.restart_driver w) = Ok tt ->
   self_driver w' = sessions w' /\ sessions w < sessions w') /\
  (forall e, fst (VariantB.restart_driver w) = Raise e -> e = init_failure).
Proof.
  cbv zeta. split.
  - destruct (restart_driver_shape w) as (q & d & Ht & Hd & _).
    exists q, d. split.
    + apply new_events_app. exact Ht.
    + apply (@only_count_zero is_startup is_quit d); auto.
      intros [[] | | [] [] |]; cbn; congruence.
  - unfold VariantB.restart_driver. rewrite bind_run, quit_quietly_run.
    match goal with |- context [VariantB.setup_driver ?w0] =>
      destruct (setup_driver_sessions w0) as (_ & H2 & H3)
    end.
    cbn in H2. split; assumption.
Qed.

Lemma setup_driver_sessions_started_witness :
  let w := start Case.timeout_setting_fails_once insertion_order in
  let w' := snd (VariantB.setup_driver w) in
  count is_quit (new_events w w') = 0 /\
  self_driver w' = sessions w' /\ sessions w < sessions w'.
Proof.
  cbv zeta.
  destruct (setup_driver_sessions_started
              (start Case.timeout_setting_fails_once insertion_order))
    as (_ & H2 & H3 & _).
  split; [exact H2 | apply H3; reflexivity].
Defined.

(** The session whose page-load timeout could not be set stays open: two
    sessions were started, the second is [self.driver], nothing was quit. *)
Example half_started_session_is_left_open :
  let w' := snd (VariantB.setup_driver
                   (start Case.timeout_setting_fails_once insertion_order)) in
  sessions w' = 2 /\ self_driver w' = 2 /\ count is_quit (trace w') = 0.
Proof. vm_compute. repeat split. Qed.

Lemma restart_driver_replaces_session_witness :
  let w := start Case.quit_fails insertion_order in
  let w' := snd (VariantB.restart_driver w) in
  (exists q d,
      new_events w w' = EvCall (CQuit (self_driver w)) q :: d /\
      count is_quit d = 0) /\
  self_driver w' = sessions w' /\ sessions w < sessions w'.
Proof.
  cbv zeta.
  destruct (restart_driver_replaces_session (start Case.quit_fails insertion_order))
    as (H1 & H2 & _).
  split; [exact H1 | apply H2; reflexivity].
Defined.

(* ------------------------------------------------------------------ *)
(** *** One article                                                    *)
(* ------------------------------------------------------------------ *)







(* ------------------------------------------------------------------ *)
(** *** The batch and the run                                          *)
(* ------------------------------------------------------------------ *)

Lemma scrape_article_no_failure_log (url : string) (w : world) :
  exists d,
    trace (snd (VariantB.scrape_article url w)) = trace w ++ d /\
    count is_failure_log d = 0 /\ count is_print d = 0.
Proof.
  destruct (scrape_article_footprint url w) as (_ & _ & d & Hd & Ho).
  exists d. split; [exact Hd |]. split.
  - apply (@only_count_zero (of_scrape_article url) is_failure_log d); auto.
    intros [[] | | [] [] |]; cbn; intros; try reflexivity; discriminate.
  - apply (@only_count_zero (of_scrape_article url) is_print d); auto.
    intros [[] | | [] [] |]; cbn; intros; try reflexivity; discriminate.
Qed.

Lemma scrape_for_accounting (article_links : list string) :
  forall articles_data w,
    exists new d,
      fst (VariantB.scrape_for article_links articles_data w)
        = Ok (articles_data ++ new) /\
      trace (snd (VariantB.scrape_for article_links articles_data w))
        = trace w ++ d /\
      length new + count is_failure_log d = length article_links /\
      subsequence (map VariantB.url new) article_links.
Proof.
  induction article_links as [| u rest IH]; intros articles_data w;
    cbn [VariantB.scrape_for].
  - exists [], []. rewrite !app_nil_r. repeat split. constructor.
  - rewrite bind_run. unfold tried.
    destruct (scrape_article_no_failure_log u w) as (d1 & Hd1 & Hc1 & _).
    destruct (VariantB.scrape_article u w) as [[a | e] w1] eqn:E; cbn [snd] in Hd1.
    + unfold bind, sleep, emit.
      match goal with |- context [VariantB.scrape_for rest ?acc ?w0] =>
        destruct (IH acc w0) as (new & d2 & Hok & Hd2 & Hlen & Hsub) end.
      exists (a :: new), (d1 ++ [EvSleep 2] ++ d2).
      rewrite Hok, Hd2. cbn [trace append_event].
      rewrite Hd1, <- !app_assoc, !count_app, Hc1.
      repeat split.
      * cbn. lia.
      * cbn [map]. rewrite (scrape_article_url _ _ E). now constructor.
    + unfold bind, logging_error, emit.
      match goal with |- context [VariantB.scrape_for rest ?acc ?w0] =>
        destruct (IH acc w0) as (new & d2 & Hok & Hd2 & Hlen & Hsub) end.
      exists new, (d1 ++ [EvLog ERROR (MsgArticleFailed u e)] ++ d2).
      rewrite Hok, Hd2. cbn [trace append_event].
      rewrite Hd1, <- !app_assoc, !count_app, Hc1.
      repeat split.
      * cbn. lia.
      * now constructor.
Qed.

(** X11: the batch loop accounts for every link.  [scrape_for] never
    raises; it keeps the records it was given and appends at most one record
    per link, in the order of the links, each with the URL of its link; and
    the number of appended records plus the number of "Failed to scrape
    article" log entries is the number of links. *)
Theorem every_link_recorded_or_logged
    (article_links : list string) (articles_data : list VariantB.article_data)
    (w : world) :
  exists new,
    fst (VariantB.scrape_for article_links articles_data w)
      = Ok (articles_data ++ new) /\
    subsequence (map VariantB.url new) article_links /\
    length new +
    count is_failure_log
      (new_events w (snd (VariantB.scrape_for article_links articles_data w)))
    = length article_links.
Proof.
  destruct (scrape_for_accounting article_links articles_data w)
    as (new & d & Hok & Hd & Hlen & Hsub).
  exists new. rewrite (@new_events_app _ _ _ Hd). auto.
Qed.

(** Five links of which the third fails for good: four records, in
    order, and one logged failure. *)
Example third_of_five_fails :
  let run := VariantB.scrape_for Case.five_links []
               (start Case.third_article_down insertion_order) in
  (exists records,
      fst run = Ok records /\
      map VariantB.url records =
        ["https://www.setopati.com/a/1"; "https://www.setopati.com/a/2";
         "https://www.setopati.com/a/4"; "https://www.setopati.com/a/5"]) /\
  count is_failure_log (trace (snd run)) = 1.
Proof.
  cbv zeta. split.
  - eexists. split; vm_compute; reflexivity.
  - vm_compute. reflexivity.
Qed.

Lemma slice_to_nil A (n : Z) : slice_to n (@nil A) = [].
Proof. unfold slice_to. destruct (n <? 0)%Z; apply firstn_nil. Qed.

(** X12: nothing to do, nothing done.  When link collection returns no
    link, or [max_articles] is 0, [scrape_website] logs "No article links
    found", requests no article, writes no file, quits the session and
    returns the empty frame. *)
Theorem no_links_no_extraction
    (base_url : string) (max_articles : Z) (w : world) (links : list string) :
  fst (VariantB.get_article_links base_url 5 w) = Ok links ->
  links = [] \/ max_articles = 0%Z ->
  let w1 := snd (VariantB.get_article_links base_url 5 w) in
  fst (VariantB.scrape_website base_url max_articles w) = Ok [] /\
  new_events w1 (snd (VariantB.scrape_website base_url max_articles w)) =
    [EvLog ERROR MsgNoLinks;
     EvCall (CQuit (self_driver w1))
       (r_raise (oracle w1 (clock w1) (CQuit (self_driver w1))))].
Proof.
  intros Hlinks Hnone. cbv zeta.
  assert (Hslice : slice_to max_articles links = []).
  { destruct Hnone as [-> | ->]; [apply slice_to_nil | reflexivity]. }
  unfold VariantB.scrape_website, try_finally, try_except,
    VariantB.collect_article_links.
  rewrite !bind_run.
  destruct (VariantB.get_article_links base_url 5 w) as [[l | e] w1];
    cbn [fst snd] in *; [| discriminate].
  inversion Hlinks; subst l. unfold ret at 1. rewrite Hslice.
  unfold bind, logging_error, emit, ret. cbn.
  rewrite !quit_quietly_run. cbn. split; [reflexivity |].
  unfold new_events. cbn. rewrite <- app_assoc. apply skipn_length_app.
Qed.

Lemma no_links_no_extraction_witness :
  let w := start Scenario.growing_listing insertion_order in
  let w1 := snd (VariantB.get_article_links "https://www.setopati.com" 5 w) in
  fst (VariantB.scrape_website "https://www.setopati.com" 0 w) = Ok [] /\
  new_events w1 (snd (VariantB.scrape_website "https://www.setopati.com" 0 w)) =
    [EvLog ERROR MsgNoLinks;
     EvCall (CQuit (self_driver w1))
       (r_raise (oracle w1 (clock w1) (CQuit (self_driver w1))))].
Proof.
  cbv zeta.
  apply (@no_links_no_extraction "https://www.setopati.com" 0
           (start Scenario.growing_listing insertion_order)
           ["https://www.setopati.com/politics/1";
            "https://www.setopati.com/social/2"]).
  - vm_compute. reflexivity.
  - right. reflexivity.
Defined.

(** X13: a file that cannot be written costs nothing but the file.  When
    links were collected, [scrape_website] returns the records of the batch
    whatever [to_csv] does.  The file is written only if there is at least
    one record, once, with all the records; the outcome of the write is
    logged ("Successfully saved" or "Error saving to CSV"), and the session
    is quit afterwards either way. *)
Theorem save_failure_is_not_fatal
    (base_url : string) (max_articles : Z) (w : world) (links : list string) :
  fst (VariantB.collect_article_links base_url max_articles w) = Ok links ->
  links <> [] ->
  let w1 := snd (VariantB.collect_article_links base_url max_articles w) in
  let w2 := snd (VariantB.scrape_for links [] w1) in
  exists records,
    fst (VariantB.scrape_for links [] w1) = Ok records /\
    fst (VariantB.scrape_website base_url max_articles w) = Ok records /\
    new_events w2 (snd (VariantB.scrape_website base_url max_articles w)) =
      match records with
      | [] =>
          [EvCall (CQuit (self_driver w2))
             (r_raise (oracle w2 (clock w2) (CQuit (self_driver w2))))]
      | _ :: _ =>
          let saved := r_raise (oracle w2 (clock w2) (CToCsv (length records))) in
          [EvCall (CToCsv (length records)) saved;
           match saved with
           | None => EvLog INFO (MsgSaved (length records))
           | Some e => EvLog ERROR (MsgCsvError e)
           end;
           EvCall (CQuit (self_driver w2))
             (r_raise (oracle w2 (S (clock w2)) (CQuit (self_driver w2))))]
      end.
Proof.
  intros Hlinks Hne. cbv zeta.
  unfold VariantB.scrape_website, try_finally, try_except.
  rewrite bind_run.
  destruct (VariantB.collect_article_links base_url max_articles w)
    as [[l | e] w1]; cbn [fst snd] in *; [| discriminate].
  inversion Hlinks; subst l. destruct links as [| u rest]; [congruence |].
  rewrite bind_run.
  destruct (scrape_for_new (u :: rest) [] w1) as (new & Hnew & _).
  destruct (VariantB.scrape_for (u :: rest) [] w1) as [r w2]; cbn [fst snd] in *.
  subst r. cbn [app]. exists new. split; [reflexivity |].
  unfold VariantB.save_csv, VariantB.df_empty.
  destruct new as [| a new]; cbn [negb].
  - unfold bind, ret. cbn. rewrite !quit_quietly_run. cbn. split; [reflexivity |].
    unfold new_events. cbn. apply skipn_length_app.
  - unfold try_except. rewrite !bind_run. unfold env_call.
    destruct (r_raise (oracle w2 (clock w2) (CToCsv (length (a :: new)))));
      unfold logging_info, logging_error, emit, ret; cbn;
      rewrite !quit_quietly_run; cbn; (split; [reflexivity |]);
      unfold new_events; cbn; rewrite <- !app_assoc; apply skipn_length_app.
Qed.

Lemma save_failure_is_not_fatal_witness :
  let w := start Case.disk_full insertion_order in
  let links := ["https://www.setopati.com/a/1"] in
  let w1 := snd (VariantB.collect_article_links "https://www.setopati.com" 20 w) in
  let w2 := snd (VariantB.scrape_for links [] w1) in
  exists records,
    fst (VariantB.scrape_for links [] w1) = Ok records /\
    fst (VariantB.scrape_website "https://www.setopati.com" 20 w) = Ok records /\
    new_events w2 (snd (VariantB.scrape_website "https://www.setopati.com" 20 w)) =
      match records with
      | [] =>
          [EvCall (CQuit (self_driver w2))
             (r_raise (oracle w2 (clock w2) (CQuit (self_driver w2))))]
      | _ :: _ =>
          let saved := r_raise (oracle w2 (clock w2) (CToCsv (length records))) in
          [EvCall (CToCsv (length records)) saved;
           match saved with
           | None => EvLog INFO (MsgSaved (length records))
           | Some e => EvLog ERROR (MsgCsvError e)
           end;
           EvCall (CQuit (self_driver w2))
             (r_raise (oracle w2 (S (clock w2)) (CQuit (self_driver w2))))]
      end.
Proof.
  cbv zeta.
  apply (@save_failure_is_not_fatal "https://www.setopati.com" 20
           (start Case.disk_full insertion_order)
           ["https://www.setopati.com/a/1"]).
  - vm_compute. reflexivity.
  - discriminate.
Defined.

(** With a disk that is full the run still hands back its record. *)
Example disk_full_run :
  let run := VariantB.scrape_website "https://www.setopati.com" 20
               (start Case.disk_full insertion_order) in
  (exists records, fst run = Ok records /\ length records = 1) /\
  In (EvLog ERROR (MsgCsvError (Exception_ "No space left on device")))
     (trace (snd run)).
Proof.
  cbv zeta. split.
  - eexists; split; vm_compute; reflexivity.
  - vm_compute. repeat (first [left; reflexivity | right]).
Qed.

Lemma footprint_not_print_article (url : string) (e : event) :
  of_scrape_article url e = true -> not_print e = true.
Proof. destruct e as [[] | | [] [] |]; cbn; intros; try reflexivity; discriminate. Qed.

Lemma footprint_not_print_links (url : string) (e : event) :
  of_get_article_links url e = true -> not_print e = true.
Proof. destruct e as [[] | | [] [] |]; cbn; intros; try reflexivity; discriminate. Qed.

Lemma scrape_for_no_print (article_links : list string) :
  forall articles_data,
    respects (only not_print) (VariantB.scrape_for article_links articles_data).
Proof.
  induction article_links as [| url rest IH]; intros articles_data; cbn.
  - respects_go.
  - assert (H : respects (only not_print) (VariantB.scrape_article url)).
    { eapply respects_weaken; [| apply scrape_article_footprint].
      intros d. apply only_weaken. apply footprint_not_print_article. }
    respects_go; only_leaf.
Qed.

Lemma scrape_website_no_print (base_url : string) (max_articles : Z) :
  respects (only not_print) (VariantB.scrape_website base_url max_articles).
Proof.
  assert (H : respects (only not_print) (VariantB.get_article_links base_url 5)).
  { eapply respects_weaken; [| apply get_article_links_footprint].
    intros d. apply only_weaken. apply footprint_not_print_links. }
  unfold VariantB.scrape_website, VariantB.collect_article_links.
  apply respects_try_finally; [exact _ | |].
  - apply respects_try_except; [exact _ | |].
    + apply respects_bind; [exact _ | respects_go |].
      intros [| u l]; [respects_go; only_leaf |].
      pose proof (scrape_for_no_print (u :: l) []).
      apply respects_bind; [exact _ | assumption |].
      intros df. unfold VariantB.save_csv.
      destruct (negb (VariantB.df_empty df)); respects_go; only_leaf.
    + intros e. respects_go; only_leaf.
  - unfold VariantB.quit_quietly, VariantB.driver_quit. respects_go; only_leaf.
Qed.

(** X14: the main block of web.py.  It never raises and prints exactly one
    line, as the last thing it does: "Scraping failed" with the cause when
    the session could not be started, and otherwise the number of records of
    the frame that [scrape_website] returned. *)
Theorem main_prints_one_line (w : world) :
  fst (VariantB.main w) = Ok tt /\
  exists d,
    count is_print d = 0 /\
    new_events w (snd (VariantB.main w)) =
      d ++
      [EvPrint
         match fst (VariantB.setup_driver w) with
         | Raise e => MsgScrapingFailed e
         | Ok _ =>
             match fst (VariantB.scrape_website "https://www.setopati.com" 20
                          (snd (VariantB.setup_driver w))) with
             | Ok df => MsgScrapedCount (length df)
             | Raise e => MsgScrapingFailed e
             end
         end].
Proof.
  assert (Hzero : forall d, only not_print d -> count is_print d = 0).
  { intros d. apply (@only_count_zero not_print is_print d).
    intros e. unfold not_print. destruct (is_print e); cbn; congruence. }
  unfold VariantB.main, VariantB.init, try_except. rewrite bind_run.
  destruct (setup_driver_startup w) as (_ & _ & d1 & Hd1 & Ho1).
  assert (Hp1 : count is_print d1 = 0).
  { apply (@only_count_zero is_startup is_print d1); auto.
    intros [[] | | [] [] |]; cbn; congruence. }
  destruct (VariantB.setup_driver w) as [[[] | e] w1]; cbn [fst snd] in *.
  - rewrite bind_run.
    destruct (scrape_website_no_print "https://www.setopati.com" 20 w1)
      as (_ & _ & d2 & Hd2 & Ho2).
    destruct (VariantB.scrape_website "https://www.setopati.com" 20 w1)
      as [[df | e] w2]; cbn [fst snd] in *; unfold print, emit; cbn.
    + split; [reflexivity |]. exists (d1 ++ d2). split.
      * rewrite count_app, Hp1, (Hzero _ Ho2). reflexivity.
      * apply new_events_app. cbn. rewrite Hd2, Hd1, <- !app_assoc. reflexivity.
    + split; [reflexivity |]. exists (d1 ++ d2). split.
      * rewrite count_app, Hp1, (Hzero _ Ho2). reflexivity.
      * apply new_events_app. cbn. rewrite Hd2, Hd1, <- !app_assoc. reflexivity.
  - unfold print, emit. cbn. split; [reflexivity |]. exists d1. split; [exact Hp1 |].
    apply new_events_app. cbn. rewrite Hd1, <- app_assoc. reflexivity.
Qed.

(* ================================================================== *)
(** ** Further properties of variant A                                 *)
(* ================================================================== *)

Lemma find_none_no_key (key : string) (attrs : list (string * string)) :
  (forall v, ~ In (key, v) attrs) ->
  List.find (fun kv => String.eqb (fst kv) key) attrs = None.
Proof.
  intros H. induction attrs as [| [k v] attrs IH]; cbn; [reflexivity |].
  destruct (String.eqb k key) eqn:E.
  - apply String.eqb_eq in E. subst. exfalso. apply (H v). now left.
  - apply IH. intros v' Hin. apply (H v'). now right.
Qed.

(** X15: a teaser block with a part missing.  Without a paragraph the
    block raises [AttributeError] (whether or not it has a link); with a
    paragraph and no [a] tag it raises [TypeError]; with an [a] tag that has
    no [href] it raises [KeyError].  In each case the loop prints the error,
    requests nothing for the block, adds no record and goes on with the next
    block. *)
Theorem teaser_with_missing_part_is_skipped :
  (forall article,
      find "p" None article = None ->
      VariantA.teaser_fields article = Raise AttributeError) /\
  (forall article p,
      find "p" None article = Some p ->
      find "a" None article = None ->
      VariantA.teaser_fields article = Raise TypeError) /\
  (forall article p name classes attrs children,
      find "p" None article = Some p ->
      find "a" None article = Some (NTag name classes attrs children) ->
      (forall v, ~ In ("href", v) attrs) ->
      VariantA.teaser_fields article = Raise KeyError) /\
  (forall base_url driver article rest all_articles w e,
      VariantA.teaser_fields article = Raise e ->
      VariantA.articles_for base_url driver (article :: rest) all_articles w =
      VariantA.articles_for base_url driver rest all_articles
        (append_event (EvPrint (MsgErrorScraping e)) w)).
Proof.
  repeat split.
  - intros article H. unfold VariantA.teaser_fields. now rewrite H.
  - intros article p Hp Ha. unfold VariantA.teaser_fields. now rewrite Hp, Ha.
  - intros article p name classes attrs children Hp Ha Hno.
    unfold VariantA.teaser_fields. rewrite Hp, Ha. cbn.
    now rewrite (@find_none_no_key _ _ Hno).
  - intros base_url driver article rest all_articles w e He.
    rewrite articles_for_step, (@scrape_teaser_unreadable _ _ _ _ _ He).
    reflexivity.
Qed.

Lemma teaser_with_missing_part_is_skipped_witness :
  let w := start Scenario.empty_listing insertion_order in
  VariantA.teaser_fields Case.block_without_paragraph = Raise AttributeError /\
  VariantA.teaser_fields Case.block_without_link = Raise TypeError /\
  VariantA.teaser_fields Case.block_without_href = Raise KeyError /\
  VariantA.articles_for "https://ekantipur.com" 1
    [Case.block_without_href] [] w =
  VariantA.articles_for "https://ekantipur.com" 1 [] []
    (append_event (EvPrint (MsgErrorScraping KeyError)) w).
Proof.
  cbv zeta. destruct teaser_with_missing_part_is_skipped as (H1 & H2 & H3 & H4).
  split; [| split; [| split]].
  - apply H1. reflexivity.
  - apply (H2 _ (NTag "p" [] [] [NText "Summary"])); reflexivity.
  - apply (H3 _ (NTag "p" [] [] [NText "Summary"]) "a" [] [("title", "Story")]
             [NText "Story"]); try reflexivity.
    intros v [H | []]. discriminate.
  - apply H4. reflexivity.
Defined.

Lemma subsequence_length (A : Type) (l1 l2 : list A) :
  subsequence l1 l2 -> length l1 <= length l2.
Proof. induction 1; cbn; lia. Qed.

Lemma readable_hrefs_length (articles : list node) :
  length (readable_hrefs articles) <= length articles.
Proof.
  unfold readable_hrefs.
  induction articles as [| article rest IH]; cbn [flat_map]; [cbn; lia |].
  rewrite length_app.
  destruct (VariantA.teaser_fields article) as [[[? ?] ?] | ?]; cbn; lia.
Qed.

(** The loop over the teasers never raises; the records it adds are those
    of some of the readable teasers, in the order of the listing. *)
Lemma articles_for_records (base_url : string) (driver : nat) (articles : list node) :
  forall all_articles w,
    exists new,
      fst (VariantA.articles_for base_url driver articles all_articles w)
        = Ok (all_articles ++ new) /\
      subsequence (map VariantA.link new)
                  (map (target base_url) (readable_hrefs articles)).
Proof.
  induction articles as [| article rest IH]; intros all_articles w.
  - exists []. cbn. rewrite app_nil_r. split; [reflexivity | constructor].
  - rewrite articles_for_step. unfold readable_hrefs. cbn [flat_map].
    fold (readable_hrefs rest).
    destruct (VariantA.teaser_fields article) as [[[title_tag teaser] href] | e] eqn:Ef.
    + rewrite (@scrape_teaser_run base_url driver article title_tag teaser href w Ef).
      destruct (VariantA.scrape_article_content driver (target base_url href)
                  (announced base_url href w)) as [[c | e] w1].
      * match goal with |- context [VariantA.articles_for _ _ rest ?acc ?w0] =>
          destruct (IH acc w0) as (new & Hok & Hsub) end.
        eexists (_ :: new). rewrite Hok, <- app_assoc. split; [reflexivity |].
        cbn. now apply subsequence_keep.
      * match goal with |- context [VariantA.articles_for _ _ rest ?acc ?w0] =>
          destruct (IH acc w0) as (new & Hok & Hsub) end.
        exists new. split; [exact Hok |]. cbn. now apply subsequence_skip.
    + rewrite (@scrape_teaser_unreadable base_url driver article e w Ef).
      match goal with |- context [VariantA.articles_for _ _ rest ?acc ?w0] =>
        destruct (IH acc w0) as (new & Hok & Hsub) end.
      exists new. split; [exact Hok |]. exact Hsub.
Qed.

Lemma find_all_limit (name : string) (cls : option string) (limit : nat)
    (root : node) :
  0 < limit -> length (find_all name cls limit root) <= limit.
Proof.
  intros H. unfold find_all.
  destruct (Nat.eqb_spec limit 0) as [E | _]; [lia |].
  rewrite length_firstn. lia.
Qed.

Lemma try_finally_run A (m : M A) (fin : M unit) (w : world) :
  try_finally m fin w =
  match fin (snd (m w)) with
  | (Ok _, w'') => (fst (m w), w'')
  | (Raise e, w'') => (Raise e, w'')
  end.
Proof. unfold try_finally. destruct (m w) as [r w']. reflexivity. Qed.

(** [driver.quit()] as a statement of its own. *)
Lemma quit_statement_run (driver : nat) (w : world) :
  (env_call (CQuit driver) ;;; ret tt) w =
  (match r_raise (oracle w (clock w) (CQuit driver)) with
   | Some e => Raise e
   | None => Ok tt
   end,
   tick (append_event
           (EvCall (CQuit driver) (r_raise (oracle w (clock w) (CQuit driver)))) w)).
Proof.
  unfold bind, env_call, ret.
  destruct (r_raise (oracle w (clock w) (CQuit driver))); reflexivity.
Qed.

Lemma scrape_articles_run (base_url news_url : string) (max_articles : nat)
    (w : world) :
  r_raise (oracle w (clock w) CChrome) = None ->
  r_raise (oracle w (S (clock w)) (CGet news_url)) = None ->
  VariantA.scrape_articles base_url news_url max_articles w =
  try_finally (listing_try base_url max_articles (S (sessions w)))
    (env_call (CQuit (S (sessions w))) ;;; ret tt)
    (listing_requested news_url w).
Proof.
  intros H1 H2. unfold VariantA.scrape_articles, VariantA.setup_driver.
  rewrite bind_run, bind_run, env_call_ok by exact H1.
  unfold new_session at 1. cbv beta iota.
  rewrite bind_run, env_call_ok by exact H2.
  reflexivity.
Qed.

Lemma scrape_articles_not_started (base_url news_url : string)
    (max_articles : nat) (w : world) (e : exn) :
  r_raise (oracle w (clock w) CChrome) = Some e \/
  (r_raise (oracle w (clock w) CChrome) = None /\
   r_raise (oracle w (S (clock w)) (CGet news_url)) = Some e) ->
  fst (VariantA.scrape_articles base_url news_url max_articles w) = Raise e.
Proof.
  intros [H1 | [H1 H2]]; unfold VariantA.scrape_articles, VariantA.setup_driver.
  - rewrite bind_run, bind_run. erewrite env_call_raise by exact H1. reflexivity.
  - rewrite bind_run, bind_run, env_call_ok by exact H1.
    unfold new_session at 1. cbv beta iota.
    rewrite bind_run. erewrite env_call_raise by exact H2. reflexivity.
Qed.

Lemma listing_try_unreadable (base_url : string) (max_articles driver : nat)
    (news_url : string) (w : world) (e : exn) :
  r_raise (oracle w (S (S (clock w))) CPageSource) = Some e ->
  listing_try base_url max_articles driver (listing_requested news_url w) =
  (Raise e,
   tick (append_event (EvCall CPageSource (Some e))
     (append_event (EvSleep 2) (listing_requested news_url w)))).
Proof.
  intros H. unfold listing_try.
  rewrite bind_run. unfold sleep at 1. unfold emit at 1.
  rewrite bind_run. erewrite env_call_raise by exact H. reflexivity.
Qed.

Lemma listing_try_read (base_url : string) (max_articles driver : nat)
    (news_url : string) (w : world) :
  r_raise (oracle w (S (S (clock w))) CPageSource) = None ->
  listing_try base_url max_articles driver (listing_requested news_url w) =
  VariantA.articles_for base_url driver
    (find_all "div" (Some "teaser offset") max_articles
       (r_page (oracle w (S (S (clock w))) CPageSource))) []
    (tick (append_event (EvCall CPageSource None)
       (append_event (EvSleep 2) (listing_requested news_url w)))).
Proof.
  intros H. unfold listing_try.
  rewrite bind_run. unfold sleep at 1. unfold emit at 1.
  rewrite bind_run, env_call_ok by exact H. reflexivity.
Qed.

(** X16: what [scrape_articles] returns.  When it returns a list, the
    records are those of some of the readable teaser blocks found on the
    listing page, in the order of the page, each with the completed link of
    its block; with a positive [max_articles] there are at most
    [max_articles] of them. *)
Theorem records_follow_the_listing
    (base_url news_url : string) (max_articles : nat) (w : world)
    (records : list VariantA.teaser_data) :
  fst (VariantA.scrape_articles base_url news_url max_articles w) = Ok records ->
  let soup := r_page (oracle w (S (S (clock w))) CPageSource) in
  let blocks := find_all "div" (Some "teaser offset") max_articles soup in
  subsequence (map VariantA.link records)
              (map (target base_url) (readable_hrefs blocks)) /\
  (0 < max_articles -> length records <= max_articles).
Proof.
  intros Hok soup blocks.
  assert (Hsub : subsequence (map VariantA.link records)
                   (map (target base_url) (readable_hrefs blocks))).
  { destruct (r_raise (oracle w (clock w) CChrome)) as [e |] eqn:E1.
    { rewrite (@scrape_articles_not_started base_url news_url max_articles w e)
        in Hok by now left. discriminate. }
    destruct (r_raise (oracle w (S (clock w)) (CGet news_url))) as [e |] eqn:E2.
    { rewrite (@scrape_articles_not_started base_url news_url max_articles w e)
        in Hok by (right; now split). discriminate. }
    rewrite scrape_articles_run, try_finally_run, quit_statement_run in Hok
      by assumption.
    match type of Hok with context [r_raise ?x] => destruct (r_raise x) end;
      cbn [fst] in Hok; [discriminate |].
    destruct (r_raise (oracle w (S (S (clock w))) CPageSource)) as [e |] eqn:E3.
    { erewrite listing_try_unreadable in Hok by exact E3. discriminate. }
    rewrite listing_try_read in Hok by exact E3.
    match type of Hok with fst (VariantA.articles_for ?b ?d ?l ?acc ?w0) = _ =>
      destruct (articles_for_records b d l acc w0) as (new & Hnew & Hsub)
    end.
    rewrite Hnew in Hok. inversion Hok. subst records. exact Hsub. }
  split; [exact Hsub |].
  intros Hpos. apply subsequence_length in Hsub.
  rewrite !length_map in Hsub.
  pose proof (readable_hrefs_length blocks) as Hr.
  pose proof (@find_all_limit "div" (Some "teaser offset") max_articles soup Hpos)
    as Hl.
  fold blocks in Hl. lia.
Qed.

Lemma scrape_article_content_no_skip (driver : nat) (url : string) :
  respects (only not_skip_print) (VariantA.scrape_article_content driver url).
Proof. unfold VariantA.scrape_article_content. respects_go; only_leaf. Qed.

Lemma scrape_teaser_no_skip (base_url : string) (driver : nat) (article : node) :
  respects (only not_skip_print) (VariantA.scrape_teaser base_url driver article).
Proof.
  unfold VariantA.scrape_teaser.
  apply respects_bind; [exact _ | respects_go |].
  intros [[title_tag teaser] link].
  apply respects_bind; [exact _ | respects_go; only_leaf |].
  intros link'. pose proof (scrape_article_content_no_skip driver link').
  respects_go.
Qed.

(** The loop over the teasers: one record or one "Error scraping
    article" line per block. *)
Lemma articles_for_accounting (base_url : string) (driver : nat)
    (articles : list node) :
  forall all_articles w,
    exists new d,
      fst (VariantA.articles_for base_url driver articles all_articles w)
        = Ok (all_articles ++ new) /\
      trace (snd (VariantA.articles_for base_url driver articles all_articles w))
        = trace w ++ d /\
      length new + count is_skip_print d = length articles /\
      count is_quit d = 0.
Proof.
  induction articles as [| article rest IH]; intros all_articles w.
  - exists [], []. cbn. rewrite !app_nil_r. repeat split.
  - rewrite articles_for_step.
    destruct (scrape_teaser_no_skip base_url driver article w)
      as (_ & _ & d1 & Hd1 & Hs1).
    destruct (scrape_teaser_no_quit base_url driver article w)
      as (_ & _ & d1' & Hd1' & Hq1).
    assert (d1' = d1) by (rewrite Hd1 in Hd1'; now apply app_inv_head in Hd1').
    subst d1'.
    assert (Hc1 : count is_skip_print d1 = 0).
    { apply (@only_count_zero not_skip_print is_skip_print d1); auto.
      intros e. unfold not_skip_print. destruct (is_skip_print e); cbn; congruence. }
    assert (Hc2 : count is_quit d1 = 0).
    { apply (@only_count_zero not_quit is_quit d1); auto.
      intros e. unfold not_quit. destruct (is_quit e); cbn; congruence. }
    destruct (VariantA.scrape_teaser base_url driver article w) as [[t | e] w1];
      cbn [snd] in Hd1.
    + match goal with |- context [VariantA.articles_for _ _ rest ?acc ?w0] =>
        destruct (IH acc w0) as (new & d2 & Hok & Hd2 & Hlen & Hq) end.
      exists (t :: new), (d1 ++ d2).
      rewrite Hok, Hd2, Hd1, <- !app_assoc, !count_app, Hc1, Hc2.
      repeat split; cbn; lia.
    + match goal with |- context [VariantA.articles_for _ _ rest ?acc ?w0] =>
        destruct (IH acc w0) as (new & d2 & Hok & Hd2 & Hlen & Hq) end.
      exists new, (d1 ++ [EvPrint (MsgErrorScraping e)] ++ d2).
      rewrite Hok, Hd2. cbn [trace append_event].
      rewrite Hd1, <- !app_assoc, !count_app, Hc1, Hc2.
      repeat split; cbn; lia.
Qed.

(** X17: a run of [scrape_articles] on a listing that loads.  After the
    session start, the request of the listing, the two seconds of sleep and
    the read of the page source, every teaser block found gives either a
    record or one "Error scraping article" line, and the run ends with the
    one [driver.quit()].  The records are returned when that quit succeeds;
    when it raises, [scrape_articles] raises its exception and the records
    are lost. *)
Theorem every_teaser_recorded_or_reported
    (base_url news_url : string) (max_articles : nat) (w : world) :
  r_raise (oracle w (clock w) CChrome) = None ->
  r_raise (oracle w (S (clock w)) (CGet news_url)) = None ->
  r_raise (oracle w (S (S (clock w))) CPageSource) = None ->
  let soup := r_page (oracle w (S (S (clock w))) CPageSource) in
  let blocks := find_all "div" (Some "teaser offset") max_articles soup in
  let run := VariantA.scrape_articles base_url news_url max_articles w in
  exists records d q,
    new_events w (snd run) =
      [EvCall CChrome None; EvCall (CGet news_url) None; EvSleep 2;
       EvCall CPageSource None] ++ d ++ [EvCall (CQuit (S (sessions w))) q] /\
    count is_quit d = 0 /\
    length records + count is_skip_print d = length blocks /\
    fst run = match q with Some e => Raise e | None => Ok records end.
Proof.
  intros H1 H2 H3 soup blocks run. subst run.
  rewrite scrape_articles_run, try_finally_run, quit_statement_run by assumption.
  rewrite listing_try_read by exact H3. fold soup. fold blocks.
  match goal with |- context [VariantA.articles_for ?b ?dr ?l ?acc ?w0] =>
    destruct (articles_for_accounting b dr l acc w0)
      as (new & d & Hok & Hd & Hlen & Hq);
    destruct (VariantA.articles_for b dr l acc w0) as [r w1]
  end.
  cbn [fst snd] in *. subst r.
  exists new, d, (r_raise (oracle w1 (clock w1) (CQuit (S (sessions w))))).
  repeat split; auto.
  - apply new_events_app.
    destruct (r_raise (oracle w1 (clock w1) (CQuit (S (sessions w)))));
      cbn [snd trace tick append_event]; rewrite Hd;
      cbn; rewrite <- !app_assoc; reflexivity.
  - destruct (r_raise (oracle w1 (clock w1) (CQuit (S (sessions w)))));
      reflexivity.
Qed.

Lemma every_teaser_recorded_or_reported_witness :
  let w := start Case.mixed_listing insertion_order in
  let run := VariantA.scrape_articles "https://ekantipur.com"
               "https://ekantipur.com/news" 5 w in
  exists records d q,
    new_events w (snd run) =
      [EvCall CChrome None; EvCall (CGet "https://ekantipur.com/news") None;
       EvSleep 2; EvCall CPageSource None] ++ d ++
      [EvCall (CQuit (S (sessions w))) q] /\
    count is_quit d = 0 /\
    length records + count is_skip_print d =
      length (find_all "div" (Some "teaser offset") 5
                (r_page (oracle w (S (S (clock w))) CPageSource))) /\
    fst run = match q with Some e => Raise e | None => Ok records end.
Proof.
  cbv zeta.
  apply (@every_teaser_recorded_or_reported "https://ekantipur.com"
           "https://ekantipur.com/news" 5
           (start Case.mixed_listing insertion_order)); reflexivity.
Defined.

(** On the listing of three teasers, the first is recorded and the two
    others are reported. *)
Example mixed_listing_run :
  let w := start Case.mixed_listing insertion_order in
  let run := VariantA.scrape_articles "https://ekantipur.com"
               "https://ekantipur.com/news" 5 w in
  fmap_links (fst run) = Ok ["https://ekantipur.com/news/1"] /\
  filter is_skip_print (trace (snd run)) =
    [EvPrint (MsgErrorScraping AttributeError);
     EvPrint (MsgErrorScraping WebDriverException)].
Proof. vm_compute. split; reflexivity. Qed.

Lemma records_follow_the_listing_witness :
  let w := start Case.mixed_listing insertion_order in
  let records :=
    [{| VariantA.title := "One"; VariantA.teaser := "First";
        VariantA.link := "https://ekantipur.com/news/1";
        VariantA.content := None |}] in
  let blocks := find_all "div" (Some "teaser offset") 5
                  (r_page (oracle w (S (S (clock w))) CPageSource)) in
  subsequence (map VariantA.link records)
              (map (target "https://ekantipur.com") (readable_hrefs blocks)) /\
  (0 < 5 -> length records <= 5).
Proof.
  cbv zeta.
  apply (@records_follow_the_listing "https://ekantipur.com"
           "https://ekantipur.com/news" 5
           (start Case.mixed_listing insertion_order)).
  vm_compute. reflexivity.
Defined.

(** X18: a listing page whose source cannot be read.  After the session
    start and the request of the listing, a [driver.page_source] that raises
    ends the run: no teaser is looked at and no article requested, the
    [finally] block quits the session, and [scrape_articles] raises (the
    exception of the quit if that fails too, else the exception of the
    read). *)
Theorem unreadable_listing_ends_the_run
    (base_url news_url : string) (max_articles : nat) (w : world) (e : exn) :
  r_raise (oracle w (clock w) CChrome) = None ->
  r_raise (oracle w (S (clock w)) (CGet news_url)) = None ->
  r_raise (oracle w (S (S (clock w))) CPageSource) = Some e ->
  let run := VariantA.scrape_articles base_url news_url max_articles w in
  let q := r_raise (oracle w (S (S (S (clock w)))) (CQuit (S (sessions w)))) in
  new_events w (snd run) =
    [EvCall CChrome None; EvCall (CGet news_url) None; EvSleep 2;
     EvCall CPageSource (Some e); EvCall (CQuit (S (sessions w))) q] /\
  fst run = Raise match q with Some e' => e' | None => e end.
Proof.
  intros H1 H2 H3 run q. subst run.
  rewrite scrape_articles_run, try_finally_run, quit_statement_run by assumption.
  erewrite listing_try_unreadable by exact H3.
  cbn [snd fst oracle clock tick append_event listing_requested new_session].
  fold q. split.
  - apply new_events_app. destruct q; cbn; rewrite <- !app_assoc; reflexivity.
  - destruct q; reflexivity.
Qed.

Lemma unreadable_listing_ends_the_run_witness :
  let w := start Case.listing_unreadable insertion_order in
  let run := VariantA.scrape_articles "https://ekantipur.com"
               "https://ekantipur.com/news" 5 w in
  let q := r_raise (oracle w (S (S (S (clock w)))) (CQuit (S (sessions w)))) in
  new_events w (snd run) =
    [EvCall CChrome None; EvCall (CGet "https://ekantipur.com/news") None;
     EvSleep 2; EvCall CPageSource (Some WebDriverException);
     EvCall (CQuit (S (sessions w))) q] /\
  fst run = Raise match q with Some e' => e' | None => WebDriverException end.
Proof.
  cbv zeta.
  apply (@unreadable_listing_ends_the_run "https://ekantipur.com"
           "https://ekantipur.com/news" 5
           (start Case.listing_unreadable insertion_order) WebDriverException);
    reflexivity.
Defined.

(** X19: the three outcomes of [scrape_article_content].  It raises
    exactly when [driver.get] raises, with that exception (the call is
    outside the [try]).  Otherwise it returns: [None] exactly when the page
    source cannot be read or the page has no content container; and for a
    page with a container the joined paragraph texts, which is the empty
    string, not [None], when the container holds no paragraph. *)
Theorem scrape_article_content_outcomes (driver : nat) (url : string) (w : world) :
  let run := VariantA.scrape_article_content driver url w in
  let got := r_raise (oracle w (clock w) (CGet url)) in
  let read := oracle w (S (clock w)) CPageSource in
  (forall e, fst run = Raise e <-> got = Some e) /\
  (fst run = Ok None <->
     got = None /\
     (r_raise read <> None \/ article_section (r_page read) = None)) /\
  (forall section,
      got = None -> r_raise read = None ->
      article_section (r_page read) = Some section ->
      paragraphs_inside section = [] ->
      fst run = Ok (Some "")).
Proof.
  intros run got read. subst run got read.
  destruct (r_raise (oracle w (clock w) (CGet url))) as [e0 |] eqn:E1.
  - rewrite (@scrape_article_content_unreachable driver url w e0 E1).
    cbn [fst]. split; [| split].
    + intros e. split; intros He; inversion He; reflexivity.
    + split; [discriminate | intros [He _]; discriminate].
    + discriminate.
  - destruct (r_raise (oracle w (S (clock w)) CPageSource)) as [e1 |] eqn:E2.
    + rewrite (@scrape_article_content_unreadable driver url w e1 E1 E2).
      cbn [fst]. split; [| split].
      * intros e. split; discriminate.
      * split; [| reflexivity]. intros _. split; [reflexivity |].
        left. discriminate.
      * discriminate.
    + rewrite (@scrape_article_content_read driver url w E1 E2).
      cbn [fst]. split; [| split].
      * intros e. split; discriminate.
      * split.
        -- destruct (article_section _); [discriminate |]. intros _.
           split; [reflexivity | now right].
        -- intros [_ [He | He]]; [congruence |]. now rewrite He.
      * intros section _ _ Hs Hp. rewrite Hs, find_all_paragraphs, Hp.
        reflexivity.
Qed.

Lemma scrape_article_content_outcomes_witness :
  fst (VariantA.scrape_article_content 1 "https://ekantipur.com/news/1"
         (start (Scenario.article_page Case.bare_container_page) insertion_order))
  = Ok (Some "").
Proof.
  apply (proj2 (proj2 (scrape_article_content_outcomes 1
                         "https://ekantipur.com/news/1"
                         (start (Scenario.article_page Case.bare_container_page)
                                insertion_order)))
           Case.bare_container); reflexivity.
Defined.
